(** * ModelLCD1602: the menu engine of [menu.c], embedded and verified

    The development follows [src/menu.c] and [src/include/menu.h]:
    the item store ([s_create_new_item]), the chain builder
    ([s_menu_rechain]), construction ([s_menu_add_item],
    [s_menu_set_child]), the three input handlers and the teardown
    of the dynamic store ([s_menu_free_items]); the key loop
    ([taskReadKey]) and the terminal modes of [src/console.c], with
    which [s_menu_init] and [Menu_Init] run; and the draft of the chain
    builder in [src/menu03.c].

    Conventions of the embedding.
    - A [menu_item_t *] is [option nat]: [None] is [NULL], [Some a] the
      object number [a].  In the static build object [a] is
      [s_menu_items[a]]; in the dynamic build it is the [a]-th block
      obtained from [malloc].
    - Every function that dereferences a pointer returns [option]:
      [None] stands for a run that does not return normally (a [NULL] or
      released object is dereferenced, or a loop does not terminate
      within the objects that exist).
    - [uint32_t], [int32_t] and [uint8_t] are [Z] with the wrap-around
      written out.
    - A callback is a routine outside the engine: calling it is an
      event of the trace, like a call of [printMenu]. *)

From Stdlib Require Import ZArith Lia Strings.String Strings.Byte.
From stdpp Require Import base option list numbers.

Local Open Scope Z_scope.

(** ** menu.h *)

Inductive memory_usage : Set :=
| MENU_USAGE_STATIC_MEMORY
| MENU_USAGE_DYNAMIC_MEMORY.

(** The [#if (MENU_STATIC_MEMORY != 0) ... #elif (MENU_DYNAMIC_MEMORY != 0)]
    cascade; [None] when neither branch defines [MENU_USAGE_MEMORY]. *)
Definition select_memory (menu_static_memory menu_dynamic_memory : Z)
  : option memory_usage :=
  if negb (menu_static_memory =? 0) then Some MENU_USAGE_STATIC_MEMORY
  else if negb (menu_dynamic_memory =? 0) then Some MENU_USAGE_DYNAMIC_MEMORY
  else None.

Record config : Set := {
  MENU_ITEM_TITLE_LEN : nat;
  MENU_SIZE : nat;
  ENCODER_INPUT_FILTER : Z;
  MENU_USAGE_MEMORY : memory_usage
}.

Definition MENU_STATIC_MEMORY : Z := 0.
Definition MENU_DYNAMIC_MEMORY : Z := 1.

(** The values the header of the repository gives. *)
Definition menu_h : config := {|
  MENU_ITEM_TITLE_LEN := 16;
  MENU_SIZE := 32;
  ENCODER_INPUT_FILTER := 2;
  MENU_USAGE_MEMORY :=
    default MENU_USAGE_STATIC_MEMORY
            (select_memory MENU_STATIC_MEMORY MENU_DYNAMIC_MEMORY)
|}.

Definition MENU_FLAG_GOTO_PARENT : Z := 0x80.
Definition MENU_FLAG_EDIT_DATA   : Z := 0x40.
Definition MENU_FLAG_GOTO_CHILD  : Z := 0x20.
Definition MNUE_FLAG_GOTO_CBFUNC : Z := 0x10.

(** ** Machine integers *)

Definition uint32 (z : Z) : Z := z mod 2 ^ 32.
Definition uint8 (z : Z) : Z := z mod 2 ^ 8.
(** Two's complement reading of the low 32 bits: the [(int)] cast of a
    [uint32_t] and the result of [int] arithmetic. *)
Definition int32 (z : Z) : Z := (z + 2 ^ 31) mod 2 ^ 32 - 2 ^ 31.

(** ** Data model (menu.c, typedefs) *)

Definition ptr : Set := option nat.

(** A [menu_item_callback_t]: [NULL] or the routine number. *)
Definition menu_item_callback_t : Set := option nat.

Record rotenc_data_t : Set := {
  rotenc_current : Z;   (* uint32_t current *)
  rotenc_prev : Z;      (* uint32_t prev *)
  rotenc_delta : Z      (* int32_t delta *)
}.

Record menu_item_t : Set := {
  title : list byte;    (* char title[MENU_ITEM_TITLE_LEN] *)
  prev : ptr;
  next : ptr;
  folowing : ptr;
  parent : ptr;
  child : ptr;
  callback : menu_item_callback_t;
  data : Z;             (* uint32_t *)
  flags : Z             (* uint8_t *)
}.

Record menu_handle_t : Set := {
  rotenc : rotenc_data_t;
  current : ptr;
  start : ptr;
  static_array_pos : Z  (* uint8_t, static build only *)
}.

(** What the engine does to its collaborators. *)
Inductive event : Set :=
| printMenu (str1 str2 : list byte)   (* console.c, with the two title arrays *)
| invoke (routine : nat).             (* current->callback() *)

Record machine : Set := {
  s_menu_handle : menu_handle_t;
  s_menu_items : list menu_item_t;  (* the objects of type menu_item_t, by number *)
  released : list nat;              (* the arguments of free(), oldest first *)
  trace : list event                (* oldest first *)
}.

(** *** Field assignments *)

Definition set_title (v : list byte) (it : menu_item_t) : menu_item_t :=
  {| title := v; prev := prev it; next := next it; folowing := folowing it;
     parent := parent it; child := child it; callback := callback it;
     data := data it; flags := flags it |}.
Definition set_prev (v : ptr) (it : menu_item_t) : menu_item_t :=
  {| title := title it; prev := v; next := next it; folowing := folowing it;
     parent := parent it; child := child it; callback := callback it;
     data := data it; flags := flags it |}.
Definition set_next (v : ptr) (it : menu_item_t) : menu_item_t :=
  {| title := title it; prev := prev it; next := v; folowing := folowing it;
     parent := parent it; child := child it; callback := callback it;
     data := data it; flags := flags it |}.
Definition set_folowing (v : ptr) (it : menu_item_t) : menu_item_t :=
  {| title := title it; prev := prev it; next := next it; folowing := v;
     parent := parent it; child := child it; callback := callback it;
     data := data it; flags := flags it |}.
Definition set_parent (v : ptr) (it : menu_item_t) : menu_item_t :=
  {| title := title it; prev := prev it; next := next it; folowing := folowing it;
     parent := v; child := child it; callback := callback it;
     data := data it; flags := flags it |}.
Definition set_child (v : ptr) (it : menu_item_t) : menu_item_t :=
  {| title := title it; prev := prev it; next := next it; folowing := folowing it;
     parent := parent it; child := v; callback := callback it;
     data := data it; flags := flags it |}.
Definition set_callback (v : menu_item_callback_t) (it : menu_item_t) : menu_item_t :=
  {| title := title it; prev := prev it; next := next it; folowing := folowing it;
     parent := parent it; child := child it; callback := v;
     data := data it; flags := flags it |}.
Definition set_flags (v : Z) (it : menu_item_t) : menu_item_t :=
  {| title := title it; prev := prev it; next := next it; folowing := folowing it;
     parent := parent it; child := child it; callback := callback it;
     data := data it; flags := v |}.

Definition set_rotenc (v : rotenc_data_t) (h : menu_handle_t) : menu_handle_t :=
  {| rotenc := v; current := current h; start := start h;
     static_array_pos := static_array_pos h |}.
Definition set_current (v : ptr) (h : menu_handle_t) : menu_handle_t :=
  {| rotenc := rotenc h; current := v; start := start h;
     static_array_pos := static_array_pos h |}.
Definition set_start (v : ptr) (h : menu_handle_t) : menu_handle_t :=
  {| rotenc := rotenc h; current := current h; start := v;
     static_array_pos := static_array_pos h |}.
Definition set_static_array_pos (v : Z) (h : menu_handle_t) : menu_handle_t :=
  {| rotenc := rotenc h; current := current h; start := start h;
     static_array_pos := v |}.

Definition with_handle (f : menu_handle_t → menu_handle_t) (m : machine) : machine :=
  {| s_menu_handle := f (s_menu_handle m); s_menu_items := s_menu_items m;
     released := released m; trace := trace m |}.
Definition with_items (its : list menu_item_t) (m : machine) : machine :=
  {| s_menu_handle := s_menu_handle m; s_menu_items := its;
     released := released m; trace := trace m |}.
Definition emit (e : event) (m : machine) : machine :=
  {| s_menu_handle := s_menu_handle m; s_menu_items := s_menu_items m;
     released := released m; trace := trace m ++ [e] |}.
Definition with_released (a : nat) (m : machine) : machine :=
  {| s_menu_handle := s_menu_handle m; s_menu_items := s_menu_items m;
     released := released m ++ [a]; trace := trace m |}.

(** *** Memory *)

(** [*p]: the object must exist and must not have been released. *)
Definition deref (m : machine) (p : ptr) : option menu_item_t :=
  a ← p;
  if bool_decide (a ∈ released m) then None else s_menu_items m !! a.

(** [p->field = v], as the assignment [f] to the object. *)
Definition assign (p : ptr) (f : menu_item_t → menu_item_t) (m : machine)
  : option machine :=
  a ← p;
  _ ← deref m p;
  Some (with_items (alter f a (s_menu_items m)) m).

(** [free(p)] for a non-null [p]: releasing what is not a live block
    does not return normally. *)
Definition free (p : ptr) (m : machine) : option machine :=
  a ← p;
  _ ← deref m p;
  Some (with_released a m).

(** The all-zero object of static storage. *)
Definition zero_item (cfg : config) : menu_item_t := {|
  title := replicate (MENU_ITEM_TITLE_LEN cfg) x00;
  prev := None; next := None; folowing := None; parent := None; child := None;
  callback := None; data := 0; flags := 0
|}.

(** The state at program start: [s_menu_handle] is zero (static storage),
    [s_menu_items] is [{0}] in the static build and no block has been
    obtained in the dynamic one. *)
Definition power_on (cfg : config) : machine := {|
  s_menu_handle := {| rotenc := {| rotenc_current := 0; rotenc_prev := 0;
                                   rotenc_delta := 0 |};
                      current := None; start := None; static_array_pos := 0 |};
  s_menu_items :=
    match MENU_USAGE_MEMORY cfg with
    | MENU_USAGE_STATIC_MEMORY => replicate (MENU_SIZE cfg) (zero_item cfg)
    | MENU_USAGE_DYNAMIC_MEMORY => []
    end;
  released := [];
  trace := []
|}.

(** ** Navigation (menu.c, the three handlers) *)

Definition s_display_menu (m : machine) : option machine :=
  cur ← deref m (current (s_menu_handle m));
  nxt ← deref m (next cur);
  Some (emit (printMenu (title cur) (title nxt)) m).

Definition s_menu_position_handling (m : machine) : option machine :=
  let h := s_menu_handle m in
  if 0 <? rotenc_delta (rotenc h) then
    cur ← deref m (current h);
    s_display_menu (with_handle (set_current (next cur)) m)
  else if rotenc_delta (rotenc h) <? 0 then
    cur ← deref m (current h);
    s_display_menu (with_handle (set_current (prev cur)) m)
  else s_display_menu m.

(** [raw] is the [uint32_t current] argument.  A zero filter factor is a
    division by zero in C.  The [int] subtraction is written with the
    two's complement wrap-around; [tick_accepted] shows that it does not
    wrap on the positions this handler stores. *)
Definition s_rotary_encoder_callback (cfg : config) (raw : Z) (m : machine)
  : option machine :=
  let filter := ENCODER_INPUT_FILTER cfg in
  if filter =? 0 then None
  else if negb (uint32 (uint32 (raw / filter) * filter) =? raw) then Some m
  else
    let r := rotenc (s_menu_handle m) in
    let delta := int32 (int32 (raw / 2) - int32 (rotenc_current r)) in
    let r' := {| rotenc_current := uint32 (rotenc_current r + delta);
                 rotenc_prev := rotenc_current r;
                 rotenc_delta := delta |} in
    let m' := with_handle (set_rotenc r') m in
    cur ← deref m' (current (s_menu_handle m'));
    match callback cur with
    | Some routine => Some (emit (invoke routine) m')
    | None => s_menu_position_handling m'
    end.

Definition has_flag (it : menu_item_t) (flag : Z) : bool :=
  Z.land (flags it) flag =? flag.

Definition s_push_button_callback (m : machine) : option machine :=
  cur ← deref m (current (s_menu_handle m));
  if bool_decide (child cur ≠ None) && has_flag cur MENU_FLAG_GOTO_CHILD then
    s_display_menu (with_handle (set_current (child cur)) m)
  else if bool_decide (parent cur ≠ None) && has_flag cur MENU_FLAG_GOTO_PARENT then
    s_display_menu (with_handle (set_current (parent cur)) m)
  else s_display_menu m.

Definition s_long_push_button_callback (m : machine) : option machine :=
  cur ← deref m (current (s_menu_handle m));
  if bool_decide (parent cur ≠ None) then
    s_display_menu (with_handle (set_current (parent cur)) m)
  else
    s_display_menu (with_handle (set_current (start (s_menu_handle m))) m).

(** ** Construction (menu.c) *)

(** [strncpy(dest, src, n)], as the [n] bytes written to [dest].  [src] is
    the memory at the source pointer up to its terminator: copying stops
    at the first zero byte or at the end of the list, and the rest of
    the [n] bytes is zero; when [n] bytes are copied before that, no zero
    byte is written. *)
Fixpoint strncpy (src : list byte) (n : nat) : list byte :=
  match n with
  | O => []
  | S n' =>
      match src with
      | [] => x00 :: strncpy [] n'
      | c :: rest =>
          if Byte.eqb c x00 then x00 :: strncpy [] n'
          else c :: strncpy rest n'
      end
  end.

(** What one call of [malloc(sizeof(menu_item_t))] does: [None] is a
    [NULL] result, [Some junk] a new block whose bytes read as [junk]
    (malloc does not initialise). *)
Definition malloc_result : Set := option menu_item_t.

Definition s_create_new_item (cfg : config) (env : malloc_result) (m : machine)
  : ptr * machine :=
  match MENU_USAGE_MEMORY cfg with
  | MENU_USAGE_STATIC_MEMORY =>
      let pos := static_array_pos (s_menu_handle m) in
      if Z.of_nat (MENU_SIZE cfg) <=? pos then (None, m)
      else (Some (Z.to_nat pos),
            with_handle (set_static_array_pos (uint8 (pos + 1))) m)
  | MENU_USAGE_DYNAMIC_MEMORY =>
      match env with
      | None => (None, m)
      | Some junk =>
          (Some (length (s_menu_items m)),
           with_items (s_menu_items m ++ [junk]) m)
      end
  end.

(** The [while (item)] loop of [s_menu_rechain]; the result is the final
    [first], [prev] and memory. *)
Fixpoint rechain_loop (fuel : nat) (parent_ref : ptr) (first prev_ref item : ptr)
    (m : machine) : option (ptr * ptr * machine) :=
  match item with
  | None => Some (first, prev_ref, m)
  | Some _ =>
      match fuel with
      | O => None
      | S fuel' =>
          it ← deref m item;
          if bool_decide (parent it = parent_ref) then
            let first' := if first is None then item else first in
            m1 ← assign item (set_prev prev_ref) m;
            m2 ← (if prev_ref is None then Some m1
                  else assign prev_ref (set_next item) m1);
            it' ← deref m2 item;
            rechain_loop fuel' parent_ref first' item (folowing it') m2
          else
            rechain_loop fuel' parent_ref first prev_ref (folowing it) m
      end
  end.

Definition s_menu_rechain (parent_ref : ptr) (m : machine) : option machine :=
  '(first, prev_ref, m1) ←
     rechain_loop (length (s_menu_items m)) parent_ref None None
                  (start (s_menu_handle m)) m;
  m2 ← (if first is None then Some m1 else assign first (set_prev prev_ref) m1);
  if prev_ref is None then Some m2 else assign prev_ref (set_next first) m2.

(** The parameter [flags] is a [uint8_t]: whatever value the caller
    writes is converted at the call, so [uint8 flags_arg] is what the
    body sees and stores. *)
Definition s_menu_add_item (cfg : config) (env : malloc_result)
    (title_arg : list byte) (parent_arg : ptr)
    (callback_arg : menu_item_callback_t) (flags_arg : Z) (m : machine)
  : option (ptr * machine) :=
  let '(item, m) := s_create_new_item cfg env m in
  if item is None then Some (None, m)
  else
    m ← assign item (set_title (strncpy title_arg (MENU_ITEM_TITLE_LEN cfg))) m;
    m ← assign item (set_parent parent_arg) m;
    m ← assign item (set_child None) m;
    m ← assign item (set_flags (uint8 flags_arg)) m;
    m ← assign item (set_callback callback_arg) m;
    m ← assign item (set_folowing None) m;
    m ← (if current (s_menu_handle m) is None then Some m
         else assign (current (s_menu_handle m)) (set_folowing item) m);
    let m := with_handle (set_current item) m in
    let m := if start (s_menu_handle m) is None
             then with_handle (set_start item) m else m in
    m ← s_menu_rechain parent_arg m;
    Some (item, m).

Definition s_menu_set_child (item child_arg : ptr) (m : machine) : option machine :=
  if item is None then Some m
  else
    m ← assign item (set_child child_arg) m;
    it ← deref m item;
    assign item (set_flags (Z.lor (flags it) MENU_FLAG_GOTO_CHILD)) m.

(** The loop of [s_menu_free_items]. *)
Fixpoint free_loop (fuel : nat) (item : ptr) (m : machine) : option machine :=
  it ← deref m item;
  if folowing it is None then Some m
  else
    match fuel with
    | O => None
    | S fuel' =>
        it' ← deref m item;
        let next_ref := folowing it' in
        m' ← free item m;
        free_loop fuel' next_ref m'
    end.

Definition s_menu_free_items (m : machine) : option machine :=
  free_loop (length (s_menu_items m)) (start (s_menu_handle m)) m.

(** *** Construction sequences *)

Inductive build_op : Set :=
| add_item (env : malloc_result) (title_arg : list byte) (parent_arg : ptr)
           (callback_arg : menu_item_callback_t) (flags_arg : Z)
| set_child_of (item child_arg : nat).

(** The number of objects handed out so far. *)
Definition allocated (cfg : config) (m : machine) : nat :=
  match MENU_USAGE_MEMORY cfg with
  | MENU_USAGE_STATIC_MEMORY => Z.to_nat (static_array_pos (s_menu_handle m))
  | MENU_USAGE_DYNAMIC_MEMORY => length (s_menu_items m)
  end.

(** A caller holds only pointers that [s_menu_add_item] returned. *)
Definition run_op (cfg : config) (op : build_op) (m : machine) : option machine :=
  match op with
  | add_item env t p cb fl => snd <$> s_menu_add_item cfg env t p cb fl m
  | set_child_of a c =>
      if bool_decide (a < allocated cfg m ∧ c < allocated cfg m)%nat
      then s_menu_set_child (Some a) (Some c) m else None
  end.

Fixpoint construct (cfg : config) (ops : list build_op) (m : machine)
  : option machine :=
  match ops with
  | [] => Some m
  | op :: ops' => m' ← run_op cfg op m; construct cfg ops' m'
  end.

(** The states the construction phase can be in. *)
Definition built (cfg : config) (m : machine) : Prop :=
  ∃ ops, construct cfg ops (power_on cfg) = Some m.

(** *** The menu of the repository ([Menu_Init]) *)

(** One event of the input collaborator ([taskReadKey] of console.c). *)
Inductive input : Set :=
| tick (raw : Z)
| short_press
| long_press.

Definition dispatch (cfg : config) (i : input) (m : machine) : option machine :=
  match i with
  | tick raw => s_rotary_encoder_callback cfg raw m
  | short_press => s_push_button_callback m
  | long_press => s_long_push_button_callback m
  end.

(** The handler calls of a run of [taskReadKey], as the sequence of
    the events it decodes; the loop itself, with its two ways out, is
    [key_loop] below. *)
Fixpoint taskReadKey (cfg : config) (inputs : list input) (m : machine)
  : option machine :=
  match inputs with
  | [] => Some m
  | i :: inputs' => m' ← dispatch cfg i m; taskReadKey cfg inputs' m'
  end.

Definition c_string (s : string) : list byte := list_byte_of_string s.

(** The construction part of [Menu_Init]; [env] is what each of the
    eighteen allocations does. *)
Definition Menu_Init_items (cfg : config) (env : nat → malloc_result) (m : machine)
  : option machine :=
  let add k t p fl m := s_menu_add_item cfg (env k) (c_string t) p None fl m in
  '(menu_start, m) ← add 0%nat "Start"%string None 0 m;
  '(menu_test, m) ← add 1%nat "Test"%string None 0 m;
  '(menu_options, m) ← add 2%nat "Options"%string None 0 m;
  '(menu_opt_bck, m) ← add 3%nat "Back"%string menu_options MENU_FLAG_GOTO_PARENT m;
  '(menu_pwm, m) ← add 4%nat "PWM"%string menu_options 0 m;
  '(menu_lo_arm, m) ← add 5%nat "Lo Arm"%string menu_options 0 m;
  '(menu_hi_arm, m) ← add 6%nat "Hi Arm"%string menu_options 0 m;
  m ← s_menu_set_child menu_options menu_opt_bck m;
  '(menu_pwm_back, m) ← add 7%nat "Back"%string menu_pwm MENU_FLAG_GOTO_PARENT m;
  '(menu_pwm_enable, m) ← add 8%nat "Enable"%string menu_pwm 0 m;
  '(menu_pwm_freq, m) ← add 9%nat "Frequency"%string menu_pwm 0 m;
  m ← s_menu_set_child menu_pwm menu_pwm_back m;
  '(menu_lo_arm_back, m) ← add 10%nat "Back"%string menu_lo_arm MENU_FLAG_GOTO_PARENT m;
  '(menu_lo_arm_enable, m) ← add 11%nat "Enable"%string menu_lo_arm 0 m;
  '(menu_lo_arm_delay, m) ← add 12%nat "Delay"%string menu_lo_arm 0 m;
  '(menu_lo_arm_duration, m) ← add 13%nat "Duration"%string menu_lo_arm 0 m;
  m ← s_menu_set_child menu_lo_arm menu_lo_arm_back m;
  '(menu_hi_arm_back, m) ← add 14%nat "Back"%string menu_hi_arm MENU_FLAG_GOTO_PARENT m;
  '(menu_hi_arm_enable, m) ← add 15%nat "Enable"%string menu_hi_arm 0 m;
  '(menu_hi_arm_delay, m) ← add 16%nat "Delay"%string menu_hi_arm 0 m;
  '(menu_hi_arm_duration, m) ← add 17%nat "Duration"%string menu_hi_arm 0 m;
  s_menu_set_child menu_hi_arm menu_hi_arm_back m.

(** ** The draft of the chain builder in menu03.c

    The repository keeps an earlier draft of the engine.  Its
    [s_menu_rechain] walks [while (item->folowing)], so it stops before
    the last item of the chain, and its two closing writes are not
    guarded; its [s_menu_add_item] ors the flags into the object and
    has no [return] on the path that succeeds. *)
Module menu03.

Fixpoint rechain_loop (fuel : nat) (parent_ref : ptr) (first prev_ref item : ptr)
    (m : machine) : option (ptr * ptr * machine) :=
  it ← deref m item;
  if folowing it is None then Some (first, prev_ref, m)
  else
    match fuel with
    | O => None
    | S fuel' =>
        if bool_decide (parent it = parent_ref) then
          let first' := if first is None then item else first in
          m2 ← (if prev_ref is None then Some m
                else m1 ← assign item (set_prev prev_ref) m;
                     assign prev_ref (set_next item) m1);
          it' ← deref m2 item;
          rechain_loop fuel' parent_ref first' item (folowing it') m2
        else
          rechain_loop fuel' parent_ref first prev_ref (folowing it) m
    end.

Definition s_menu_rechain (parent_ref : ptr) (m : machine) : option machine :=
  '(first, prev_ref, m1) ←
     rechain_loop (length (s_menu_items m)) parent_ref None None
                  (start (s_menu_handle m)) m;
  m2 ← assign first (set_prev prev_ref) m1;
  assign prev_ref (set_next first) m2.

Definition s_menu_add_item (cfg : config) (env : malloc_result)
    (title_arg : list byte) (parent_arg : ptr)
    (callback_arg : menu_item_callback_t) (flags_arg : Z) (m : machine)
  : option machine :=
  let '(item, m) := s_create_new_item cfg env m in
  if item is None then Some m
  else
    m ← assign item (set_title (strncpy title_arg (MENU_ITEM_TITLE_LEN cfg))) m;
    m ← assign item (set_parent parent_arg) m;
    m ← assign item (set_child None) m;
    it ← deref m item;
    m ← assign item (set_flags (Z.lor (flags it) (uint8 flags_arg))) m;
    m ← assign item (set_callback callback_arg) m;
    m ← assign item (set_folowing None) m;
    m ← (if current (s_menu_handle m) is None then Some m
         else assign (current (s_menu_handle m)) (set_folowing item) m);
    let m := with_handle (set_current item) m in
    let m := if start (s_menu_handle m) is None
             then with_handle (set_start item) m else m in
    s_menu_rechain parent_arg m.

End menu03.

(** ** Well-formed states *)

(** [p] points to one of the first [n] objects. *)
Definition valid (n : nat) (p : ptr) : Prop :=
  if p is Some a then (a < n)%nat else False.

Definition null_or_valid (n : nat) (p : ptr) : Prop :=
  if p is Some a then (a < n)%nat else True.

Definition item_wf (n : nat) (it : menu_item_t) : Prop :=
  valid n (next it) ∧ valid n (prev it) ∧
  null_or_valid n (parent it) ∧ null_or_valid n (child it).

(** The states the navigation handlers are written for: nothing has been
    released, [current] and [start] point to items, every item handed
    out has ring neighbours, and the encoder position is one the tick
    handler stores (a raw reading halved). *)
Definition navigable (cfg : config) (m : machine) : Prop :=
  let n := allocated cfg m in
  released m = [] ∧
  (n ≤ length (s_menu_items m))%nat ∧
  valid n (current (s_menu_handle m)) ∧
  valid n (start (s_menu_handle m)) ∧
  Forall (item_wf n) (take n (s_menu_items m)) ∧
  0 ≤ rotenc_current (rotenc (s_menu_handle m)) < 2 ^ 31.

#[global] Instance valid_dec n p : Decision (valid n p).
Proof. destruct p; simpl; apply _. Defined.
#[global] Instance null_or_valid_dec n p : Decision (null_or_valid n p).
Proof. destruct p; simpl; apply _. Defined.
#[global] Instance item_wf_dec n it : Decision (item_wf n it).
Proof. unfold item_wf; apply _. Defined.
#[global] Instance navigable_dec cfg m : Decision (navigable cfg m).
Proof. unfold navigable; simpl; apply _. Defined.

(** [m'] is [m] with the focus on [target] and one more rendering, of
    the focused item and its ring successor. *)
Definition focus_moves (m m' : machine) (target : ptr) : Prop :=
  current (s_menu_handle m') = target ∧
  start (s_menu_handle m') = start (s_menu_handle m) ∧
  s_menu_items m' = s_menu_items m ∧
  released m' = released m ∧
  ∃ cur nxt,
    deref m' target = Some cur ∧ deref m' (next cur) = Some nxt ∧
    trace m' = trace m ++ [printMenu (title cur) (title nxt)].

(** The state an accepted reading leaves before the dispatch. *)
Definition latch (raw : Z) (m : machine) : machine :=
  let position := rotenc_current (rotenc (s_menu_handle m)) in
  with_handle (set_rotenc {| rotenc_current := raw / 2;
                             rotenc_prev := position;
                             rotenc_delta := raw / 2 - position |}) m.

(** ** Rings and the build-order chain *)

(** An item with its two ring links blanked: what [s_menu_rechain]
    never writes. *)
Definition erase (it : menu_item_t) : menu_item_t :=
  set_prev None (set_next None it).

(** The objects among the first [k] whose parent is [q], in build order. *)
Definition kids (q : ptr) (its : list menu_item_t) (k : nat) : list nat :=
  filter (λ b, parent <$> its !! b = Some q) (seq 0 k).

(** The items with parent [q], in the order of their creation. *)
Definition members (cfg : config) (q : ptr) (m : machine) : list nat :=
  kids q (s_menu_items m) (allocated cfg m).

(** The links of an open chain: every member but the last has the member
    after it as [next], every member but the first has the member before
    it as [prev], and the first has a null [prev]. *)
Definition chained (M : list nat) (its : list menu_item_t) : Prop :=
  ∀ j x, M !! j = Some x →
    ∃ it, its !! x = Some it ∧
          prev it = (if j is S j' then M !! j' else None) ∧
          (S j < length M → next it = M !! S j)%nat.

(** The links of a closed ring over [M]: [next] of the [j]-th member is
    member [j + 1], the first one after the last; [prev] is member
    [j - 1], the last one before the first. *)
Definition ring_of (M : list nat) (its : list menu_item_t) : Prop :=
  ∀ j x, M !! j = Some x →
    ∃ it, its !! x = Some it ∧
          next it = (M ++ take 1 M) !! S j ∧
          prev it = (option_list (list.last M) ++ M) !! j.

(** The invariant of the [while (item)] loop of [s_menu_rechain] when the
    walk has passed the objects below [a]: the members met so far are an
    open chain, [first] and [prev_ref] are its ends, and nothing else has
    been written. *)
Definition loop_inv (q : ptr) (its0 : list menu_item_t) (a : nat)
    (first prev_ref : ptr) (its : list menu_item_t) : Prop :=
  erase <$> its = erase <$> its0 ∧
  first = list.head (kids q its0 a) ∧
  prev_ref = list.last (kids q its0 a) ∧
  chained (kids q its0 a) its ∧
  ∀ b, b ∉ kids q its0 a → its !! b = its0 !! b.

(** The pointer to object [a] if it is one of the first [n], else [NULL]:
    the build-order successor. *)
Definition nth_item (n a : nat) : ptr :=
  if decide (a < n)%nat then Some a else None.

(** What the construction phase maintains.  Objects are handed out in
    the order 0, 1, 2, ...; [start] is the first and [current] the last
    of them; [folowing] links each to the one created after it; the
    items of every parent form a closed ring in creation order; in the
    static build the slots not handed out yet are still zero. *)
Record build_inv (cfg : config) (m : machine) : Prop := {
  inv_released : released m = [];
  inv_length : (allocated cfg m ≤ length (s_menu_items m))%nat;
  inv_start : start (s_menu_handle m) = list.head (seq 0 (allocated cfg m));
  inv_current : current (s_menu_handle m) = list.last (seq 0 (allocated cfg m));
  inv_chain : ∀ a it, (a < allocated cfg m)%nat → s_menu_items m !! a = Some it →
                folowing it = nth_item (allocated cfg m) (S a);
  inv_rings : ∀ q, ring_of (members cfg q m) (s_menu_items m);
  inv_static : MENU_USAGE_MEMORY cfg = MENU_USAGE_STATIC_MEMORY →
               0 ≤ static_array_pos (s_menu_handle m) ≤ Z.of_nat (MENU_SIZE cfg) ∧
               length (s_menu_items m) = MENU_SIZE cfg ∧
               ∀ a, (allocated cfg m ≤ a < MENU_SIZE cfg)%nat →
                    s_menu_items m !! a = Some (zero_item cfg)
}.

(** The assignments of [s_menu_add_item] to the new item, applied to the
    object as the store handed it out. *)
Definition populate (cfg : config) (title_arg : list byte) (parent_arg : ptr)
    (callback_arg : menu_item_callback_t) (flags_arg : Z) (blank : menu_item_t)
  : menu_item_t :=
  set_folowing None
    (set_callback callback_arg
       (set_flags (uint8 flags_arg)
          (set_child None
             (set_parent parent_arg
                (set_title (strncpy title_arg (MENU_ITEM_TITLE_LEN cfg)) blank))))).

(** Ring closure, item by item: [next] and [prev] of an item handed out
    are items of the same parent that point back to it, and the only
    item of its parent points to itself. *)
Definition ring_closed (cfg : config) (m : machine) : Prop :=
  ∀ x it, (x < allocated cfg m)%nat → s_menu_items m !! x = Some it →
    ∃ y z ity itz,
      next it = Some y ∧ prev it = Some z ∧
      s_menu_items m !! y = Some ity ∧ s_menu_items m !! z = Some itz ∧
      y ∈ members cfg (parent it) m ∧ z ∈ members cfg (parent it) m ∧
      prev ity = Some x ∧ next itz = Some x ∧
      (members cfg (parent it) m = [x] → y = x ∧ z = x).

(** The construction step adds an item under parent [P]. *)
Definition under (P : ptr) (op : build_op) : Prop :=
  match op with
  | add_item _ _ p _ _ => p = P
  | set_child_of _ _ => False
  end.

(** The store has nothing to hand out: the static array is used up, or
    [malloc] returns [NULL]. *)
Definition allocation_fails (cfg : config) (env : malloc_result) (m : machine)
  : Prop :=
  match MENU_USAGE_MEMORY cfg with
  | MENU_USAGE_STATIC_MEMORY =>
      Z.of_nat (MENU_SIZE cfg) ≤ static_array_pos (s_menu_handle m)
  | MENU_USAGE_DYNAMIC_MEMORY => env = None
  end.

(** Every object the store hands out during construction is all-zero at
    that moment. *)
Definition hands_out_zeroed (cfg : config) : Prop :=
  ∀ env m a m1,
    built cfg m → s_create_new_item cfg env m = (Some a, m1) →
    s_menu_items m1 !! a = Some (zero_item cfg).

(** The static cursor is a [uint8_t]: the array must not have more
    slots than it can count. *)
Definition config_ok (cfg : config) : Prop :=
  MENU_USAGE_MEMORY cfg = MENU_USAGE_STATIC_MEMORY → (MENU_SIZE cfg ≤ 255)%nat.

(** ** Concrete states used in the examples *)

(** A block as [malloc] may deliver it: every field holds stale data. *)
Definition stale_block : menu_item_t := {|
  title := c_string "stale";
  prev := Some 77%nat; next := Some 78%nat; folowing := Some 79%nat;
  parent := Some 80%nat; child := Some 81%nat;
  callback := Some 5%nat; data := 0xDEADBEEF; flags := 0xFF
|}.

(** The menu of [Menu_Init] in the build the header selects, at the
    moment [s_menu_init] has put the focus on [start]. *)
Definition menu_at_start : machine :=
  Eval vm_compute in
    default (power_on menu_h)
      (m ← Menu_Init_items menu_h (λ _, Some stale_block) (power_on menu_h);
       Some (with_handle (set_current (start (s_menu_handle m))) m)).

(** The same menu focused on item [a]. *)
Definition menu_at (a : nat) : machine :=
  with_handle (set_current (Some a)) menu_at_start.

(** [Menu_Init_items] as a construction sequence, when every allocation
    succeeds with a stale block. *)
Definition Menu_Init_ops : list build_op :=
  let add t p fl := add_item (Some stale_block) (c_string t) p None fl in
  [ add "Start"%string None 0; add "Test"%string None 0; add "Options"%string None 0;
    add "Back"%string (Some 2%nat) MENU_FLAG_GOTO_PARENT;
    add "PWM"%string (Some 2%nat) 0; add "Lo Arm"%string (Some 2%nat) 0;
    add "Hi Arm"%string (Some 2%nat) 0;
    set_child_of 2 3;
    add "Back"%string (Some 4%nat) MENU_FLAG_GOTO_PARENT;
    add "Enable"%string (Some 4%nat) 0; add "Frequency"%string (Some 4%nat) 0;
    set_child_of 4 7;
    add "Back"%string (Some 5%nat) MENU_FLAG_GOTO_PARENT;
    add "Enable"%string (Some 5%nat) 0; add "Delay"%string (Some 5%nat) 0;
    add "Duration"%string (Some 5%nat) 0;
    set_child_of 5 10;
    add "Back"%string (Some 6%nat) MENU_FLAG_GOTO_PARENT;
    add "Enable"%string (Some 6%nat) 0; add "Delay"%string (Some 6%nat) 0;
    add "Duration"%string (Some 6%nat) 0;
    set_child_of 6 14 ].

(** The state after the first [k] steps of that sequence. *)
Definition menu_after (k : nat) : machine :=
  default (power_on menu_h)
          (construct menu_h (take k Menu_Init_ops) (power_on menu_h)).

(** A static build with room for two items, and its state when both
    have been added. *)
Definition two_slots : config := {|
  MENU_ITEM_TITLE_LEN := 16;
  MENU_SIZE := 2;
  ENCODER_INPUT_FILTER := 2;
  MENU_USAGE_MEMORY := MENU_USAGE_STATIC_MEMORY
|}.

Definition two_items : machine :=
  default (power_on two_slots)
    (construct two_slots
       [add_item None (c_string "Start") None None 0;
        add_item None (c_string "Options") None None 0]
       (power_on two_slots)).

(** A title of exactly [MENU_ITEM_TITLE_LEN] characters. *)
Definition sixteen_chars : list byte := c_string "0123456789ABCDEF".

(** A two-item root ring whose first item, "Run", carries routine 7. *)
Definition menu_with_callback : machine :=
  Eval vm_compute in
    default (power_on menu_h)
      (m ← construct menu_h
             [add_item (Some stale_block) (c_string "Run") None (Some 7%nat) 0;
              add_item (Some stale_block) (c_string "Idle") None None 0]
             (power_on menu_h);
       Some (with_handle (set_current (start (s_menu_handle m))) m)).

(** ** From construction to navigation *)

(** The first statement of [s_menu_init]: the focus goes to [start]. *)
Definition armed (m : machine) : machine :=
  with_handle (set_current (start (s_menu_handle m))) m.

(** Every [parent] argument given to [s_menu_add_item] was [NULL] or an
    item handed out. *)
Definition parents_valid (cfg : config) (m : machine) : Prop :=
  Forall (λ it, null_or_valid (allocated cfg m) (parent it))
         (take (allocated cfg m) (s_menu_items m)).

(** What the input collaborator can deliver: a reading is a [uint32_t]. *)
Definition input_ok (i : input) : Prop :=
  match i with
  | tick raw => 0 ≤ raw < 2 ^ 32
  | short_press | long_press => True
  end.

#[global] Instance parents_valid_dec cfg m : Decision (parents_valid cfg m).
Proof. unfold parents_valid; apply _. Defined.

(** ** The build-order chain, walked as [s_menu_rechain] walks it *)

(** The items met by [item = item->folowing] from [item] until [NULL]. *)
Fixpoint build_order (fuel : nat) (item : ptr) (m : machine) : option (list nat) :=
  match item with
  | None => Some []
  | Some a =>
      match fuel with
      | O => None
      | S fuel' =>
          it ← deref m item;
          rest ← build_order fuel' (folowing it) m;
          Some (a :: rest)
      end
  end.

(** Three items whose ring links are stale: "A" and "C" at the root,
    "B" under "A". *)
Definition unlinked : machine :=
  with_handle (set_start (Some 0%nat))
    (with_items
       [ set_folowing (Some 1%nat) (set_parent None stale_block);
         set_folowing (Some 2%nat) (set_parent (Some 0%nat) stale_block);
         set_folowing None (set_parent None stale_block) ]
       (power_on menu_h)).

(** The C string in a buffer: the bytes before the first zero byte (all
    of them when there is none). *)
Fixpoint read_string (buf : list byte) : list byte :=
  match buf with
  | [] => []
  | c :: rest => if Byte.eqb c x00 then [] else c :: read_string rest
  end.

(** ** Walking a ring *)

(** The focus after [n] forward steps from [item]
    ([current = current->next], as a positive delta does). *)
Fixpoint follow_next (n : nat) (item : ptr) (m : machine) : option ptr :=
  match n with
  | O => Some item
  | S n' => it ← deref m item; follow_next n' (next it) m
  end.

(** The loop of [s_print_chain]; the result is the list of the title
    arrays given to [printf], in order. *)
Fixpoint print_chain_loop (fuel : nat) (first item : ptr) (m : machine)
  : option (list (list byte)) :=
  it ← deref m item;
  if bool_decide (next it = first) then Some []
  else
    match fuel with
    | O => None
    | S fuel' =>
        rest ← print_chain_loop fuel' first (next it) m;
        Some (title it :: rest)
    end.

Definition s_print_chain (item : ptr) (m : machine) : option (list (list byte)) :=
  print_chain_loop (length (s_menu_items m)) item item m.

(** The title array of object [a] (empty when there is no such object). *)
Definition title_at (m : machine) (a : nat) : list byte :=
  default [] (title <$> s_menu_items m !! a).

(** [M] read as a ring from its [j]-th member. *)
Definition ring_from (j : nat) (M : list nat) : list nat := drop j M ++ take j M.

(** ** console.c: the key loop [taskReadKey]

    The terminal is its [c_lflag] word; [raw_flags] stands for
    [ECHO | ICANON | ISIG] of termios.h.  One [read(STDIN_FILENO, buf, 3)]
    either fails or delivers up to three bytes into the front of [buf];
    the bytes behind them keep what an earlier read left there. *)

Record console : Set := {
  c_lflag : Z;                (* the line flags of the terminal *)
  orig_termios : Z;           (* c_lflag of the global orig_termios *)
  key_counter : Z;            (* uint32_t current of taskReadKey *)
  buf : byte * byte * byte    (* char buf[3] of taskReadKey *)
}.

Inductive read_result : Set :=
| read_failed                      (* read returned -1 *)
| read_bytes (data : list byte).   (* read returned the number of bytes in data *)

(** How the loop is left: Esc, [exit(EXIT_FAILURE)] after a failed read,
    or (in the model only) no further read to serve. *)
Inductive console_exit : Set := esc_key | read_error | input_exhausted.

Definition enableRawMode (raw_flags : Z) (c : console) : console :=
  {| c_lflag := Z.land (c_lflag c) (Z.lnot raw_flags);
     orig_termios := c_lflag c;
     key_counter := key_counter c; buf := buf c |}.

Definition disableRawMode (c : console) : console :=
  {| c_lflag := orig_termios c;
     orig_termios := orig_termios c;
     key_counter := key_counter c; buf := buf c |}.

Definition set_key_counter (v : Z) (c : console) : console :=
  {| c_lflag := c_lflag c; orig_termios := orig_termios c;
     key_counter := v; buf := buf c |}.

(** The bytes of one read, written over the front of [buf]. *)
Definition store_read (data : list byte) (c : console) : console :=
  let '(b0, b1, b2) := buf c in
  {| c_lflag := c_lflag c; orig_termios := orig_termios c;
     key_counter := key_counter c;
     buf := match data with
            | [] => (b0, b1, b2)
            | [a] => (a, b1, b2)
            | [a; b] => (a, b, b2)
            | a :: b :: d :: _ => (a, b, d)
            end |}.

(** The [if] chain of the loop body after the Esc test, with the three
    callbacks it was given. *)
Definition after_read (rotary : Z → machine → option machine)
    (push long : machine → option machine)
    (n : nat) (c : console) (m : machine) : option (console * machine) :=
  let '(b0, b1, b2) := buf c in
  if (n =? 1)%nat then
    if Byte.eqb b0 "d" || Byte.eqb b0 "D" then m' ← long m; Some (c, m')
    else if Byte.eqb b0 x0a || Byte.eqb b0 x0d then m' ← push m; Some (c, m')
    else Some (c, m)
  else if (1 <? n)%nat && Byte.eqb b0 x1b && Byte.eqb b1 "[" then
    if Byte.eqb b2 "A" then
      let c := set_key_counter (uint32 (key_counter c - 2)) c in
      m' ← rotary (key_counter c) m; Some (c, m')
    else if Byte.eqb b2 "B" then
      let c := set_key_counter (uint32 (key_counter c + 2)) c in
      m' ← rotary (key_counter c) m; Some (c, m')
    else Some (c, m)
  else Some (c, m).

(** The [while (1)] loop, one read per iteration. *)
Fixpoint key_loop (raw_flags : Z) (rotary : Z → machine → option machine)
    (push long : machine → option machine)
    (reads : list read_result) (c : console) (m : machine)
  : option (console_exit * console * machine) :=
  match reads with
  | [] => Some (input_exhausted, c, m)
  | r :: reads' =>
      let c := enableRawMode raw_flags c in
      match r with
      | read_failed => Some (read_error, c, m)
      | read_bytes data =>
          let n := length (take 3 data) in
          let c := store_read (take 3 data) c in
          if (n =? 1)%nat && Byte.eqb (fst (fst (buf c))) x1b
          then Some (esc_key, c, m)
          else
            '(c, m) ← after_read rotary push long n c m;
            key_loop raw_flags rotary push long reads' (disableRawMode c) m
      end
  end.

(** [taskReadKey] of console.c: [current] starts at 0, [buf] holds
    [stale] bytes, the terminal has the line flags [lflag] and the global
    [orig_termios] is zero. *)
Definition console_taskReadKey (raw_flags : Z)
    (rotary : Z → machine → option machine)
    (push long : machine → option machine)
    (reads : list read_result) (lflag : Z) (stale : byte * byte * byte)
    (m : machine) : option (console_exit * console * machine) :=
  key_loop raw_flags rotary push long reads
           {| c_lflag := lflag; orig_termios := 0; key_counter := 0; buf := stale |} m.

(** The event one read makes the loop deliver, and the counter after it. *)
Definition key_event (n : nat) (c : console) : console * option input :=
  let '(b0, b1, b2) := buf c in
  if (n =? 1)%nat then
    if Byte.eqb b0 "d" || Byte.eqb b0 "D" then (c, Some long_press)
    else if Byte.eqb b0 x0a || Byte.eqb b0 x0d then (c, Some short_press)
    else (c, None)
  else if (1 <? n)%nat && Byte.eqb b0 x1b && Byte.eqb b1 "[" then
    if Byte.eqb b2 "A" then
      (set_key_counter (uint32 (key_counter c - 2)) c,
       Some (tick (uint32 (key_counter c - 2))))
    else if Byte.eqb b2 "B" then
      (set_key_counter (uint32 (key_counter c + 2)) c,
       Some (tick (uint32 (key_counter c + 2))))
    else (c, None)
  else (c, None).

(** The events of a whole run, with its exit and final console. *)
Fixpoint key_events (raw_flags : Z) (reads : list read_result) (c : console)
  : console_exit * console * list input :=
  match reads with
  | [] => (input_exhausted, c, [])
  | r :: reads' =>
      let c := enableRawMode raw_flags c in
      match r with
      | read_failed => (read_error, c, [])
      | read_bytes data =>
          let n := length (take 3 data) in
          let c := store_read (take 3 data) c in
          if (n =? 1)%nat && Byte.eqb (fst (fst (buf c))) x1b
          then (esc_key, c, [])
          else
            let '(c, ev) := key_event n c in
            let '(e, c', inputs) := key_events raw_flags reads' (disableRawMode c) in
            (e, c', option_list ev ++ inputs)
      end
  end.

(** A reading the key loop can produce. *)
Definition even_reading (i : input) : Prop :=
  match i with
  | tick raw => 0 ≤ raw < 2 ^ 32 ∧ raw mod 2 = 0
  | short_press | long_press => True
  end.

(** The last reading among the events, if any. *)
Definition last_tick (inputs : list input) : option Z :=
  list.last (omap (λ i, if i is tick raw then Some raw else None) inputs).

(** The three bytes of the arrow keys. *)
Definition arrow_up : list byte := [x1b; "["%byte; "A"%byte].
Definition arrow_down : list byte := [x1b; "["%byte; "B"%byte].

(** How the loop is left.  That depends on the reads alone: the loop
    ends at the first failed read, or at the first read of one byte that
    is Esc ([n == 1 && buf[0] == '\033']). *)
Fixpoint loop_exit (reads : list read_result) : console_exit :=
  match reads with
  | [] => input_exhausted
  | read_failed :: _ => read_error
  | read_bytes data :: reads' =>
      match take 3 data with
      | [b] => if Byte.eqb b x1b then esc_key else loop_exit reads'
      | _ => loop_exit reads'
      end
  end.

(** ** menu.c: [s_menu_init] and [Menu_Init]

    [s_menu_init] puts the focus on [start], renders, and gives the
    three handlers to [taskReadKey].  That call returns only when the
    loop is left by Esc, and only then is the teardown of the dynamic
    build reached.  After a failed read the process has ended in
    [exit(EXIT_FAILURE)] inside [taskReadKey]: nothing after the call is
    executed.  The result is the way the loop was left, with the console
    and the memory at that moment ([input_exhausted]: the loop is still
    waiting for a key). *)
Definition s_menu_init (cfg : config) (raw_flags : Z) (reads : list read_result)
    (lflag : Z) (stale : byte * byte * byte) (m : machine)
  : option (console_exit * console * machine) :=
  let m := with_handle (set_current (start (s_menu_handle m))) m in
  m ← s_display_menu m;
  '(e, c, m) ← console_taskReadKey raw_flags (s_rotary_encoder_callback cfg)
                 s_push_button_callback s_long_push_button_callback
                 reads lflag stale m;
  match e with
  | esc_key =>
      m ← match MENU_USAGE_MEMORY cfg with
          | MENU_USAGE_DYNAMIC_MEMORY => s_menu_free_items m
          | MENU_USAGE_STATIC_MEMORY => Some m
          end;
      Some (e, c, m)
  | read_error | input_exhausted => Some (e, c, m)
  end.

Definition Menu_Init (cfg : config) (env : nat → malloc_result)
    (raw_flags : Z) (reads : list read_result)
    (lflag : Z) (stale : byte * byte * byte) (m : machine)
  : option (console_exit * console * machine) :=
  m ← Menu_Init_items cfg env m;
  s_menu_init cfg raw_flags reads lflag stale m.

(** A terminal in cooked mode at the call of [taskReadKey], with the
    value [ECHO | ICANON | ISIG] has on Linux, and a session of key
    presses: up, down, down, Enter, a stray letter, 'd', then Esc. *)
Definition sample_raw_flags : Z := 0xB.

Definition fresh_console : console :=
  {| c_lflag := 0x8A3B; orig_termios := 0; key_counter := 0;
     buf := (x00, x00, x00) |}.

Definition sample_session : list read_result :=
  [read_bytes arrow_up; read_bytes arrow_down; read_bytes arrow_down;
   read_bytes [x0a]; read_bytes ["q"%byte]; read_bytes ["d"%byte];
   read_bytes [x1b]].

(** A session in which the second [read] fails. *)
Definition failing_session : list read_result :=
  [read_bytes arrow_down; read_failed].

(** ** [Menu_Init] when allocations fail *)

(** What the construction part of [Menu_Init] keeps whatever the store
    answers: the construction invariant, [parent] and [child] links that
    are [NULL] or items, an untouched encoder state and an empty trace. *)
Definition init_inv (cfg : config) (m : machine) : Prop :=
  build_inv cfg m ∧ parents_valid cfg m ∧
  Forall (λ it, null_or_valid (allocated cfg m) (child it))
         (take (allocated cfg m) (s_menu_items m)) ∧
  rotenc (s_menu_handle m) = rotenc (s_menu_handle (power_on cfg)) ∧
  trace m = [].

(** A store whose third allocation, that of "Options" in [Menu_Init],
    fails. *)
Definition options_fails (k : nat) : malloc_result :=
  if decide (k = 2%nat) then None else Some stale_block.

(** * Proofs *)

(** A decidable proposition about concrete states, settled by running
    its decision procedure. *)
Ltac by_evaluation := apply (bool_decide_unpack _); vm_compute; exact I.

(** ** Navigation *)

Lemma deref_valid cfg m p :
  navigable cfg m → valid (allocated cfg m) p →
  ∃ a it, p = Some a ∧ deref m p = Some it ∧ item_wf (allocated cfg m) it.
Proof.
  intros (Hrel & Hlen & _ & _ & Hall & _) Hp.
  destruct p as [a|]; [simpl in Hp | done].
  destruct (lookup_lt_is_Some_2 (s_menu_items m) a) as [it Hit]; [lia|].
  exists a, it. split; [done|]. split.
  - unfold deref; simpl. rewrite Hrel. by rewrite bool_decide_eq_false_2 by apply not_elem_of_nil.
  - rewrite Forall_lookup in Hall. apply (Hall a). by rewrite lookup_take_lt.
Qed.

Lemma navigable_set_current cfg m p :
  navigable cfg m → valid (allocated cfg m) p →
  navigable cfg (with_handle (set_current p) m).
Proof.
  intros (Hrel & Hlen & Hc & Hs & Hall & Henc) Hp.
  unfold navigable, allocated in *; simpl in *. by destruct (MENU_USAGE_MEMORY cfg).
Qed.

Lemma navigable_emit cfg m e : navigable cfg m → navigable cfg (emit e m).
Proof. intros H. exact H. Qed.

Lemma display_focus cfg m p :
  navigable cfg m → valid (allocated cfg m) p →
  ∃ m', s_display_menu (with_handle (set_current p) m) = Some m' ∧
        navigable cfg m' ∧ focus_moves m m' p ∧
        rotenc (s_menu_handle m') = rotenc (s_menu_handle m).
Proof.
  intros Hnav Hp.
  pose proof (navigable_set_current _ _ _ Hnav Hp) as Hnav'.
  destruct (deref_valid _ _ _ Hnav' Hp) as (a & cur & -> & Hcur & Hwf).
  destruct Hwf as (Hnext & _).
  destruct (deref_valid _ _ (next cur) Hnav') as (b & nxt & Hb & Hnxt & _); [done|].
  eexists. split.
  { unfold s_display_menu.
    change (current (s_menu_handle (with_handle (set_current (Some a)) m)))
      with (Some a).
    rewrite Hcur. simpl. rewrite Hnxt. done. }
  split; [by apply navigable_emit|].
  split; [|done]. repeat split; try done. by exists cur, nxt.
Qed.

Lemma with_handle_current_id m :
  with_handle (set_current (current (s_menu_handle m))) m = m.
Proof. by destruct m as [[] ? ? ?]. Qed.

Lemma display_same cfg m :
  navigable cfg m →
  ∃ m', s_display_menu m = Some m' ∧ navigable cfg m' ∧
        focus_moves m m' (current (s_menu_handle m)) ∧
        rotenc (s_menu_handle m') = rotenc (s_menu_handle m).
Proof.
  intros Hnav.
  destruct (display_focus cfg m (current (s_menu_handle m)) Hnav) as (m' & H & ?).
  { by destruct Hnav as (_ & _ & ? & _). }
  rewrite with_handle_current_id in H. by exists m'.
Qed.

Lemma focus_moves_current m m' p : focus_moves m m' p → current (s_menu_handle m') = p.
Proof. by intros [? _]. Qed.

(** C5: a short press moves the focus to the child when the
    descend flag is set and the child is non-null, otherwise to the parent
    when the ascend flag is set and the parent is non-null, otherwise
    nowhere; each time the menu is rendered once. *)
Theorem short_press_transition cfg m :
  navigable cfg m →
  ∃ cur m',
    deref m (current (s_menu_handle m)) = Some cur ∧
    s_push_button_callback m = Some m' ∧
    navigable cfg m' ∧
    rotenc (s_menu_handle m') = rotenc (s_menu_handle m) ∧
    let descend := has_flag cur MENU_FLAG_GOTO_CHILD = true ∧ child cur ≠ None in
    let ascend := has_flag cur MENU_FLAG_GOTO_PARENT = true ∧ parent cur ≠ None in
    (descend → focus_moves m m' (child cur)) ∧
    (¬ descend → ascend → focus_moves m m' (parent cur)) ∧
    (¬ descend → ¬ ascend → focus_moves m m' (current (s_menu_handle m))).
Proof.
  intros Hnav.
  destruct (deref_valid cfg m (current (s_menu_handle m)) Hnav)
    as (a & cur & Ha & Hcur & _ & _ & Hpar & Hch).
  { by destruct Hnav as (_ & _ & ? & _). }
  exists cur. unfold s_push_button_callback. rewrite Hcur. simpl.
  destruct (decide (has_flag cur MENU_FLAG_GOTO_CHILD = true ∧ child cur ≠ None))
    as [[Hf Hc]|Hno].
  - rewrite Hf, bool_decide_eq_true_2 by done. simpl.
    destruct (display_focus cfg m (child cur) Hnav) as (m' & -> & ? & ? & ?).
    { destruct (child cur); [done | congruence]. }
    exists m'. cbv zeta. split_and!; intros; first [done | tauto].
  - replace (bool_decide (child cur ≠ None) && has_flag cur MENU_FLAG_GOTO_CHILD)
      with false.
    2:{ symmetry. apply andb_false_iff.
        destruct (has_flag cur MENU_FLAG_GOTO_CHILD); [|by right].
        left. apply bool_decide_eq_false_2. tauto. }
    destruct (decide (has_flag cur MENU_FLAG_GOTO_PARENT = true ∧ parent cur ≠ None))
      as [[Hf Hp]|Hno'].
    + rewrite Hf, bool_decide_eq_true_2 by done. simpl.
      destruct (display_focus cfg m (parent cur) Hnav) as (m' & -> & ? & ? & ?).
      { destruct (parent cur); [done | congruence]. }
      exists m'. cbv zeta. split_and!; intros; first [done | tauto].
    + replace (bool_decide (parent cur ≠ None) && has_flag cur MENU_FLAG_GOTO_PARENT)
        with false.
      2:{ symmetry. apply andb_false_iff.
          destruct (has_flag cur MENU_FLAG_GOTO_PARENT); [|by right].
          left. apply bool_decide_eq_false_2. tauto. }
      destruct (display_same cfg m Hnav) as (m' & -> & ? & ? & ?).
      exists m'. cbv zeta. split_and!; intros; first [done | tauto].
Qed.

(** The scenario of the menu of [Menu_Init]: "Options" (item 2) descends
    to "Back" (item 3), and from there a second press ascends again. *)
Lemma short_press_transition_witness :
  ∃ m1 m2,
    s_push_button_callback (menu_at 2) = Some m1 ∧
    current (s_menu_handle m1) = Some 3%nat ∧
    s_push_button_callback m1 = Some m2 ∧
    current (s_menu_handle m2) = Some 2%nat.
Proof.
  assert (H0 : navigable menu_h (menu_at 2)).
  { by_evaluation. }
  destruct (short_press_transition menu_h (menu_at 2) H0)
    as (cur & m1 & Hcur & Hrun & Hnav1 & _ & Hdown & _).
  vm_compute in Hcur. injection Hcur as <-.
  assert (Hm1 : focus_moves (menu_at 2) m1 (Some 3%nat)).
  { apply Hdown. split; [reflexivity | discriminate]. }
  destruct (short_press_transition menu_h m1 Hnav1)
    as (cur1 & m2 & Hcur1 & Hrun1 & _ & _ & _ & Hup & _).
  destruct Hm1 as (Hc1 & _ & Hits & Hrel & _).
  unfold deref in Hcur1. rewrite Hc1, Hrel, Hits in Hcur1.
  vm_compute in Hcur1. injection Hcur1 as <-.
  exists m1, m2. split; [exact Hrun|]. split; [exact Hc1|]. split; [exact Hrun1|].
  apply (focus_moves_current m1), Hup.
  - intros [Hx _]. vm_compute in Hx. discriminate.
  - split; [reflexivity | discriminate].
Defined.

(** C6: a long press moves the focus to the parent when there
    is one and to [start] otherwise, whatever the flags of the item, and
    renders the menu. *)
Theorem long_press_transition cfg m :
  navigable cfg m →
  ∃ cur m',
    deref m (current (s_menu_handle m)) = Some cur ∧
    s_long_push_button_callback m = Some m' ∧
    navigable cfg m' ∧
    rotenc (s_menu_handle m') = rotenc (s_menu_handle m) ∧
    (parent cur ≠ None → focus_moves m m' (parent cur)) ∧
    (parent cur = None → focus_moves m m' (start (s_menu_handle m))).
Proof.
  intros Hnav.
  destruct (deref_valid cfg m (current (s_menu_handle m)) Hnav)
    as (a & cur & Ha & Hcur & _ & _ & Hpar & _).
  { by destruct Hnav as (_ & _ & ? & _). }
  exists cur. unfold s_long_push_button_callback. rewrite Hcur. simpl.
  destruct (decide (parent cur = None)) as [Hp|Hp].
  - rewrite bool_decide_eq_false_2 by tauto.
    destruct (display_focus cfg m (start (s_menu_handle m)) Hnav)
      as (m' & -> & ? & ? & ?).
    { by destruct Hnav as (_ & _ & _ & ? & _). }
    exists m'. cbv zeta. split_and!; intros; first [done | tauto].
  - rewrite bool_decide_eq_true_2 by done.
    destruct (display_focus cfg m (parent cur) Hnav) as (m' & -> & ? & ? & ?).
    { destruct (parent cur); [done | congruence]. }
    exists m'. cbv zeta. split_and!; intros; first [done | tauto].
Qed.

(** A long press on the root item "Start" focuses [start], which is that
    item; on "PWM" (item 4, no ascend flag) it goes to "Options". *)
Lemma long_press_transition_witness :
  (∃ m', s_long_push_button_callback menu_at_start = Some m' ∧
         current (s_menu_handle m') = Some 0%nat ∧
         length (trace m') = S (length (trace menu_at_start))) ∧
  (∃ m', s_long_push_button_callback (menu_at 4) = Some m' ∧
         current (s_menu_handle m') = Some 2%nat).
Proof.
  split.
  - assert (H0 : navigable menu_h menu_at_start).
    { by_evaluation. }
    destruct (long_press_transition menu_h menu_at_start H0)
      as (cur & m' & Hcur & Hrun & _ & _ & _ & Hroot).
    vm_compute in Hcur. injection Hcur as <-.
    destruct (Hroot eq_refl) as (Hc & _ & _ & _ & c & n & _ & _ & Htr).
    exists m'. split; [exact Hrun|]. split; [exact Hc|].
    rewrite Htr, length_app. simpl. lia.
  - assert (H0 : navigable menu_h (menu_at 4)).
    { by_evaluation. }
    destruct (long_press_transition menu_h (menu_at 4) H0)
      as (cur & m' & Hcur & Hrun & _ & _ & Hup & _).
    vm_compute in Hcur. injection Hcur as <-.
    exists m'. split; [exact Hrun|].
    apply (focus_moves_current (menu_at 4)), Hup. discriminate.
Defined.

(** ** The encoder *)

Lemma filter_test (f raw : Z) :
  0 < f → 0 ≤ raw < 2 ^ 32 →
  negb (uint32 (uint32 (raw / f) * f) =? raw) = negb (raw mod f =? 0).
Proof.
  intros Hf Hraw. f_equal.
  pose proof (Z.div_mod raw f ltac:(lia)) as Hdm.
  pose proof (Z.mod_pos_bound raw f Hf) as Hb.
  assert (0 ≤ raw / f) by (apply Z.div_pos; lia).
  unfold uint32. rewrite (Z.mod_small (raw / f)) by nia.
  rewrite Z.mod_small by nia.
  destruct (Z.eqb_spec (raw mod f) 0), (Z.eqb_spec (raw / f * f) raw); lia.
Qed.

Lemma int32_small z : - 2 ^ 31 ≤ z < 2 ^ 31 → int32 z = z.
Proof. intros H. unfold int32. rewrite Z.mod_small; lia. Qed.

Lemma half_range raw : 0 ≤ raw < 2 ^ 32 → 0 ≤ raw / 2 < 2 ^ 31.
Proof.
  intros H. split; [apply Z.div_pos; lia|].
  apply Z.div_lt_upper_bound; lia.
Qed.

Lemma tick_accepted cfg raw m :
  0 < ENCODER_INPUT_FILTER cfg → 0 ≤ raw < 2 ^ 32 →
  raw mod ENCODER_INPUT_FILTER cfg = 0 →
  0 ≤ rotenc_current (rotenc (s_menu_handle m)) < 2 ^ 31 →
  s_rotary_encoder_callback cfg raw m =
    cur ← deref (latch raw m) (current (s_menu_handle m));
    match callback cur with
    | Some routine => Some (emit (invoke routine) (latch raw m))
    | None => s_menu_position_handling (latch raw m)
    end.
Proof.
  intros Hf Hraw Hmod Hpos. unfold s_rotary_encoder_callback.
  destruct (Z.eqb_spec (ENCODER_INPUT_FILTER cfg) 0) as [?|_]; [lia|].
  rewrite filter_test by done. rewrite Hmod. simpl negb. cbv iota.
  pose proof (half_range raw Hraw).
  rewrite (int32_small (raw / 2)) by lia.
  rewrite (int32_small (rotenc_current _)) by lia.
  rewrite int32_small by lia.
  unfold uint32. rewrite Z.mod_small by lia.
  replace (rotenc_current (rotenc (s_menu_handle m)) +
           (raw / 2 - rotenc_current (rotenc (s_menu_handle m)))) with (raw / 2) by lia.
  reflexivity.
Qed.

Lemma navigable_latch cfg raw m :
  0 ≤ raw < 2 ^ 32 → navigable cfg m → navigable cfg (latch raw m).
Proof.
  intros Hraw (Hrel & Hlen & Hc & Hs & Hall & Henc).
  pose proof (half_range raw Hraw).
  unfold navigable, allocated, latch in *; simpl in *.
  by destruct (MENU_USAGE_MEMORY cfg).
Qed.

Lemma tick_outcome cfg raw m :
  0 < ENCODER_INPUT_FILTER cfg → 0 ≤ raw < 2 ^ 32 →
  raw mod ENCODER_INPUT_FILTER cfg = 0 → navigable cfg m →
  ∃ cur m',
    deref m (current (s_menu_handle m)) = Some cur ∧
    s_rotary_encoder_callback cfg raw m = Some m' ∧
    navigable cfg m' ∧
    rotenc (s_menu_handle m') = rotenc (s_menu_handle (latch raw m)) ∧
    (∀ routine, callback cur = Some routine → m' = emit (invoke routine) (latch raw m)) ∧
    (callback cur = None →
       let delta := rotenc_delta (rotenc (s_menu_handle m')) in
       (0 < delta → focus_moves m m' (next cur)) ∧
       (delta < 0 → focus_moves m m' (prev cur)) ∧
       (delta = 0 → focus_moves m m' (current (s_menu_handle m)))).
Proof.
  intros Hf Hraw Hmod Hnav.
  pose proof (navigable_latch cfg raw m Hraw Hnav) as Hnav1.
  destruct (deref_valid cfg (latch raw m) (current (s_menu_handle m)) Hnav1)
    as (a & cur & Ha & Hcur & Hnx & Hpv & _).
  { by destruct Hnav as (_ & _ & ? & _). }
  exists cur. rewrite tick_accepted; try done.
  2:{ by destruct Hnav as (_ & _ & _ & _ & _ & ?). }
  rewrite Hcur. simpl.
  destruct (callback cur) as [routine|] eqn:Hcb.
  { eexists. split_and!; try done. by intros ? [= <-]. }
  unfold s_menu_position_handling.
  change (rotenc_delta (rotenc (s_menu_handle (latch raw m))))
    with (raw / 2 - rotenc_current (rotenc (s_menu_handle m))).
  change (current (s_menu_handle (latch raw m))) with (current (s_menu_handle m)).
  rewrite Hcur. simpl.
  set (delta := raw / 2 - rotenc_current (rotenc (s_menu_handle m))).
  assert (Hd : ∀ m', rotenc (s_menu_handle m') = rotenc (s_menu_handle (latch raw m)) →
                     rotenc_delta (rotenc (s_menu_handle m')) = delta).
  { by intros m' ->. }
  destruct (Z.ltb_spec 0 delta).
  - destruct (display_focus cfg (latch raw m) (next cur) Hnav1) as (m' & -> & ? & ? & Hr);
      [done|].
    exists m'. cbv zeta. rewrite (Hd m' Hr).
    split_and!; intros; try done; split_and!; intros; first [done | lia].
  - destruct (Z.ltb_spec delta 0).
    + destruct (display_focus cfg (latch raw m) (prev cur) Hnav1) as (m' & -> & ? & ? & Hr);
        [done|].
      exists m'. cbv zeta. rewrite (Hd m' Hr).
    split_and!; intros; try done; split_and!; intros; first [done | lia].
    + destruct (display_same cfg (latch raw m) Hnav1) as (m' & -> & ? & ? & Hr).
      exists m'. cbv zeta. rewrite (Hd m' Hr).
    split_and!; intros; try done; split_and!; intros; first [done | lia].
Qed.

(** C3: a raw reading that is not a multiple of the filter
    factor changes nothing at all; a multiple sets
    [delta = raw / 2 - position] and [position = position + delta],
    which is [raw / 2]. *)
Theorem encoder_tick_filter cfg raw m :
  0 < ENCODER_INPUT_FILTER cfg → 0 ≤ raw < 2 ^ 32 →
  (raw mod ENCODER_INPUT_FILTER cfg ≠ 0 →
     s_rotary_encoder_callback cfg raw m = Some m) ∧
  (raw mod ENCODER_INPUT_FILTER cfg = 0 → navigable cfg m →
     ∃ m', s_rotary_encoder_callback cfg raw m = Some m' ∧
       let position := rotenc_current (rotenc (s_menu_handle m)) in
       let r' := rotenc (s_menu_handle m') in
       rotenc_delta r' = raw / 2 - position ∧
       rotenc_current r' = position + rotenc_delta r' ∧
       rotenc_current r' = raw / 2 ∧
       rotenc_prev r' = position).
Proof.
  intros Hf Hraw. split.
  - intros Hmod. unfold s_rotary_encoder_callback.
    destruct (Z.eqb_spec (ENCODER_INPUT_FILTER cfg) 0) as [?|_]; [lia|].
    rewrite filter_test by done.
    by destruct (Z.eqb_spec (raw mod ENCODER_INPUT_FILTER cfg) 0).
  - intros Hmod Hnav.
    destruct (tick_outcome cfg raw m Hf Hraw Hmod Hnav)
      as (cur & m' & _ & Hrun & _ & Hr & _).
    exists m'. split; [done|]. cbv zeta. rewrite Hr. simpl. lia.
Qed.

(** With the filter factor 2 of the header: reading 5 is dropped, reading
    4 moves the position from 0 to 2. *)
Lemma encoder_tick_filter_witness :
  s_rotary_encoder_callback menu_h 5 menu_at_start = Some menu_at_start ∧
  ∃ m', s_rotary_encoder_callback menu_h 4 menu_at_start = Some m' ∧
        rotenc_current (rotenc (s_menu_handle m')) = 2 ∧
        rotenc_delta (rotenc (s_menu_handle m')) = 2.
Proof.
  assert (Hf : 0 < ENCODER_INPUT_FILTER menu_h) by reflexivity.
  split.
  - apply (encoder_tick_filter menu_h 5 menu_at_start Hf); [lia|].
    vm_compute. discriminate.
  - destruct (encoder_tick_filter menu_h 4 menu_at_start Hf) as [_ Hacc]; [lia|].
    destruct Hacc as (m' & Hrun & Hd & _ & Hc & _).
    + reflexivity.
    + by_evaluation.
    + exists m'. split; [exact Hrun|]. split; [exact Hc | exact Hd].
Defined.

(** C4: on an accepted reading, an item with a callback gets the
    callback invoked and the focus, the items and the display are left
    alone; an item without one moves the focus to [next] for a positive
    delta, to [prev] for a negative one, nowhere for zero, and the menu
    is rendered. *)
Theorem accepted_tick_dispatch cfg raw m :
  0 < ENCODER_INPUT_FILTER cfg → 0 ≤ raw < 2 ^ 32 →
  raw mod ENCODER_INPUT_FILTER cfg = 0 → navigable cfg m →
  ∃ cur m',
    deref m (current (s_menu_handle m)) = Some cur ∧
    s_rotary_encoder_callback cfg raw m = Some m' ∧
    navigable cfg m' ∧
    (∀ routine, callback cur = Some routine →
       current (s_menu_handle m') = current (s_menu_handle m) ∧
       s_menu_items m' = s_menu_items m ∧
       trace m' = trace m ++ [invoke routine]) ∧
    (callback cur = None →
       let delta := rotenc_delta (rotenc (s_menu_handle m')) in
       (0 < delta → focus_moves m m' (next cur)) ∧
       (delta < 0 → focus_moves m m' (prev cur)) ∧
       (delta = 0 → focus_moves m m' (current (s_menu_handle m)))).
Proof.
  intros Hf Hraw Hmod Hnav.
  destruct (tick_outcome cfg raw m Hf Hraw Hmod Hnav)
    as (cur & m' & Hcur & Hrun & ? & _ & Hcb & Hnone).
  exists cur, m'. split_and!; try done.
  intros routine Hr. by rewrite (Hcb routine Hr).
Qed.

(** On "Run" (routine 7) reading 2 invokes the routine and the focus
    stays; on "Start" readings 2, then 0, then 0 again move the focus to
    "Test", back to "Start", and nowhere. *)
Lemma accepted_tick_dispatch_witness :
  (∃ m', s_rotary_encoder_callback menu_h 2 menu_with_callback = Some m' ∧
         current (s_menu_handle m') = Some 0%nat ∧
         trace m' = [invoke 7]) ∧
  (∃ m1 m2 m3,
     s_rotary_encoder_callback menu_h 2 menu_at_start = Some m1 ∧
     current (s_menu_handle m1) = Some 1%nat ∧
     s_rotary_encoder_callback menu_h 0 m1 = Some m2 ∧
     current (s_menu_handle m2) = Some 0%nat ∧
     s_rotary_encoder_callback menu_h 0 m2 = Some m3 ∧
     current (s_menu_handle m3) = Some 0%nat).
Proof.
  assert (Hf : 0 < ENCODER_INPUT_FILTER menu_h) by reflexivity.
  split.
  - destruct (accepted_tick_dispatch menu_h 2 menu_with_callback Hf)
      as (cur & m' & Hcur & Hrun & _ & Hcb & _); [lia | reflexivity | |].
    { by_evaluation. }
    vm_compute in Hcur. injection Hcur as <-.
    destruct (Hcb 7%nat eq_refl) as (Hc & _ & Ht).
    exists m'. split; [exact Hrun|]. split; [exact Hc | exact Ht].
  - destruct (accepted_tick_dispatch menu_h 2 menu_at_start Hf)
      as (cur1 & m1 & Hcur1 & Hrun1 & Hnav1 & _ & Hmove1); [lia | reflexivity | |].
    { by_evaluation. }
    destruct (accepted_tick_dispatch menu_h 0 m1 Hf)
      as (cur2 & m2 & Hcur2 & Hrun2 & Hnav2 & _ & Hmove2);
      [lia | reflexivity | exact Hnav1 |].
    destruct (accepted_tick_dispatch menu_h 0 m2 Hf)
      as (cur3 & m3 & Hcur3 & Hrun3 & _ & _ & Hmove3);
      [lia | reflexivity | exact Hnav2 |].
    pose proof Hrun1 as E1. vm_compute in E1. injection E1 as <-.
    pose proof Hrun2 as E2. vm_compute in E2. injection E2 as <-.
    vm_compute in Hcur3. injection Hcur3 as <-.
    destruct (Hmove3 eq_refl) as (_ & _ & Hstay). clear Hmove3 Hmove2 Hmove1.
    eexists _, _, m3.
    split; [exact Hrun1|]. split; [reflexivity|].
    split; [exact Hrun2|]. split; [reflexivity|].
    split; [exact Hrun3|].
    refine (focus_moves_current _ m3 _ (Hstay _)).
    clear Hstay. vm_compute in Hrun3. injection Hrun3 as <-. reflexivity.
Defined.

(** ** Memory *)

Lemma deref_live m a :
  released m = [] → deref m (Some a) = s_menu_items m !! a.
Proof.
  intros Hrel. unfold deref; simpl. rewrite Hrel.
  by rewrite bool_decide_eq_false_2 by apply not_elem_of_nil.
Qed.

Lemma assign_live m a f :
  released m = [] → is_Some (s_menu_items m !! a) →
  assign (Some a) f m = Some (with_items (alter f a (s_menu_items m)) m).
Proof.
  intros Hrel [it Hit]. pose proof (deref_live m a Hrel) as Hd.
  unfold assign, deref in *. simpl in *. by rewrite Hd, Hit.
Qed.

(** ** The chain builder *)

Lemma erase_parent (its : list menu_item_t) (b : nat) :
  parent <$> (erase <$> its) !! b = parent <$> its !! b.
Proof. rewrite list_lookup_fmap. by destruct (its !! b). Qed.

Lemma erase_folowing (its : list menu_item_t) (b : nat) :
  folowing <$> (erase <$> its) !! b = folowing <$> its !! b.
Proof. rewrite list_lookup_fmap. by destruct (its !! b). Qed.

Lemma erase_alter (its : list menu_item_t) (a : nat) f :
  (∀ it, erase (f it) = erase it) →
  erase <$> alter f a its = erase <$> its.
Proof.
  intros Hf. apply list_eq. intros b. rewrite !list_lookup_fmap.
  destruct (decide (a = b)) as [->|Hne].
  - rewrite list_lookup_alter_eq. destruct (its !! b); simpl; by rewrite ?Hf.
  - by rewrite list_lookup_alter_ne.
Qed.

Lemma kids_erase q its its0 k :
  erase <$> its = erase <$> its0 → kids q its k = kids q its0 k.
Proof.
  intros He. unfold kids. apply list_filter_iff. intros b.
  by rewrite <- (erase_parent its), <- (erase_parent its0), He.
Qed.

Lemma kids_S q its k :
  kids q its (S k) =
  kids q its k ++ (if decide (parent <$> its !! k = Some q) then [k] else []).
Proof.
  unfold kids. rewrite seq_S, list.filter_app. simpl. f_equal.
Qed.

Lemma elem_of_kids q its k b :
  b ∈ kids q its k ↔ (b < k)%nat ∧ parent <$> its !! b = Some q.
Proof.
  unfold kids. rewrite list_elem_of_filter, elem_of_seq. intuition lia.
Qed.

Lemma NoDup_kids q its k : NoDup (kids q its k).
Proof. apply list.NoDup_filter, NoDup_seq. Qed.

Lemma kids_lookup_lt q its k j x : kids q its k !! j = Some x → (x < k)%nat.
Proof.
  intros H. apply list_elem_of_lookup_2 in H. by apply elem_of_kids in H as [? _].
Qed.

Lemma loop_inv_skip q its0 a first pv its :
  loop_inv q its0 a first pv its →
  parent <$> its0 !! a ≠ Some q →
  loop_inv q its0 (S a) first pv its.
Proof.
  intros H Hne. unfold loop_inv in *.
  by rewrite kids_S, decide_False, app_nil_r.
Qed.

(** The writes of one iteration on a member: [item->prev = prev] and,
    when there is a previous member, [prev->next = item]. *)
Lemma loop_inv_link q its0 a first pv its it :
  loop_inv q its0 a first pv its →
  its !! a = Some it → parent it = q →
  loop_inv q its0 (S a) (if first is None then Some a else first) (Some a)
    ((if pv is Some l then alter (set_next (Some a)) l else id)
       (alter (set_prev pv) a its)).
Proof.
  intros (Her & Hfirst & Hpv & Hch & Hframe) Hit Hpar.
  set (M := kids q its0 a) in *.
  assert (HM : kids q its0 (S a) = M ++ [a]).
  { rewrite kids_S, decide_True; [done|].
    rewrite <- (erase_parent its0), <- Her, erase_parent, Hit. simpl. by rewrite Hpar. }
  assert (Hlt : ∀ j x, M !! j = Some x → x ≠ a).
  { intros j x Hx. apply kids_lookup_lt in Hx. lia. }
  assert (Hnd : NoDup M) by apply NoDup_kids.
  assert (Hlast : ∀ l, pv = Some l → M !! pred (length M) = Some l ∧ l ≠ a).
  { intros l Hl. rewrite Hpv, last_lookup in Hl. split; [done|]. by eapply Hlt. }
  set (its1 := alter (set_prev pv) a its).
  set (its2 := (if pv is Some l then alter (set_next (Some a)) l else id) its1).
  assert (H2 : ∀ x, its2 !! x =
            (if decide (pv = Some x) then set_next (Some a) else id) <$> its1 !! x).
  { intros x. subst its2. destruct pv as [l|]; simpl.
    - destruct (decide (l = x)) as [->|Hne].
      + by rewrite list_lookup_alter_eq, decide_True.
      + rewrite list_lookup_alter_ne, decide_False by congruence.
        by destruct (its1 !! x).
    - by destruct (its1 !! x). }
  assert (H1 : ∀ x, x ≠ a → its1 !! x = its !! x).
  { intros x Hx. subst its1. by rewrite list_lookup_alter_ne. }
  unfold loop_inv. rewrite HM. split_and!.
  - subst its2 its1. destruct pv; simpl; rewrite ?erase_alter; done.
  - rewrite head_snoc, Hfirst. by destruct (list.head M).
  - by rewrite last_snoc.
  - intros j x Hj. apply lookup_app_Some in Hj as [Hj|[Hge Hj]].
    + destruct (Hch j x Hj) as (itx & Hx & Hprev & Hnext).
      pose proof (lookup_lt_Some _ _ _ Hj) as Hjlt.
      rewrite H2, H1, Hx by by eapply Hlt. simpl.
      eexists. split; [done|]. split.
      * replace (prev _) with (prev itx) by by destruct (decide _).
        rewrite Hprev. destruct j as [|j']; [done|].
        by rewrite lookup_app_l by lia.
      * intros _. destruct (decide (pv = Some x)) as [Hl|Hl]; simpl.
        -- destruct (Hlast x Hl) as [Hp _].
           assert (j = pred (length M)) as -> by by eapply NoDup_lookup.
           replace (S (pred (length M))) with (length M) by lia.
           by rewrite list_lookup_middle.
        -- assert (S j < length M)%nat as Hs.
           { destruct (decide (S j < length M)%nat); [done|]. exfalso. apply Hl.
             rewrite Hpv, last_lookup, <- Hj. f_equal. lia. }
           rewrite Hnext by done. by rewrite lookup_app_l.
    + apply list_lookup_singleton_Some in Hj as [Hj0 <-].
      assert (j = length M) as -> by lia.
      rewrite H2. subst its1. rewrite list_lookup_alter_eq, Hit. simpl.
      eexists. split; [done|]. split.
      * rewrite decide_False.
        2:{ intros Hl. destruct (Hlast a Hl) as [_ ?]. done. }
        simpl. rewrite Hpv, last_lookup.
        destruct (length M) as [|k] eqn:Hk.
        -- by destruct M.
        -- simpl. rewrite lookup_app_l by lia. done.
      * rewrite length_app. simpl. lia.
  - intros b Hb. rewrite not_elem_of_app, list_elem_of_singleton in Hb.
    destruct Hb as [HbM Hba].
    rewrite H2, H1 by done. rewrite decide_False.
    + rewrite Hframe by done. by destruct (its0 !! b).
    + intros Hl. apply HbM. apply list_elem_of_lookup.
      exists (pred (length M)). by apply Hlast.
Qed.

(** The two writes after the loop turn an open chain into a ring. *)
Lemma close_ring M (its : list menu_item_t) f l :
  NoDup M → chained M its →
  list.head M = Some f → list.last M = Some l →
  ring_of M (alter (set_next (Some f)) l (alter (set_prev (Some l)) f its)).
Proof.
  intros Hnd Hch Hf Hl j x Hj.
  destruct (Hch j x Hj) as (itx & Hx & Hprev & Hnext).
  pose proof (lookup_lt_Some _ _ _ Hj) as Hjlt.
  rewrite head_lookup in Hf. rewrite last_lookup in Hl.
  exists ((if decide (l = x) then set_next (Some f) else id)
            ((if decide (f = x) then set_prev (Some l) else id) itx)).
  split_and!.
  - destruct (decide (l = x)) as [->|Hlx], (decide (f = x)) as [->|Hfx];
      rewrite ?list_lookup_alter_eq, ?list_lookup_alter_ne by done;
      rewrite ?list_lookup_alter_eq, ?list_lookup_alter_ne by done;
      by rewrite Hx.
  - destruct (decide (l = x)) as [->|Hlx].
    + assert (j = pred (length M)) as -> by by eapply NoDup_lookup.
      replace (S (pred (length M))) with (length M) by lia.
      rewrite lookup_app_r, Nat.sub_diag by lia.
      destruct M; simpl in *; [done | by simplify_eq].
    + assert (S j < length M)%nat as Hs.
      { destruct (decide (S j < length M)%nat); [done|]. exfalso. apply Hlx.
        assert (j = pred (length M)) as -> by lia. congruence. }
      rewrite lookup_app_l by done. rewrite <- Hnext by done.
      by destruct (decide (f = x)).
  - rewrite last_lookup, Hl. simpl.
    destruct (decide (f = x)) as [->|Hfx].
    + assert (j = 0)%nat as -> by by eapply NoDup_lookup.
      by destruct (decide (l = x)).
    + destruct j as [|j']; [congruence|]. simpl.
      rewrite <- Hprev. by destruct (decide (l = x)).
Qed.

Lemma with_items_id m : with_items (s_menu_items m) m = m.
Proof. by destruct m. Qed.

Lemma nth_item_lt n a : (a < n)%nat → nth_item n a = Some a.
Proof. intros. unfold nth_item. by rewrite decide_True. Qed.

Lemma nth_item_ge n a : (n ≤ a)%nat → nth_item n a = None.
Proof. intros. unfold nth_item. by rewrite decide_False by lia. Qed.

#[global] Arguments deref : simpl never.
#[global] Arguments assign : simpl never.

Section rechain_loop.
Variables (q : ptr) (n : nat) (its0 : list menu_item_t).
Hypothesis Hlen : (n ≤ length its0)%nat.
Hypothesis Hchain : ∀ a it, (a < n)%nat → its0 !! a = Some it →
                      folowing it = nth_item n (S a).

(** From object [a] on, with enough fuel for the objects left, the loop
    returns at the end of the build-order chain with the invariant. *)
Lemma rechain_loop_spec k :
  ∀ a fuel first pv m,
    (n - a = k)%nat → (a ≤ n)%nat → (k ≤ fuel)%nat →
    released m = [] →
    loop_inv q its0 a first pv (s_menu_items m) →
    ∃ its',
      rechain_loop fuel q first pv (nth_item n a) m =
        Some (list.head (kids q its0 n), list.last (kids q its0 n),
              with_items its' m) ∧
      loop_inv q its0 n (list.head (kids q its0 n))
               (list.last (kids q its0 n)) its'.
Proof using Hlen Hchain.
  induction k as [|k IH]; intros a fuel first pv m Hk Ha Hfuel Hrel Hinv.
  - assert (a = n) as -> by lia. rewrite nth_item_ge by lia.
    exists (s_menu_items m). rewrite with_items_id.
    destruct Hinv as (? & -> & -> & ? & ?).
    split; [by destruct fuel | done].
  - rewrite nth_item_lt by lia. destruct fuel as [|fuel]; [lia|].
    pose proof Hinv as (Her & _).
    assert (Hsame : length (s_menu_items m) = length its0).
    { by rewrite <- (length_fmap erase), Her, length_fmap. }
    destruct (lookup_lt_is_Some_2 (s_menu_items m) a) as [it Hit]; [lia|].
    assert (Hfol : ∀ its, erase <$> its = erase <$> its0 →
              folowing <$> its !! a = Some (nth_item n (S a))).
    { intros its He. rewrite <- erase_folowing, He, erase_folowing.
      destruct (lookup_lt_is_Some_2 its0 a) as [it0 Hit0]; [lia|].
      rewrite Hit0. simpl. f_equal. apply Hchain; [lia | done]. }
    simpl. rewrite deref_live, Hit by done. simpl.
    destruct (decide (parent it = q)) as [Hp|Hp].
    + rewrite bool_decide_eq_true_2 by done.
      pose proof (loop_inv_link q its0 a first pv _ it Hinv Hit Hp) as Hinv'.
      rewrite assign_live by eauto. simpl.
      set (its1 := alter (set_prev pv) a (s_menu_items m)) in *.
      set (its2 := (if pv is Some l then alter (set_next (Some a)) l else id) its1) in *.
      assert (Hm2 : (if pv is None then Some (with_items its1 m)
                     else assign pv (set_next (Some a)) (with_items its1 m))
                    = Some (with_items its2 m)).
      { subst its2. destruct pv as [l|]; [|done].
        rewrite assign_live; [done | done |].
        simpl. apply lookup_lt_is_Some_2. subst its1. rewrite length_alter.
        destruct Hinv as (_ & _ & Hl & _). symmetry in Hl.
        apply last_Some_elem_of, elem_of_kids in Hl. lia. }
      rewrite Hm2. simpl.
      pose proof Hinv' as (Her' & _).
      pose proof (Hfol its2 Her') as Hf2.
      rewrite deref_live by done. simpl.
      destruct (its2 !! a) as [it'|] eqn:Hit'; [|done].
      simpl in Hf2. injection Hf2 as Hf2. simpl. rewrite Hf2.
      destruct (IH (S a) fuel (if first is None then Some a else first) (Some a)
                   (with_items its2 m)) as (its' & Hrun & Hfin);
        [lia | lia | lia | done | done |].
      exists its'. split; [|done].
      destruct first; exact Hrun.
    + rewrite bool_decide_eq_false_2 by done.
      pose proof (Hfol _ Her) as Hf. rewrite Hit in Hf. simpl in Hf.
      injection Hf as ->.
      apply IH; [lia | lia | lia | done |].
      apply loop_inv_skip; [done|].
      rewrite <- erase_parent, <- Her, erase_parent, Hit. simpl. congruence.
Qed.
End rechain_loop.

(** [s_menu_rechain] on a well-linked build-order chain of [n] items: it
    returns, writes only [prev] and [next] of the items whose parent is
    [q], and leaves those items as a closed ring in build order. *)
Lemma s_menu_rechain_spec q n m :
  released m = [] →
  (n ≤ length (s_menu_items m))%nat →
  start (s_menu_handle m) = list.head (seq 0 n) →
  (∀ a it, (a < n)%nat → s_menu_items m !! a = Some it →
           folowing it = nth_item n (S a)) →
  ∃ its',
    s_menu_rechain q m = Some (with_items its' m) ∧
    erase <$> its' = erase <$> s_menu_items m ∧
    ring_of (kids q (s_menu_items m) n) its' ∧
    ∀ b, b ∉ kids q (s_menu_items m) n → its' !! b = s_menu_items m !! b.
Proof.
  intros Hrel Hlen Hstart Hchain.
  assert (Hs : start (s_menu_handle m) = nth_item n 0).
  { rewrite Hstart. unfold nth_item. destruct n; [done|]. by rewrite decide_True by lia. }
  destruct (rechain_loop_spec q n (s_menu_items m) Hlen Hchain n 0
              (length (s_menu_items m)) None None m)
    as (its1 & Hrun & Her & _ & _ & Hch & Hframe); try done; try lia.
  unfold s_menu_rechain. rewrite Hs, Hrun. simpl.
  set (M := kids q (s_menu_items m) n) in *.
  assert (Hlen1 : length its1 = length (s_menu_items m)).
  { by rewrite <- (length_fmap erase), Her, length_fmap. }
  destruct (list.head M) as [f|] eqn:Hf.
  - destruct (list.last M) as [l|] eqn:Hl.
    2:{ apply last_None in Hl. by rewrite Hl in Hf. }
    assert (f < n ∧ l < n)%nat as [Hfn Hln].
    { apply head_Some_elem_of, elem_of_kids in Hf.
      apply last_Some_elem_of, elem_of_kids in Hl. lia. }
    rewrite assign_live; [|done|].
    2:{ simpl. apply lookup_lt_is_Some_2. lia. }
    simpl. rewrite assign_live; [|done|].
    2:{ simpl. apply lookup_lt_is_Some_2. rewrite length_alter. lia. }
    simpl. eexists. split; [done|]. split_and!.
    + by rewrite !erase_alter.
    + apply close_ring; try done. apply NoDup_kids.
    + intros b Hb. rewrite !list_lookup_alter_ne; [by apply Hframe| |].
      * intros ->. by apply Hb, head_Some_elem_of.
      * intros ->. by apply Hb, last_Some_elem_of.
  - apply head_None in Hf. rewrite Hf. simpl.
    exists its1. split_and!; try done.
    intros b _. apply Hframe. rewrite Hf. apply not_elem_of_nil.
Qed.

(** ** Construction *)

Lemma uint8_small z : 0 ≤ z < 256 → uint8 z = z.
Proof. intros H. unfold uint8. by rewrite Z.mod_small by lia. Qed.

(** The store on a state of the construction phase: it fails without a
    trace, or hands out the next object number. *)
Lemma s_create_new_item_spec cfg env m :
  config_ok cfg → build_inv cfg m →
  s_create_new_item cfg env m = (None, m) ∨
  ∃ blank m1,
    s_create_new_item cfg env m = (Some (allocated cfg m), m1) ∧
    released m1 = [] ∧ trace m1 = trace m ∧
    current (s_menu_handle m1) = current (s_menu_handle m) ∧
    start (s_menu_handle m1) = start (s_menu_handle m) ∧
    rotenc (s_menu_handle m1) = rotenc (s_menu_handle m) ∧
    allocated cfg m1 = S (allocated cfg m) ∧
    (S (allocated cfg m) ≤ length (s_menu_items m1))%nat ∧
    s_menu_items m1 !! allocated cfg m = Some blank ∧
    (∀ b, b ≠ allocated cfg m → s_menu_items m1 !! b = s_menu_items m !! b) ∧
    match MENU_USAGE_MEMORY cfg with
    | MENU_USAGE_STATIC_MEMORY =>
        blank = zero_item cfg ∧
        0 ≤ static_array_pos (s_menu_handle m1) ≤ Z.of_nat (MENU_SIZE cfg) ∧
        length (s_menu_items m1) = MENU_SIZE cfg
    | MENU_USAGE_DYNAMIC_MEMORY => env = Some blank
    end.
Proof.
  intros Hok [Hrel Hlen _ _ _ _ Hst].
  unfold s_create_new_item, allocated, config_ok in *.
  destruct (MENU_USAGE_MEMORY cfg) eqn:Hmode.
  - destruct (Hst eq_refl) as (Hpos & Hsize & Hzero). specialize (Hok eq_refl).
    destruct (Z.leb_spec (Z.of_nat (MENU_SIZE cfg)) (static_array_pos (s_menu_handle m)));
      [by left | right].
    exists (zero_item cfg). eexists. split; [done|]. simpl.
    rewrite uint8_small by lia.
    split_and!; try done; try lia.
    apply Hzero. lia.
  - destruct env as [junk|]; [right | by left].
    exists junk. eexists. split; [done|]. simpl.
    split_and!; try done.
    + rewrite length_app. simpl. lia.
    + rewrite length_app. simpl. lia.
    + by rewrite lookup_app_r, Nat.sub_diag by lia.
    + intros b Hb. destruct (decide (b < length (s_menu_items m))%nat).
      * by rewrite lookup_app_l.
      * rewrite !lookup_ge_None_2; [done | lia |]. rewrite length_app. simpl. lia.
Qed.

Lemma seq_last n : list.last (seq 0 (S n)) = Some n.
Proof. by rewrite seq_S, last_snoc. Qed.

Lemma with_items_twice x y m : with_items x (with_items y m) = with_items x m.
Proof. done. Qed.

Lemma kids_ext q (its its' : list menu_item_t) k :
  (∀ b, (b < k)%nat → parent <$> its !! b = parent <$> its' !! b) →
  kids q its k = kids q its' k.
Proof.
  induction k as [|k IH]; intros H; [done|].
  rewrite !kids_S, IH by (intros; apply H; lia).
  by rewrite (H k) by lia.
Qed.

Lemma s_menu_add_item_spec cfg env t p cb fl m :
  config_ok cfg → build_inv cfg m →
  (s_create_new_item cfg env m = (None, m) ∧
   s_menu_add_item cfg env t p cb fl m = Some (None, m)) ∨
  ∃ blank m',
    s_menu_add_item cfg env t p cb fl m = Some (Some (allocated cfg m), m') ∧
    build_inv cfg m' ∧
    allocated cfg m' = S (allocated cfg m) ∧
    trace m' = trace m ∧
    rotenc (s_menu_handle m') = rotenc (s_menu_handle m) ∧
    (∀ q, members cfg q m' =
          members cfg q m ++ (if decide (p = q) then [allocated cfg m] else [])) ∧
    erase <$> s_menu_items m' !! allocated cfg m =
      Some (erase (populate cfg t p cb fl blank)) ∧
    (∀ b, (b < allocated cfg m)%nat →
          set_folowing None ∘ erase <$> s_menu_items m' !! b =
          set_folowing None ∘ erase <$> s_menu_items m !! b) ∧
    match MENU_USAGE_MEMORY cfg with
    | MENU_USAGE_STATIC_MEMORY => blank = zero_item cfg
    | MENU_USAGE_DYNAMIC_MEMORY => env = Some blank
    end.
Proof.
  intros Hok Hinv.
  destruct (s_create_new_item_spec cfg env m Hok Hinv)
    as [Hnone | (blank & m1 & Hc & Hrel1 & Htr1 & Hcur1 & Hst1 & Hro1 & Hal1 & Hlen1 &
                 Hblank & Hold & Hmode)].
  { left. split; [done|]. unfold s_menu_add_item. by rewrite Hnone. }
  right. exists blank.
  destruct Hinv as [Hrel Hlen Hstart Hcur Hchain Hrings Hstatic].
  unfold members in *.
  remember (allocated cfg m) as n eqn:Hn.
  unfold s_menu_add_item. rewrite Hc. cbv iota beta.
  do 6 (rewrite assign_live;
        [ simpl | done
        | simpl; apply lookup_lt_is_Some_2; rewrite ?length_alter; lia ]).
  rewrite !with_items_twice, !list_alter_alter_eq.
  set (its2 := alter _ n (s_menu_items m1)).
  assert (L2n : its2 !! n = Some (populate cfg t p cb fl blank)).
  { subst its2. by rewrite list_lookup_alter_eq, Hblank. }
  assert (L2b : ∀ b, b ≠ n → its2 !! b = s_menu_items m !! b).
  { intros b Hb. subst its2. rewrite list_lookup_alter_ne by done. by apply Hold. }
  assert (Hlen2 : length its2 = length (s_menu_items m1)).
  { subst its2. by rewrite length_alter. }
  set (its3 := (if n is S k then alter (set_folowing (Some n)) k else id) its2).
  assert (Hlen3 : length its3 = length (s_menu_items m1)).
  { subst its3. destruct n; simpl; by rewrite ?length_alter. }
  assert (F1 : (if current (s_menu_handle m1) is None
                then Some (with_items its2 m1)
                else assign (current (s_menu_handle m1)) (set_folowing (Some n))
                       (with_items its2 m1))
               = Some (with_items its3 m1)).
  { rewrite Hcur1, Hcur. subst its3. destruct n as [|k]; [done|].
    rewrite seq_last. rewrite assign_live; [done | done |].
    simpl. apply lookup_lt_is_Some_2. lia. }
  rewrite F1. clear F1. simpl.
  set (m4 := if start (s_menu_handle m1) is None
             then with_handle (set_start (Some n))
                    (with_handle (set_current (Some n)) (with_items its3 m1))
             else with_handle (set_current (Some n)) (with_items its3 m1)).
  assert (M4 : released m4 = [] ∧ s_menu_items m4 = its3 ∧ trace m4 = trace m ∧
               rotenc (s_menu_handle m4) = rotenc (s_menu_handle m) ∧
               current (s_menu_handle m4) = Some n ∧
               start (s_menu_handle m4) = Some 0%nat ∧
               static_array_pos (s_menu_handle m4) = static_array_pos (s_menu_handle m1)).
  { subst m4. rewrite Hst1, Hstart. destruct n; simpl;
      split_and!; try done. by rewrite Hst1, Hstart. }
  destruct M4 as (Hrel4 & Hits4 & Htr4 & Hro4 & Hcur4 & Hst4 & Hpos4).
  assert (L3n : its3 !! n = Some (populate cfg t p cb fl blank)).
  { subst its3. destruct n as [|k]; [done|]. by rewrite list_lookup_alter_ne by lia. }
  assert (L3b : ∀ b, (b < n)%nat →
            its3 !! b = (if decide (S b = n) then set_folowing (Some n) else id)
                          <$> s_menu_items m !! b).
  { intros b Hb. subst its3. destruct n as [|k]; [lia|].
    destruct (decide (S b = S k)) as [[= ->]|Hne].
    - rewrite list_lookup_alter_eq, L2b by lia. done.
    - rewrite list_lookup_alter_ne, L2b by lia. by destruct (_ !! b). }
  assert (L3ge : ∀ b, (n < b)%nat → its3 !! b = s_menu_items m !! b).
  { intros b Hb. subst its3. destruct n as [|k]; simpl; [by apply L2b; lia|].
    rewrite list_lookup_alter_ne, L2b by lia. done. }
  assert (Hal4 : allocated cfg m4 = S n).
  { rewrite <- Hal1. unfold allocated. rewrite Hpos4, Hits4, Hlen3. done. }
  destruct (s_menu_rechain_spec p (S n) m4) as (its' & Hrun & Her & Hring & Hframe).
  { done. }
  { rewrite Hits4, Hlen3. lia. }
  { done. }
  { rewrite Hits4. intros a it Ha Hit.
    destruct (decide (a = n)) as [->|Hne].
    - rewrite L3n in Hit. injection Hit as <-. by rewrite nth_item_ge.
    - rewrite L3b in Hit by lia.
      destruct (s_menu_items m !! a) as [it0|] eqn:Hit0; [|done].
      pose proof (Hchain a it0 ltac:(lia) Hit0) as Hf.
      simpl in Hit. injection Hit as <-.
      destruct (decide (S a = n)) as [<-|Hne'].
      + simpl. by rewrite nth_item_lt by lia.
      + simpl. rewrite Hf, !nth_item_lt by lia. done. }
  rewrite Hits4 in *.
  fold m4. rewrite Hrun. simpl. eexists. split; [done|].
  assert (Hlen' : length its' = length its3).
  { by rewrite <- (length_fmap erase), Her, length_fmap. }
  assert (Hal' : allocated cfg (with_items its' m4) = S n).
  { rewrite <- Hal4. unfold allocated. simpl. by rewrite Hlen', Hits4. }
  assert (Hpar3 : ∀ b, (b < n)%nat → parent <$> its3 !! b = parent <$> s_menu_items m !! b).
  { intros b Hb. rewrite L3b by done. destruct (_ !! b); [|done].
    simpl. by destruct (decide _). }
  assert (Hkids : ∀ q, kids q its' (S n) =
            kids q (s_menu_items m) n ++ (if decide (p = q) then [n] else [])).
  { intros q. rewrite (kids_erase q its' its3) by done.
    rewrite kids_S, (kids_ext q its3 (s_menu_items m) n) by done.
    f_equal. rewrite L3n. simpl.
    destruct (decide (p = q)) as [->|Hne]; [by rewrite decide_True|].
    rewrite decide_False; [done | congruence]. }
  assert (Hfol' : ∀ b, folowing <$> its' !! b = folowing <$> its3 !! b).
  { intros b. by rewrite <- erase_folowing, Her, erase_folowing. }
  split_and!.
  - split; simpl; rewrite ?Hal'.
    + done.
    + rewrite Hlen', Hlen3. lia.
    + by rewrite Hst4.
    + by rewrite Hcur4, seq_last.
    + intros a it Ha Hit.
      assert (Hf : folowing <$> its' !! a = Some (folowing it)) by by rewrite Hit.
      rewrite Hfol' in Hf.
      destruct (decide (a = n)) as [->|Hne].
      * rewrite L3n in Hf. simpl in Hf. injection Hf as <-. by rewrite nth_item_ge.
      * rewrite L3b in Hf by lia.
        destruct (s_menu_items m !! a) as [it0|] eqn:Hit0; [|done].
        pose proof (Hchain a it0 ltac:(lia) Hit0) as Hf0.
        simpl in Hf. injection Hf as <-.
        destruct (decide (S a = n)) as [<-|Hne'].
        -- simpl. by rewrite nth_item_lt by lia.
        -- simpl. rewrite Hf0, !nth_item_lt by lia. done.
    + intros q. unfold members. simpl. rewrite Hal'.
      destruct (decide (p = q)) as [<-|Hne].
      * by rewrite (kids_erase p its' its3).
      * rewrite Hkids, decide_False, app_nil_r by done.
        intros j x Hj.
        destruct (Hrings q j x Hj) as (it0 & Hx0 & Hnx & Hpv).
        pose proof (kids_lookup_lt _ _ _ _ _ Hj) as Hxn.
        assert (Hx3 : its3 !! x = (if decide (S x = n) then set_folowing (Some n) else id)
                                    <$> Some it0).
        { by rewrite L3b, Hx0. }
        rewrite Hframe.
        2:{ rewrite elem_of_kids, Hpar3, Hx0 by done. simpl.
            apply list_elem_of_lookup_2, elem_of_kids in Hj as [_ Hq].
            rewrite Hx0 in Hq. simpl in Hq. intros [_ ?]. congruence. }
        rewrite Hx3. simpl. eexists. split; [done|].
        by destruct (decide (S x = n)).
    + intros Hm. rewrite Hm in Hmode. destruct Hmode as (_ & Hp1 & Hl1).
      rewrite Hpos4. split; [done|]. split; [by rewrite Hlen', Hlen3|].
      intros a Ha. rewrite Hframe, L3ge by (rewrite ?elem_of_kids; lia).
      destruct (Hstatic Hm) as (_ & _ & Hz). apply Hz. lia.
  - done.
  - done.
  - done.
  - intros q. unfold members. simpl. rewrite Hal'. apply Hkids.
  - simpl. rewrite <- list_lookup_fmap, Her, list_lookup_fmap, L3n. done.
  - intros b Hb. simpl.
    transitivity (set_folowing None <$> (erase <$> its') !! b).
    { rewrite list_lookup_fmap. by destruct (its' !! b). }
    rewrite Her, list_lookup_fmap, L3b by done.
    destruct (s_menu_items m !! b); [|done]. simpl. by destruct (decide _).
  - destruct (MENU_USAGE_MEMORY cfg); tauto.
Qed.

Lemma build_inv_power_on cfg : build_inv cfg (power_on cfg).
Proof.
  assert (Hal : allocated cfg (power_on cfg) = 0%nat).
  { unfold allocated, power_on. simpl. by destruct (MENU_USAGE_MEMORY cfg). }
  split; rewrite ?Hal; try done.
  - lia.
  - intros a it Ha. lia.
  - intros q. unfold members. by rewrite Hal.
  - intros Hm. unfold power_on. simpl. rewrite Hm.
    split; [lia|]. split; [by rewrite length_replicate|].
    intros a Ha. apply lookup_replicate_2. lia.
Qed.

(** An assignment to an item handed out that leaves its four links alone
    keeps the construction invariant. *)
Lemma build_inv_alter cfg m a f :
  (∀ it, prev (f it) = prev it ∧ next (f it) = next it ∧
         folowing (f it) = folowing it ∧ parent (f it) = parent it) →
  (a < allocated cfg m)%nat →
  build_inv cfg m →
  build_inv cfg (with_items (alter f a (s_menu_items m)) m) ∧
  allocated cfg (with_items (alter f a (s_menu_items m)) m) = allocated cfg m ∧
  ∀ q, members cfg q (with_items (alter f a (s_menu_items m)) m) = members cfg q m.
Proof.
  intros Hf Ha [Hrel Hlen Hstart Hcur Hchain Hrings Hstatic].
  set (m' := with_items _ m).
  assert (Hal : allocated cfg m' = allocated cfg m).
  { unfold allocated. simpl. by rewrite length_alter. }
  assert (Hlk : ∀ b, s_menu_items m' !! b =
                     (if decide (a = b) then f else id) <$> s_menu_items m !! b).
  { intros b. simpl. rewrite list_lookup_alter.
    destruct (decide (a = b)) as [->|]; [done|]. by destruct (_ !! b). }
  assert (Hmem : ∀ q, members cfg q m' = members cfg q m).
  { intros q. unfold members. rewrite Hal. apply kids_ext. intros b _.
    rewrite Hlk. destruct (_ !! b); [|done]. simpl.
    destruct (decide (a = b)); [|done]. f_equal. apply Hf. }
  split; [|done]. split; rewrite ?Hal; try done.
  - simpl. by rewrite length_alter.
  - intros b it Hb Hit. rewrite Hlk in Hit.
    destruct (s_menu_items m !! b) as [it0|] eqn:Hit0; [|done].
    simpl in Hit. injection Hit as <-.
    rewrite <- (Hchain b it0 Hb Hit0). destruct (decide (a = b)); [apply Hf | done].
  - intros q. rewrite Hmem. intros j x Hj.
    destruct (Hrings q j x Hj) as (it0 & Hx & Hn & Hp).
    rewrite Hlk, Hx. simpl. eexists. split; [done|].
    destruct (decide (a = x)); [|done].
    destruct (Hf it0) as (-> & -> & _). done.
  - intros Hm. destruct (Hstatic Hm) as (? & ? & Hz).
    split; [done|]. split; [simpl; by rewrite length_alter|].
    intros b Hb. rewrite Hlk, decide_False by lia.
    rewrite Hz by done. done.
Qed.

Lemma s_menu_set_child_spec cfg m a c :
  (a < allocated cfg m)%nat → build_inv cfg m →
  ∃ m', s_menu_set_child (Some a) c m = Some m' ∧
        build_inv cfg m' ∧ allocated cfg m' = allocated cfg m ∧
        (∀ q, members cfg q m' = members cfg q m) ∧
        s_menu_handle m' = s_menu_handle m ∧ trace m' = trace m ∧
        s_menu_items m' =
          alter (λ it, set_flags (Z.lor (flags (set_child c it)) MENU_FLAG_GOTO_CHILD)
                         (set_child c it)) a (s_menu_items m).
Proof.
  intros Ha Hinv. pose proof Hinv as [Hrel Hlen _ _ _ _ _].
  destruct (lookup_lt_is_Some_2 (s_menu_items m) a) as [it Hit]; [lia|].
  unfold s_menu_set_child.
  rewrite assign_live by eauto. simpl.
  rewrite deref_live by done. simpl. rewrite list_lookup_alter_eq, Hit. simpl.
  rewrite assign_live; [|done|].
  2:{ simpl. rewrite list_lookup_alter_eq, Hit. eauto. }
  simpl. rewrite with_items_twice, list_alter_alter_eq.
  set (f := λ it0, set_flags (Z.lor (flags (set_child c it0)) MENU_FLAG_GOTO_CHILD)
                     (set_child c it0)).
  assert (Hsame : alter (set_flags (Z.lor (flags it) MENU_FLAG_GOTO_CHILD) ∘ set_child c)
                        a (s_menu_items m) = alter f a (s_menu_items m)).
  { apply list_eq. intros b. rewrite !list_lookup_alter.
    destruct (decide (a = b)); [|done]. by rewrite Hit. }
  rewrite Hsame. eexists. split; [done|].
  destruct (build_inv_alter cfg m a f) as (? & ? & ?); [done | done | done |].
  by split_and!.
Qed.

Lemma run_op_inv cfg op m m' :
  config_ok cfg → build_inv cfg m → run_op cfg op m = Some m' → build_inv cfg m'.
Proof.
  intros Hok Hinv Hrun. destruct op as [env t p cb fl | a c]; unfold run_op in Hrun.
  - destruct (s_menu_add_item_spec cfg env t p cb fl m Hok Hinv)
      as [[_ Hr] | (blank & m2 & Hr & Hinv2 & _)];
      rewrite Hr in Hrun; simpl in Hrun; by simplify_eq.
  - case_bool_decide as Hac; [|done]. destruct Hac as [Ha _].
    destruct (s_menu_set_child_spec cfg m a (Some c) Ha Hinv) as (m2 & Hr & ? & _).
    rewrite Hr in Hrun. by simplify_eq.
Qed.

Lemma construct_inv cfg ops : ∀ m m',
  config_ok cfg → build_inv cfg m → construct cfg ops m = Some m' → build_inv cfg m'.
Proof.
  induction ops as [|op ops IH]; intros m m' Hok Hinv Hrun; simpl in Hrun.
  - by simplify_eq.
  - destruct (run_op cfg op m) as [m1|] eqn:Hop; [|done]. simpl in Hrun.
    eapply IH; [done | | done]. by eapply run_op_inv.
Qed.

Lemma built_inv cfg m : config_ok cfg → built cfg m → build_inv cfg m.
Proof.
  intros Hok [ops Hrun].
  eapply construct_inv; [done | apply build_inv_power_on | done].
Qed.

Lemma Menu_Init_ops_run :
  construct menu_h Menu_Init_ops (power_on menu_h) =
  Menu_Init_items menu_h (λ _, Some stale_block) (power_on menu_h).
Proof. vm_compute. reflexivity. Qed.

(** ** Rings *)

Lemma ring_of_next M (its : list menu_item_t) j x :
  ring_of M its → M !! j = Some x →
  ∃ it y ity, its !! x = Some it ∧ next it = Some y ∧ y ∈ M ∧
              its !! y = Some ity ∧ prev ity = Some x.
Proof.
  intros Hr Hj. destruct (Hr j x Hj) as (it & Hx & Hn & _).
  pose proof (lookup_lt_Some _ _ _ Hj) as Hlt.
  destruct (decide (S j < length M)%nat) as [Hs|Hs].
  - destruct (lookup_lt_is_Some_2 M (S j) Hs) as [y Hy].
    destruct (Hr (S j) y Hy) as (ity & Hiy & _ & Hp).
    exists it, y, ity. split_and!; try done.
    + by rewrite Hn, lookup_app_l.
    + by eapply list_elem_of_lookup_2.
    + rewrite Hp. destruct (list.last M) eqn:Hl; [done|].
      apply last_None in Hl. by subst.
  - destruct M as [|f M'] eqn:HM; [done|]. rewrite <- HM in *.
    assert (H0 : M !! 0%nat = Some f) by by subst.
    destruct (Hr 0%nat f H0) as (itf & Hif & _ & Hp).
    exists it, f, itf. split_and!; try done.
    + rewrite Hn, lookup_app_r by lia.
      replace (S j - length M)%nat with 0%nat by lia. by subst.
    + by eapply list_elem_of_lookup_2.
    + rewrite Hp, last_lookup.
      assert (pred (length M) = j) as -> by lia. rewrite Hj. done.
Qed.

Lemma ring_of_prev M (its : list menu_item_t) j x :
  ring_of M its → M !! j = Some x →
  ∃ it z itz, its !! x = Some it ∧ prev it = Some z ∧ z ∈ M ∧
              its !! z = Some itz ∧ next itz = Some x.
Proof.
  intros Hr Hj. destruct (Hr j x Hj) as (it & Hx & _ & Hp).
  pose proof (lookup_lt_Some _ _ _ Hj) as Hlt.
  destruct (list.last M) as [l|] eqn:Hl.
  2:{ apply last_None in Hl. by subst. }
  simpl in Hp. rewrite last_lookup in Hl.
  destruct j as [|j'].
  - destruct (Hr _ l Hl) as (itl & Hil & Hn & _).
    exists it, l, itl. split_and!; try done.
    + by eapply list_elem_of_lookup_2.
    + rewrite Hn, lookup_app_r by lia.
      replace (S (pred (length M)) - length M)%nat with 0%nat by lia.
      destruct M; [done|]. simpl in *. by simplify_eq.
  - simpl in Hp.
    destruct (lookup_lt_is_Some_2 M j') as [z Hz]; [lia|].
    destruct (Hr j' z Hz) as (itz & Hiz & Hn & _).
    exists it, z, itz. split_and!; try done.
    + by rewrite Hp.
    + by eapply list_elem_of_lookup_2.
    + by rewrite Hn, lookup_app_l.
Qed.

Lemma build_inv_ring_closed cfg m : build_inv cfg m → ring_closed cfg m.
Proof.
  intros [_ _ _ _ _ Hrings _] x it Hx Hit.
  assert (Hmem : x ∈ members cfg (parent it) m).
  { apply elem_of_kids. split; [done|]. by rewrite Hit. }
  apply list_elem_of_lookup in Hmem as [j Hj].
  destruct (ring_of_next _ _ j x (Hrings _) Hj) as (it1 & y & ity & H1 & Hn & Hy & Hiy & Hpy).
  destruct (ring_of_prev _ _ j x (Hrings _) Hj) as (it2 & z & itz & H2 & Hp & Hz & Hiz & Hnz).
  simplify_eq. exists y, z, ity, itz. split_and!; try done.
  intros Hone. rewrite Hone in Hy, Hz.
  apply list_elem_of_singleton in Hy, Hz. done.
Qed.

(** C1: after every successful [s_menu_add_item] of the
    construction phase every item has a [next] and a [prev] among the
    items of its own parent, [next->prev] and [prev->next] are the item
    itself, and an only child is its own [next] and [prev]. *)
Theorem ring_closure cfg env t p cb fl m a m' :
  config_ok cfg → built cfg m →
  s_menu_add_item cfg env t p cb fl m = Some (Some a, m') →
  ring_closed cfg m'.
Proof.
  intros Hok Hb Hadd. apply build_inv_ring_closed.
  apply (run_op_inv cfg (add_item env t p cb fl) m m' Hok); [by apply built_inv|].
  unfold run_op. by rewrite Hadd.
Qed.

Lemma menu_h_ok : config_ok menu_h.
Proof. intros H. vm_compute in H. discriminate. Qed.

Lemma menu_after_built k : (k ≤ length Menu_Init_ops)%nat → built menu_h (menu_after k).
Proof.
  intros Hk. exists (take k Menu_Init_ops). unfold menu_after.
  do 23 (destruct k as [|k]; [vm_compute; reflexivity|]).
  vm_compute in Hk. lia.
Qed.

(** The seventh item of [Menu_Init], "Hi Arm", joins the ring under
    "Options". *)
Lemma ring_closure_witness :
  ∃ m', s_menu_add_item menu_h (Some stale_block) (c_string "Hi Arm")
          (Some 2%nat) None 0 (menu_after 6) = Some (Some 6%nat, m') ∧
        ring_closed menu_h m'.
Proof.
  eexists. split; [vm_compute; reflexivity|].
  eapply (ring_closure menu_h (Some stale_block) (c_string "Hi Arm")
            (Some 2%nat) None 0 (menu_after 6)).
  - exact menu_h_ok.
  - apply menu_after_built. vm_compute. lia.
  - vm_compute. reflexivity.
Defined.

(** ** Creation order *)

Lemma add_item_success cfg env t p cb fl m a m' :
  config_ok cfg → build_inv cfg m →
  s_menu_add_item cfg env t p cb fl m = Some (Some a, m') →
  a = allocated cfg m ∧ build_inv cfg m' ∧
  ∀ q, members cfg q m' = members cfg q m ++ (if decide (p = q) then [a] else []).
Proof.
  intros Hok Hinv Hadd.
  destruct (s_menu_add_item_spec cfg env t p cb fl m Hok Hinv)
    as [[_ Hr] | (blank & m2 & Hr & Hinv2 & _ & _ & _ & Hmem & _)];
    rewrite Hr in Hadd; simplify_eq. done.
Qed.

Lemma run_op_members cfg P op m m' :
  config_ok cfg → build_inv cfg m → ¬ under P op →
  run_op cfg op m = Some m' → members cfg P m' = members cfg P m.
Proof.
  intros Hok Hinv Hop Hrun. destruct op as [env t p cb fl | a c]; unfold run_op in Hrun.
  - simpl in Hop.
    destruct (s_menu_add_item_spec cfg env t p cb fl m Hok Hinv)
      as [[_ Hr] | (blank & m2 & Hr & _ & _ & _ & _ & Hmem & _)];
      rewrite Hr in Hrun; simpl in Hrun; simplify_eq; [done|].
    rewrite Hmem. rewrite decide_False by done. by rewrite app_nil_r.
  - case_bool_decide as Hac; [|done]. destruct Hac as [Ha _].
    destruct (s_menu_set_child_spec cfg m a (Some c) Ha Hinv) as (m2 & Hr & _ & _ & Hmem & _).
    rewrite Hr in Hrun. simplify_eq. apply Hmem.
Qed.

Lemma construct_members cfg P ops : ∀ m m',
  config_ok cfg → build_inv cfg m → Forall (λ op, ¬ under P op) ops →
  construct cfg ops m = Some m' →
  build_inv cfg m' ∧ members cfg P m' = members cfg P m.
Proof.
  induction ops as [|op ops IH]; intros m m' Hok Hinv Hops Hrun; simpl in Hrun.
  - by simplify_eq.
  - destruct (run_op cfg op m) as [m1|] eqn:Hop; [|done]. simpl in Hrun.
    apply Forall_cons_1 in Hops as [Hop1 Hops].
    destruct (IH m1 m' Hok) as [? Hm]; [by eapply run_op_inv | done | done |].
    split; [done|]. rewrite Hm. by eapply run_op_members.
Qed.

(** C2: three items added in the order A, B, C under a parent
    that has no other item (other construction steps may come between
    and after them) form the ring A, B, C forward and A, C, B backward. *)
Theorem ring_is_creation_order cfg P m0
    envA tA cbA flA a m1 ops1 m2
    envB tB cbB flB b m3 ops2 m4
    envC tC cbC flC c m5 ops3 m6 :
  config_ok cfg → built cfg m0 → members cfg P m0 = [] →
  s_menu_add_item cfg envA tA P cbA flA m0 = Some (Some a, m1) →
  Forall (λ op, ¬ under P op) ops1 → construct cfg ops1 m1 = Some m2 →
  s_menu_add_item cfg envB tB P cbB flB m2 = Some (Some b, m3) →
  Forall (λ op, ¬ under P op) ops2 → construct cfg ops2 m3 = Some m4 →
  s_menu_add_item cfg envC tC P cbC flC m4 = Some (Some c, m5) →
  Forall (λ op, ¬ under P op) ops3 → construct cfg ops3 m5 = Some m6 →
  ∃ itA itB itC,
    s_menu_items m6 !! a = Some itA ∧
    s_menu_items m6 !! b = Some itB ∧
    s_menu_items m6 !! c = Some itC ∧
    next itA = Some b ∧ next itB = Some c ∧ next itC = Some a ∧
    prev itA = Some c ∧ prev itC = Some b ∧ prev itB = Some a.
Proof.
  intros Hok Hb H0 HA Ho1 Hr1 HB Ho2 Hr2 HC Ho3 Hr3.
  pose proof (built_inv cfg m0 Hok Hb) as I0.
  destruct (add_item_success _ _ _ _ _ _ _ _ _ Hok I0 HA) as (_ & I1 & M1).
  destruct (construct_members cfg P ops1 m1 m2 Hok I1 Ho1 Hr1) as (I2 & M2).
  destruct (add_item_success _ _ _ _ _ _ _ _ _ Hok I2 HB) as (_ & I3 & M3).
  destruct (construct_members cfg P ops2 m3 m4 Hok I3 Ho2 Hr2) as (I4 & M4).
  destruct (add_item_success _ _ _ _ _ _ _ _ _ Hok I4 HC) as (_ & I5 & M5).
  destruct (construct_members cfg P ops3 m5 m6 Hok I5 Ho3 Hr3) as (I6 & M6).
  assert (HM : members cfg P m6 = [a; b; c]).
  { rewrite M6, M5, M4, M3, M2, M1, H0, !decide_True by done. done. }
  pose proof (inv_rings cfg m6 I6 P) as Hring. rewrite HM in Hring.
  destruct (Hring 0%nat a eq_refl) as (itA & HiA & HnA & HpA).
  destruct (Hring 1%nat b eq_refl) as (itB & HiB & HnB & HpB).
  destruct (Hring 2%nat c eq_refl) as (itC & HiC & HnC & HpC).
  exists itA, itB, itC. by split_and!.
Qed.

(** The ring under "PWM" (item 4) of [Menu_Init]: "Back", "Enable",
    "Frequency" are items 7, 8, 9; [set_child] and the rings of "Lo Arm"
    and "Hi Arm" follow. *)
Lemma ring_is_creation_order_witness :
  ∃ m6 itA itB itC,
    construct menu_h Menu_Init_ops (power_on menu_h) = Some m6 ∧
    s_menu_items m6 !! 7%nat = Some itA ∧
    s_menu_items m6 !! 8%nat = Some itB ∧
    s_menu_items m6 !! 9%nat = Some itC ∧
    next itA = Some 8%nat ∧ next itB = Some 9%nat ∧ next itC = Some 7%nat ∧
    prev itA = Some 9%nat ∧ prev itC = Some 8%nat ∧ prev itB = Some 7%nat.
Proof.
  exists (menu_after 22).
  destruct (ring_is_creation_order menu_h (Some 4%nat) (menu_after 8)
              (Some stale_block) (c_string "Back") None MENU_FLAG_GOTO_PARENT
              7%nat (menu_after 9) [] (menu_after 9)
              (Some stale_block) (c_string "Enable") None 0
              8%nat (menu_after 10) [] (menu_after 10)
              (Some stale_block) (c_string "Frequency") None 0
              9%nat (menu_after 11) (drop 11 Menu_Init_ops) (menu_after 22))
    as (itA & itB & itC & H).
  - exact menu_h_ok.
  - apply menu_after_built. vm_compute. lia.
  - vm_compute. reflexivity.
  - vm_compute. reflexivity.
  - constructor.
  - reflexivity.
  - vm_compute. reflexivity.
  - constructor.
  - reflexivity.
  - vm_compute. reflexivity.
  - repeat constructor; simpl; congruence.
  - vm_compute. reflexivity.
  - exists itA, itB, itC. split; [vm_compute; reflexivity | exact H].
Defined.

(** ** Exhaustion *)

(** C7: when the store has nothing to hand out,
    [s_menu_add_item] returns [NULL] and the whole state (every item, the
    handle with [start], [current] and the cursor, the trace) is the one
    before the call. *)
Theorem add_item_exhausted cfg env t p cb fl m :
  allocation_fails cfg env m →
  s_menu_add_item cfg env t p cb fl m = Some (None, m).
Proof.
  unfold allocation_fails, s_menu_add_item, s_create_new_item.
  destruct (MENU_USAGE_MEMORY cfg).
  - intros H. by rewrite (proj2 (Z.leb_le _ _) H).
  - by intros ->.
Qed.

(** In a built static state the store is used up exactly when
    [MENU_SIZE] items have been handed out. *)
Lemma exhausted_when_full cfg env m :
  MENU_USAGE_MEMORY cfg = MENU_USAGE_STATIC_MEMORY → built cfg m → config_ok cfg →
  allocation_fails cfg env m ↔ allocated cfg m = MENU_SIZE cfg.
Proof.
  intros Hm Hb Hok. destruct (built_inv cfg m Hok Hb) as [_ _ _ _ _ _ Hst].
  destruct (Hst Hm) as (Hpos & _).
  unfold allocation_fails, allocated. rewrite Hm. lia.
Qed.

(** With two slots the first two additions succeed and form the ring
    0, 1; the third fails and returns the state untouched.  In the
    dynamic build a [NULL] from [malloc] does the same. *)
Lemma add_item_exhausted_witness :
  (allocated two_slots two_items = 2%nat ∧
   next <$> s_menu_items two_items = [Some 1%nat; Some 0%nat] ∧
   s_menu_add_item two_slots None (c_string "Test") None None 0 two_items
     = Some (None, two_items)) ∧
  s_menu_add_item menu_h None (c_string "Test") None None 0 menu_at_start
    = Some (None, menu_at_start).
Proof.
  split; [split; [reflexivity | split; [reflexivity|]]|].
  - apply (add_item_exhausted two_slots). vm_compute. discriminate.
  - apply (add_item_exhausted menu_h). reflexivity.
Defined.

(** ** Titles *)

Lemma strncpy_length src n : length (strncpy src n) = n.
Proof.
  revert src. induction n as [|n IH]; intros src; [done|]. simpl.
  destruct src as [|c rest]; [|destruct (Byte.eqb c x00)]; simpl; by rewrite IH.
Qed.

Lemma strncpy_nil n : strncpy [] n = replicate n x00.
Proof. induction n as [|n IH]; [done|]. simpl. by rewrite IH. Qed.

Lemma byte_eqb_ne (c : byte) : c ≠ x00 → Byte.eqb c x00 = false.
Proof.
  intros Hc. destruct (Byte.eqb c x00) eqn:E; [|done].
  apply Byte.byte_dec_bl in E. done.
Qed.

(** A title that fits: it is stored whole and zero-padded, so terminated. *)
Lemma strncpy_short src n :
  Forall (λ c, c ≠ x00) src → (length src < n)%nat →
  strncpy src n = src ++ replicate (n - length src) x00.
Proof.
  revert n. induction src as [|c rest IH]; intros n Hnz Hlen.
  - simpl. by rewrite strncpy_nil, Nat.sub_0_r.
  - apply Forall_cons_1 in Hnz as [Hc Hrest].
    destruct n as [|n]; simpl in *; [lia|].
    rewrite byte_eqb_ne by done. f_equal. apply IH; [done | lia].
Qed.

(** A title that does not fit: the first [n] characters are stored and
    no terminator. *)
Lemma strncpy_long src n :
  Forall (λ c, c ≠ x00) (take n src) → (n ≤ length src)%nat →
  strncpy src n = take n src ∧ x00 ∉ strncpy src n.
Proof.
  revert src. induction n as [|n IH]; intros src Hnz Hlen.
  - split; [done | apply not_elem_of_nil].
  - destruct src as [|c rest]; simpl in *; [lia|].
    apply Forall_cons_1 in Hnz as [Hc Hrest].
    rewrite byte_eqb_ne by done.
    destruct (IH rest Hrest) as [Heq Hno]; [lia|].
    split; [by rewrite Heq|]. rewrite not_elem_of_cons. split; [congruence | done].
Qed.

(** C8, at the failing input: a title of sixteen characters
    is stored in the sixteen bytes of the field with no zero byte among
    them. *)
Theorem long_title_unterminated :
  ∃ a m' it,
    s_menu_add_item menu_h (Some stale_block) sixteen_chars None None 0
                    (power_on menu_h) = Some (Some a, m') ∧
    s_menu_items m' !! a = Some it ∧
    length (title it) = MENU_ITEM_TITLE_LEN menu_h ∧
    title it = sixteen_chars ∧
    x00 ∉ title it.
Proof.
  eexists _, _, _. split; [vm_compute; reflexivity|].
  split; [reflexivity|]. split; [reflexivity|]. split; [reflexivity|].
  rewrite list_elem_of_In. simpl. intuition discriminate.
Qed.

(** What a successful [s_menu_add_item] stores in the new item. *)
Lemma add_item_fields cfg env t p cb fl m a m' :
  config_ok cfg → built cfg m →
  s_menu_add_item cfg env t p cb fl m = Some (Some a, m') →
  ∃ it, s_menu_items m' !! a = Some it ∧
        title it = strncpy t (MENU_ITEM_TITLE_LEN cfg) ∧
        length (title it) = MENU_ITEM_TITLE_LEN cfg ∧
        parent it = p ∧ child it = None ∧ flags it = uint8 fl ∧ callback it = cb ∧
        folowing it = None.
Proof.
  intros Hok Hb Hadd. pose proof (built_inv cfg m Hok Hb) as Hinv.
  destruct (s_menu_add_item_spec cfg env t p cb fl m Hok Hinv)
    as [[_ Hr] | (blank & m2 & Hr & _ & _ & _ & _ & _ & Hnew & _)];
    rewrite Hr in Hadd; simplify_eq.
  destruct (s_menu_items m' !! allocated cfg m) as [it|]; [|done].
  simpl in Hnew. injection Hnew as Ht Hfo Hpa Hch Hcb Hda Hfl.
  exists it. rewrite Ht, strncpy_length. by split_and!.
Qed.

(** ** Teardown *)

Lemma free_loop_spec n k :
  ∀ a fuel m,
    (n - S a = k)%nat → (S a ≤ n)%nat → (k ≤ fuel)%nat →
    (n ≤ length (s_menu_items m))%nat →
    (∀ b it, (b < n)%nat → s_menu_items m !! b = Some it →
             folowing it = nth_item n (S b)) →
    released m = seq 0 a →
    ∃ m', free_loop fuel (Some a) m = Some m' ∧
          released m' = seq 0 (n - 1) ∧
          s_menu_items m' = s_menu_items m ∧
          s_menu_handle m' = s_menu_handle m ∧ trace m' = trace m.
Proof.
  induction k as [|k IH]; intros a fuel m Hk Ha Hfuel Hlen Hchain Hrel.
  - assert (Hd : ∃ it, deref m (Some a) = Some it ∧ folowing it = None).
    { destruct (lookup_lt_is_Some_2 (s_menu_items m) a) as [it Hit]; [lia|].
      exists it. split.
      - unfold deref. simpl. rewrite bool_decide_eq_false_2; [done|].
        rewrite Hrel, elem_of_seq. lia.
      - rewrite (Hchain a it) by (done || lia). apply nth_item_ge. lia. }
    destruct Hd as (it & Hd & Hf).
    exists m. replace (n - 1)%nat with a by lia.
    split; [|done]. destruct fuel; simpl; rewrite Hd; simpl; by rewrite Hf.
  - destruct fuel as [|fuel]; [lia|].
    destruct (lookup_lt_is_Some_2 (s_menu_items m) a) as [it Hit]; [lia|].
    assert (Hd : deref m (Some a) = Some it).
    { unfold deref. simpl. rewrite bool_decide_eq_false_2; [done|].
      rewrite Hrel, elem_of_seq. lia. }
    assert (Hf : folowing it = Some (S a)).
    { rewrite (Hchain a it) by (done || lia). apply nth_item_lt. lia. }
    destruct (IH (S a) fuel (with_released a m)) as (m' & Hrun & ?);
      try done; try lia.
    { change (released m ++ [a] = seq 0 (S a)). by rewrite Hrel, seq_S. }
    exists m'. split; [|done].
    simpl. rewrite Hd. simpl. rewrite Hf. unfold free. simpl. rewrite ?Hd. simpl.
    exact Hrun.
Qed.

(** On a built menu of [n ≥ 1] items the teardown returns having released
    the items 0, ..., n - 2, each once and in build order; item n - 1,
    the last of the chain, is not released. *)
Lemma s_menu_free_items_spec cfg m :
  config_ok cfg → built cfg m → (1 ≤ allocated cfg m)%nat →
  ∃ m', s_menu_free_items m = Some m' ∧
        released m' = seq 0 (allocated cfg m - 1) ∧
        NoDup (released m') ∧
        (allocated cfg m - 1)%nat ∉ released m'.
Proof.
  intros Hok Hb Hn. destruct (built_inv cfg m Hok Hb) as [Hrel Hlen Hstart _ Hchain _ _].
  destruct (free_loop_spec (allocated cfg m) (allocated cfg m - 1) 0
              (length (s_menu_items m)) m) as (m' & Hrun & Hr & _);
    try done; try lia.
  exists m'. unfold s_menu_free_items. rewrite Hstart.
  destruct (allocated cfg m) as [|n]; [lia|]. simpl in *.
  split; [done|]. rewrite Hr. split; [done|]. split; [apply NoDup_seq|].
  rewrite elem_of_seq. lia.
Qed.

(** C9, at the failing input: on the menu of [Menu_Init]
    (eighteen items, dynamic build) the teardown releases the items
    0 to 16 and returns; item 17, the last of the build-order chain, is
    never released. *)
Theorem teardown_leaves_last_item :
  ∃ m m',
    Menu_Init_items menu_h (λ _, Some stale_block) (power_on menu_h) = Some m ∧
    allocated menu_h m = 18%nat ∧
    s_menu_free_items m = Some m' ∧
    released m' = seq 0 17 ∧
    17%nat ∉ released m'.
Proof.
  eexists _, _. split; [vm_compute; reflexivity|].
  split; [reflexivity|]. split; [vm_compute; reflexivity|].
  split; [reflexivity|].
  rewrite list_elem_of_In. simpl. intuition discriminate.
Qed.

(** ** The state of a fresh item *)

(** C10, at the failing input: in the build the header selects the store
    does not hand out zeroed objects.  The first block [malloc] delivers
    is handed out with its stale content; the static branch of the same
    function hands out all-zero slots ([fresh_item_state]). *)
Lemma dynamic_item_not_zeroed : ¬ hands_out_zeroed menu_h.
Proof.
  intros H.
  specialize (H (Some stale_block) (power_on menu_h) 0%nat
                (with_items [stale_block] (power_on menu_h))).
  assert (Hb : built menu_h (power_on menu_h)) by (by exists []).
  specialize (H Hb eq_refl). vm_compute in H. discriminate.
Qed.

(** What [s_create_new_item] hands out, by build: in the static build
    every object is all-zero, in the dynamic build it is the block as
    [malloc] delivered it. *)
Theorem fresh_item_state cfg env m a m1 :
  config_ok cfg → built cfg m →
  s_create_new_item cfg env m = (Some a, m1) →
  match MENU_USAGE_MEMORY cfg with
  | MENU_USAGE_STATIC_MEMORY => s_menu_items m1 !! a = Some (zero_item cfg)
  | MENU_USAGE_DYNAMIC_MEMORY =>
      ∃ junk, env = Some junk ∧ s_menu_items m1 !! a = Some junk
  end.
Proof.
  intros Hok Hb Hc. pose proof (built_inv cfg m Hok Hb) as Hinv.
  destruct (s_create_new_item_spec cfg env m Hok Hinv)
    as [Hnone | (blank & m2 & Hr & _ & _ & _ & _ & _ & _ & _ & Hblank & _ & Hmode)];
    rewrite Hc in *; simplify_eq.
  destruct (MENU_USAGE_MEMORY cfg).
  - by destruct Hmode as (-> & _).
  - by exists blank.
Qed.

(** The second slot of the two-slot static build is zero when handed
    out; the fourth block of the dynamic build is as stale as delivered. *)
Lemma fresh_item_state_witness :
  (∃ m1, s_create_new_item two_slots None
           (default (power_on two_slots)
              (construct two_slots [add_item None (c_string "Start") None None 0]
                         (power_on two_slots))) = (Some 1%nat, m1) ∧
         s_menu_items m1 !! 1%nat = Some (zero_item two_slots)) ∧
  (∃ m1, s_create_new_item menu_h (Some stale_block) (menu_after 3) = (Some 3%nat, m1) ∧
         s_menu_items m1 !! 3%nat = Some stale_block).
Proof.
  split.
  - eexists. split; [vm_compute; reflexivity|].
    eapply (fresh_item_state two_slots None _ 1%nat).
    + intros _. vm_compute. lia.
    + exists [add_item None (c_string "Start") None None 0]. vm_compute. reflexivity.
    + vm_compute. reflexivity.
  - eexists. split; [vm_compute; reflexivity|].
    destruct (fresh_item_state menu_h (Some stale_block) (menu_after 3) 3%nat
                (with_items (s_menu_items (menu_after 3) ++ [stale_block]) (menu_after 3)))
      as (junk & Hj & Hit).
    + exact menu_h_ok.
    + apply menu_after_built. vm_compute. lia.
    + vm_compute. reflexivity.
    + injection Hj as <-. vm_compute. vm_compute in Hit. exact Hit.
Defined.

(** ** The draft in menu03.c *)

(** The draft does not get past its first item: the loop is skipped
    (the only item has no successor), [first] is still [NULL] and
    [first->prev = prev] dereferences it.  The rings of the engine are
    those of menu.c. *)
Lemma menu03_first_item_faults :
  menu03.s_menu_add_item menu_h (Some stale_block) (c_string "Start") None None 0
                         (power_on menu_h) = None ∧
  menu03.s_menu_add_item two_slots None (c_string "Start") None None 0
                         (power_on two_slots) = None.
Proof. split; vm_compute; reflexivity. Qed.

(** * Further properties of the code *)

(** ** Invariants of the construction phase *)

(** Induction over the construction phase, with [build_inv] at hand. *)
Lemma built_induction cfg (P : machine → Prop) :
  config_ok cfg →
  P (power_on cfg) →
  (∀ op m m', build_inv cfg m → P m → run_op cfg op m = Some m' → P m') →
  ∀ m, built cfg m → P m.
Proof.
  intros Hok H0 Hstep m [ops Hrun].
  assert (Hgen : ∀ ops m0 m1, build_inv cfg m0 → P m0 →
                              construct cfg ops m0 = Some m1 → P m1).
  { clear ops Hrun. induction ops as [|op ops IH]; intros m0 m1 Hinv HP Hr;
      simpl in Hr; [by simplify_eq|].
    destruct (run_op cfg op m0) as [m2|] eqn:Hop; [|done]. simpl in Hr.
    eapply (IH m2); [by eapply run_op_inv | by eapply Hstep | done]. }
  eapply Hgen; [apply build_inv_power_on | done | done].
Qed.

Lemma null_or_valid_mono n n' p : (n ≤ n')%nat → null_or_valid n p → null_or_valid n' p.
Proof. destruct p; simpl; [lia | done]. Qed.

(** Construction never stores a dangling [child]: [s_menu_add_item]
    starts it at [NULL] and [s_menu_set_child] is given items. *)
Lemma built_children cfg m :
  config_ok cfg → built cfg m →
  ∀ a it, (a < allocated cfg m)%nat → s_menu_items m !! a = Some it →
          null_or_valid (allocated cfg m) (child it).
Proof.
  intros Hok Hb. pattern m.
  apply (λ P H0 Hs, built_induction cfg P Hok H0 Hs m Hb); clear m Hb.
  - intros a it Ha. exfalso. revert Ha.
    unfold allocated, power_on. simpl. destruct (MENU_USAGE_MEMORY cfg); simpl; lia.
  - intros op m m' Hinv IH Hrun a it Ha Hit.
    destruct op as [env t p cb fl | x c]; unfold run_op in Hrun.
    + destruct (s_menu_add_item_spec cfg env t p cb fl m Hok Hinv)
        as [[_ Hr] | (blank & m2 & Hr & _ & Hal & _ & _ & _ & Hnew & Hold & _)];
        rewrite Hr in Hrun; simpl in Hrun; simplify_eq; [by eapply IH|].
      rewrite Hal in *. destruct (decide (a = allocated cfg m)) as [->|Hne].
      * rewrite Hit in Hnew. simpl in Hnew. injection Hnew as _ _ _ Hc _ _ _.
        by rewrite Hc.
      * assert (Ha' : (a < allocated cfg m)%nat) by lia.
        pose proof (Hold a Ha') as Ho. rewrite Hit in Ho.
        destruct (s_menu_items m !! a) as [it0|] eqn:Hit0; [|done].
        assert (Hc : child it = child it0) by (simpl in Ho; by injection Ho).
        rewrite Hc.
        eapply null_or_valid_mono; [|by eapply IH]. lia.
    + case_bool_decide as Hac; [|done]. destruct Hac as [Hx Hc].
      destruct (s_menu_set_child_spec cfg m x (Some c) Hx Hinv)
        as (m2 & Hr & _ & Hal & _ & _ & _ & Hits).
      rewrite Hr in Hrun. simplify_eq. rewrite Hal in *.
      rewrite Hits, list_lookup_alter in Hit.
      destruct (decide (x = a)) as [->|Hne].
      * destruct (s_menu_items m !! a); [|done]. simpl in Hit. by simplify_eq.
      * exact (IH a it Ha Hit).
Qed.

(** Construction does not touch the encoder state, the trace or the
    list of released blocks. *)
Lemma built_quiet cfg m :
  config_ok cfg → built cfg m →
  rotenc (s_menu_handle m) = rotenc (s_menu_handle (power_on cfg)) ∧
  trace m = [] ∧ released m = [].
Proof.
  intros Hok Hb. pattern m.
  apply (λ P H0 Hs, built_induction cfg P Hok H0 Hs m Hb); clear m Hb; [done|].
  intros op m m' Hinv (IHr & IHt & IHf) Hrun.
  destruct op as [env t p cb fl | x c]; unfold run_op in Hrun.
  - destruct (s_menu_add_item_spec cfg env t p cb fl m Hok Hinv)
      as [[_ Hr] | (blank & m2 & Hr & Hinv2 & _ & Htr & Hro & _)];
      rewrite Hr in Hrun; simpl in Hrun; simplify_eq; [done|].
    rewrite Hro, Htr. split_and!; try done. by destruct Hinv2.
  - case_bool_decide as Hac; [|done]. destruct Hac as [Hx Hc].
    destruct (s_menu_set_child_spec cfg m x (Some c) Hx Hinv)
      as (m2 & Hr & Hinv2 & _ & _ & Hh & Htr & _).
    rewrite Hr in Hrun. simplify_eq. rewrite Hh, Htr. split_and!; try done.
    by destruct Hinv2.
Qed.

Lemma allocated_armed cfg m : allocated cfg (armed m) = allocated cfg m.
Proof. unfold allocated, armed. simpl. by destruct (MENU_USAGE_MEMORY cfg). Qed.

(** ** From construction to navigation *)

Lemma armed_navigable cfg m :
  config_ok cfg → built cfg m →
  (1 ≤ allocated cfg m)%nat → parents_valid cfg m →
  navigable cfg (armed m).
Proof.
  intros Hok Hb Hn Hpar.
  pose proof (built_inv cfg m Hok Hb) as Hinv.
  pose proof (build_inv_ring_closed cfg m Hinv) as Hring.
  destruct (built_quiet cfg m Hok Hb) as (Hro & _ & Hrel).
  destruct Hinv as [_ Hlen Hstart _ _ _ _].
  unfold navigable. rewrite allocated_armed. simpl.
  assert (Hs : valid (allocated cfg m) (start (s_menu_handle m))).
  { rewrite Hstart. destruct (allocated cfg m); simpl; lia. }
  split_and!; try done.
  - apply Forall_lookup. intros a it Hlk.
    apply lookup_take_Some in Hlk as [Hit Ha].
    destruct (Hring a it Ha Hit) as (y & z & ity & itz & Hy & Hz & _ & _ & Hym & Hzm & _).
    apply elem_of_kids in Hym as [? _]. apply elem_of_kids in Hzm as [? _].
    unfold item_wf. rewrite Hy, Hz. simpl. split_and!; try done.
    + unfold parents_valid in Hpar. rewrite Forall_lookup in Hpar.
      apply (Hpar a). by rewrite lookup_take_lt.
    + exact (built_children cfg m Hok Hb a it Ha Hit).
  - by rewrite Hro.
  - by rewrite Hro.
Qed.

(** A constructed menu with at least one item, whose [parent] arguments
    were all [NULL] or items, is fit for navigation once [s_menu_init]
    has set the focus to [start]. *)
Theorem built_navigable cfg m :
  config_ok cfg → built cfg m →
  (1 ≤ allocated cfg m)%nat → parents_valid cfg m →
  navigable cfg (armed m).
Proof. apply armed_navigable. Qed.

(** The menu of [Menu_Init]. *)
Lemma built_navigable_witness : navigable menu_h (armed (menu_after 22)).
Proof.
  apply built_navigable.
  - exact menu_h_ok.
  - apply menu_after_built. vm_compute. lia.
  - vm_compute. lia.
  - by_evaluation.
Defined.

(** ** Navigation never leaves the well-formed states *)

Lemma focus_moves_frame m m' p :
  focus_moves m m' p →
  s_menu_items m' = s_menu_items m ∧
  start (s_menu_handle m') = start (s_menu_handle m) ∧
  released m' = released m.
Proof. by intros (_ & ? & ? & ? & _). Qed.

Lemma tick_rejected cfg raw m :
  0 < ENCODER_INPUT_FILTER cfg → 0 ≤ raw < 2 ^ 32 →
  raw mod ENCODER_INPUT_FILTER cfg ≠ 0 →
  s_rotary_encoder_callback cfg raw m = Some m.
Proof.
  intros Hf Hraw Hmod. unfold s_rotary_encoder_callback.
  destruct (Z.eqb_spec (ENCODER_INPUT_FILTER cfg) 0) as [?|_]; [lia|].
  rewrite filter_test by done.
  by destruct (Z.eqb_spec (raw mod ENCODER_INPUT_FILTER cfg) 0).
Qed.

Lemma short_press_step cfg m :
  navigable cfg m →
  ∃ m', s_push_button_callback m = Some m' ∧ navigable cfg m' ∧
        ∃ p, focus_moves m m' p.
Proof.
  intros Hnav.
  destruct (deref_valid cfg m (current (s_menu_handle m)) Hnav)
    as (a & cur & Ha & Hcur & _ & _ & Hpar & Hch).
  { by destruct Hnav as (_ & _ & ? & _). }
  unfold s_push_button_callback. rewrite Hcur. simpl.
  destruct (bool_decide (child cur ≠ None) && has_flag cur MENU_FLAG_GOTO_CHILD) eqn:E1.
  - apply andb_prop in E1 as [E1 _]. apply bool_decide_eq_true_1 in E1.
    destruct (display_focus cfg m (child cur) Hnav) as (m' & -> & ? & ? & _).
    { destruct (child cur); [done | congruence]. }
    exists m'. eauto.
  - destruct (bool_decide (parent cur ≠ None) && has_flag cur MENU_FLAG_GOTO_PARENT) eqn:E2.
    + apply andb_prop in E2 as [E2 _]. apply bool_decide_eq_true_1 in E2.
      destruct (display_focus cfg m (parent cur) Hnav) as (m' & -> & ? & ? & _).
      { destruct (parent cur); [done | congruence]. }
      exists m'. eauto.
    + destruct (display_same cfg m Hnav) as (m' & -> & ? & ? & _).
      exists m'. eauto.
Qed.

Lemma long_press_step cfg m :
  navigable cfg m →
  ∃ m', s_long_push_button_callback m = Some m' ∧ navigable cfg m' ∧
        ∃ p, focus_moves m m' p.
Proof.
  intros Hnav.
  destruct (deref_valid cfg m (current (s_menu_handle m)) Hnav)
    as (a & cur & Ha & Hcur & _ & _ & Hpar & _).
  { by destruct Hnav as (_ & _ & ? & _). }
  unfold s_long_push_button_callback. rewrite Hcur. simpl.
  destruct (bool_decide (parent cur ≠ None)) eqn:E.
  - apply bool_decide_eq_true_1 in E.
    destruct (display_focus cfg m (parent cur) Hnav) as (m' & -> & ? & ? & _).
    { destruct (parent cur); [done | congruence]. }
    exists m'. eauto.
  - destruct (display_focus cfg m (start (s_menu_handle m)) Hnav)
      as (m' & -> & ? & ? & _).
    { by destruct Hnav as (_ & _ & _ & ? & _). }
    exists m'. eauto.
Qed.

Lemma dispatch_step cfg i m :
  0 < ENCODER_INPUT_FILTER cfg → input_ok i → navigable cfg m →
  ∃ m', dispatch cfg i m = Some m' ∧ navigable cfg m' ∧
        s_menu_items m' = s_menu_items m ∧
        start (s_menu_handle m') = start (s_menu_handle m) ∧
        released m' = released m ∧
        ∃ events, trace m' = trace m ++ events.
Proof.
  intros Hf Hi Hnav. destruct i as [raw| |]; simpl in *.
  - destruct (decide (raw mod ENCODER_INPUT_FILTER cfg = 0)) as [Hmod|Hmod].
    + destruct (tick_outcome cfg raw m Hf Hi Hmod Hnav)
        as (cur & m' & _ & Hrun & Hnav' & _ & Hcb & Hmove).
      exists m'. split; [done|]. split; [done|].
      destruct (callback cur) as [routine|] eqn:Hc.
      * rewrite (Hcb routine eq_refl). simpl. split_and!; try done. by eexists.
      * destruct (Hmove eq_refl) as (Hfw & Hbw & Hst).
        assert (Hfm : ∃ p, focus_moves m m' p).
        { destruct (Z.lt_trichotomy 0 (rotenc_delta (rotenc (s_menu_handle m'))))
            as [?|[?|?]]; eauto. }
        destruct Hfm as (p & Hp). pose proof (focus_moves_frame _ _ _ Hp) as (? & ? & ?).
        destruct Hp as (_ & _ & _ & _ & c & n & _ & _ & Ht).
        split_and!; try done. by eexists.
    + exists m. split.
      * by apply tick_rejected.
      * split_and!; try done. exists []. by rewrite app_nil_r.
  - destruct (short_press_step cfg m Hnav) as (m' & -> & ? & p & Hp).
    pose proof (focus_moves_frame _ _ _ Hp) as (? & ? & ?).
    destruct Hp as (_ & _ & _ & _ & c & n & _ & _ & Ht).
    exists m'. split_and!; try done. by eexists.
  - destruct (long_press_step cfg m Hnav) as (m' & -> & ? & p & Hp).
    pose proof (focus_moves_frame _ _ _ Hp) as (? & ? & ?).
    destruct Hp as (_ & _ & _ & _ & c & n & _ & _ & Ht).
    exists m'. split_and!; try done. by eexists.
Qed.

Lemma taskReadKey_steps cfg inputs : ∀ m,
  0 < ENCODER_INPUT_FILTER cfg → Forall input_ok inputs → navigable cfg m →
  ∃ m', taskReadKey cfg inputs m = Some m' ∧ navigable cfg m' ∧
        s_menu_items m' = s_menu_items m ∧
        start (s_menu_handle m') = start (s_menu_handle m) ∧
        released m' = released m ∧
        ∃ events, trace m' = trace m ++ events.
Proof.
  induction inputs as [|i inputs IH]; intros m Hf Hin Hnav; simpl.
  - exists m. split_and!; try done. exists []. by rewrite app_nil_r.
  - apply Forall_cons_1 in Hin as [Hi Hin].
    destruct (dispatch_step cfg i m Hf Hi Hnav)
      as (m1 & -> & Hnav1 & Hits1 & Hst1 & Hrel1 & ev1 & Htr1).
    simpl. destruct (IH m1 Hf Hin Hnav1)
      as (m2 & -> & Hnav2 & Hits2 & Hst2 & Hrel2 & ev2 & Htr2).
    exists m2. split_and!; try congruence.
    exists (ev1 ++ ev2). by rewrite Htr2, Htr1, app_assoc.
Qed.

(** On a well-formed menu every sequence of encoder readings and button
    presses is handled without a fault, leaves a well-formed menu, and
    changes no item, not [start], and releases nothing: navigation only
    moves the focus, updates the encoder state and adds to the trace. *)
Theorem navigation_closed cfg inputs m :
  0 < ENCODER_INPUT_FILTER cfg → Forall input_ok inputs → navigable cfg m →
  ∃ m', taskReadKey cfg inputs m = Some m' ∧ navigable cfg m' ∧
        s_menu_items m' = s_menu_items m ∧
        start (s_menu_handle m') = start (s_menu_handle m) ∧
        released m' = released m ∧
        ∃ events, trace m' = trace m ++ events.
Proof. intros. by apply taskReadKey_steps. Qed.

Lemma navigation_closed_witness :
  ∃ m', taskReadKey menu_h [tick 2; tick 5; short_press; long_press; tick 0]
          (armed (menu_after 22)) = Some m' ∧
        s_menu_items m' = s_menu_items (menu_after 22).
Proof.
  destruct (navigation_closed menu_h
              [tick 2; tick 5; short_press; long_press; tick 0]
              (armed (menu_after 22)))
    as (m' & Hrun & _ & Hits & _).
  - reflexivity.
  - repeat constructor; simpl; lia.
  - by_evaluation.
  - exists m'. split; [exact Hrun | exact Hits].
Defined.

(** ** The chain builder on its own *)

Lemma item_eq (it it' : menu_item_t) :
  erase it = erase it' → next it = next it' → prev it = prev it' → it = it'.
Proof. destruct it, it'. simpl. intros [=] ? ?. subst. reflexivity. Qed.

Lemma ring_of_unique M (its its' : list menu_item_t) :
  ring_of M its → ring_of M its' → erase <$> its' = erase <$> its →
  ∀ b, b ∈ M → its' !! b = its !! b.
Proof.
  intros Hr Hr' He b Hb. apply list_elem_of_lookup in Hb as [j Hj].
  destruct (Hr j b Hj) as (it & Hit & Hn & Hp).
  destruct (Hr' j b Hj) as (it' & Hit' & Hn' & Hp').
  rewrite Hit, Hit'. f_equal. apply item_eq; [|congruence..].
  assert (H : (erase <$> its') !! b = (erase <$> its) !! b) by by rewrite He.
  rewrite !list_lookup_fmap, Hit, Hit' in H.
  change (Some (erase it') = Some (erase it)) in H. congruence.
Qed.

(** Rebuilding any ring of a constructed menu changes nothing: the rings
    are already what [s_menu_rechain] makes of them (and a parent without
    items is a no-op). *)
Theorem rechain_idempotent cfg q m :
  config_ok cfg → built cfg m → s_menu_rechain q m = Some m.
Proof.
  intros Hok Hb. destruct (built_inv cfg m Hok Hb) as [Hrel Hlen Hstart _ Hchain Hrings _].
  destruct (s_menu_rechain_spec q (allocated cfg m) m Hrel Hlen Hstart Hchain)
    as (its' & -> & Her & Hring & Hframe).
  f_equal. rewrite <- (with_items_id m) at 2. f_equal.
  apply list_eq. intros b.
  destruct (decide (b ∈ kids q (s_menu_items m) (allocated cfg m))) as [Hin|Hout].
  - by apply (ring_of_unique _ _ _ (Hrings q) Hring Her).
  - by apply Hframe.
Qed.

(** Rebuilding the ring under "Options" of the finished menu. *)
Lemma rechain_idempotent_witness :
  s_menu_rechain (Some 2%nat) (menu_after 22) = Some (menu_after 22).
Proof.
  apply (rechain_idempotent menu_h).
  - exact menu_h_ok.
  - apply menu_after_built. vm_compute. lia.
Defined.

(** [s_menu_rechain] needs only a well-linked build-order chain of [n]
    items starting at [start] (the ring links may hold anything): it
    returns, changes nothing but [prev] and [next], changes no item of
    another parent, and leaves the items of parent [q] as a closed ring
    in build order. *)
Theorem rechain_contract q n m :
  released m = [] →
  (n ≤ length (s_menu_items m))%nat →
  start (s_menu_handle m) = list.head (seq 0 n) →
  (∀ a it, (a < n)%nat → s_menu_items m !! a = Some it →
           folowing it = nth_item n (S a)) →
  ∃ its',
    s_menu_rechain q m = Some (with_items its' m) ∧
    erase <$> its' = erase <$> s_menu_items m ∧
    ring_of (kids q (s_menu_items m) n) its' ∧
    ∀ b, b ∉ kids q (s_menu_items m) n → its' !! b = s_menu_items m !! b.
Proof. apply s_menu_rechain_spec. Qed.

(** On the three unlinked items the root ring becomes 0, 2 and item 1
    keeps its stale links. *)
Lemma rechain_contract_witness :
  ∃ its', s_menu_rechain None unlinked = Some (with_items its' unlinked) ∧
          next <$> its' = [Some 2%nat; Some 78%nat; Some 0%nat] ∧
          prev <$> its' = [Some 2%nat; Some 77%nat; Some 0%nat].
Proof.
  destruct (rechain_contract None 3 unlinked) as (its' & Hrun & _).
  - reflexivity.
  - simpl. lia.
  - reflexivity.
  - intros a it Ha Hit.
    destruct a as [|[|[|a]]]; [| | |lia]; vm_compute in Hit; injection Hit as <-;
      reflexivity.
  - exists its'. split; [exact Hrun|].
    vm_compute in Hrun. injection Hrun as <-. split; reflexivity.
Defined.

(** ** The build-order chain *)

Lemma build_order_spec n m k :
  released m = [] → (n ≤ length (s_menu_items m))%nat →
  (∀ a it, (a < n)%nat → s_menu_items m !! a = Some it →
           folowing it = nth_item n (S a)) →
  ∀ a fuel, (n - a = k)%nat → (a ≤ n)%nat → (k ≤ fuel)%nat →
            build_order fuel (nth_item n a) m = Some (seq a (n - a)).
Proof.
  intros Hrel Hlen Hchain. induction k as [|k IH]; intros a fuel Hk Ha Hfuel.
  - rewrite nth_item_ge by lia. replace (n - a)%nat with 0%nat by lia.
    by destruct fuel.
  - rewrite nth_item_lt by lia. destruct fuel as [|fuel]; [lia|].
    destruct (lookup_lt_is_Some_2 (s_menu_items m) a) as [it Hit]; [lia|].
    simpl. rewrite deref_live, Hit by done. simpl.
    rewrite (Hchain a it) by (done || lia).
    rewrite (IH (S a) fuel) by lia. simpl.
    replace (n - a)%nat with (S (n - S a)) by lia. done.
Qed.

(** In every state of the construction phase the [folowing] links from
    [start] run through all items handed out, each once, in the order of
    their creation, and [current] is the last of them. *)
Theorem build_order_chain cfg m :
  config_ok cfg → built cfg m →
  build_order (length (s_menu_items m)) (start (s_menu_handle m)) m
    = Some (seq 0 (allocated cfg m)) ∧
  current (s_menu_handle m) = list.last (seq 0 (allocated cfg m)).
Proof.
  intros Hok Hb. destruct (built_inv cfg m Hok Hb) as [Hrel Hlen Hstart Hcur Hchain _ _].
  split; [|done].
  assert (Hs : start (s_menu_handle m) = nth_item (allocated cfg m) 0).
  { rewrite Hstart. unfold nth_item. destruct (allocated cfg m); [done|].
    by rewrite decide_True by lia. }
  rewrite Hs.
  rewrite (build_order_spec (allocated cfg m) m (allocated cfg m)); try done; try lia.
  by rewrite Nat.sub_0_r.
Qed.

Lemma build_order_chain_witness :
  build_order 18 (Some 0%nat) (menu_after 22) = Some (seq 0 18) ∧
  current (s_menu_handle (menu_after 22)) = Some 17%nat.
Proof.
  apply (build_order_chain menu_h (menu_after 22)).
  - exact menu_h_ok.
  - apply menu_after_built. vm_compute. lia.
Defined.

(** ** What [s_menu_add_item] writes *)

(** A successful [s_menu_add_item] returns the object handed out, with
    the title copied by [strncpy], the given parent and callback, the
    given flags as the [uint8_t] they are passed as (their low eight
    bits), no child and no build-order successor; the focus and the end
    of the build-order chain are now that item. *)
Theorem add_item_stores cfg env t p cb fl m a m' :
  config_ok cfg → built cfg m →
  s_menu_add_item cfg env t p cb fl m = Some (Some a, m') →
  a = allocated cfg m ∧ allocated cfg m' = S a ∧
  current (s_menu_handle m') = Some a ∧
  ∃ it, s_menu_items m' !! a = Some it ∧
        title it = strncpy t (MENU_ITEM_TITLE_LEN cfg) ∧
        parent it = p ∧ child it = None ∧ flags it = uint8 fl ∧ callback it = cb ∧
        folowing it = None.
Proof.
  intros Hok Hb Hadd. pose proof (built_inv cfg m Hok Hb) as Hinv.
  destruct (add_item_fields cfg env t p cb fl m a m' Hok Hb Hadd)
    as (it & Hit & Ht & _ & Hp & Hc & Hf & Hcb & Hfo).
  destruct (s_menu_add_item_spec cfg env t p cb fl m Hok Hinv)
    as [[_ Hr] | (blank & m2 & Hr & Hinv2 & Hal & _)];
    rewrite Hr in Hadd; simplify_eq.
  split; [done|]. split; [done|]. split.
  - rewrite (inv_current cfg m' Hinv2), Hal. apply seq_last.
  - exists it. by split_and!.
Qed.

Lemma add_item_stores_witness :
  ∃ m' it,
    s_menu_add_item menu_h (Some stale_block) (c_string "Hi Arm") (Some 2%nat) None
                    0x1A0 (menu_after 6) = Some (Some 6%nat, m') ∧
    s_menu_items m' !! 6%nat = Some it ∧
    parent it = Some 2%nat ∧ child it = None ∧ flags it = 0xA0 ∧ callback it = None.
Proof.
  destruct (s_menu_add_item menu_h (Some stale_block) (c_string "Hi Arm") (Some 2%nat)
              None 0x1A0 (menu_after 6)) as [[a m']|] eqn:Hadd;
    [|vm_compute in Hadd; discriminate].
  assert (Ha : a = Some 6%nat) by (vm_compute in Hadd; by injection Hadd as <- _).
  subst a.
  destruct (add_item_stores menu_h (Some stale_block) (c_string "Hi Arm") (Some 2%nat)
              None 0x1A0 (menu_after 6) 6%nat m')
    as (_ & _ & _ & it & Hit & _ & Hp & Hc & Hf & Hcb & _).
  - exact menu_h_ok.
  - apply menu_after_built. vm_compute. lia.
  - exact Hadd.
  - exists m', it. split; [reflexivity|]. split; [exact Hit|].
    split; [exact Hp|]. split; [exact Hc|]. split; [exact Hf | exact Hcb].
Defined.

(** A successful [s_menu_add_item] writes to no field of an older item
    except the ring links and the build-order link: titles, parents,
    children, callbacks, data and flags stay. *)
Theorem add_item_keeps_items cfg env t p cb fl m a m' b it0 :
  config_ok cfg → built cfg m →
  s_menu_add_item cfg env t p cb fl m = Some (Some a, m') →
  (b < allocated cfg m)%nat → s_menu_items m !! b = Some it0 →
  ∃ it1, s_menu_items m' !! b = Some it1 ∧
         title it1 = title it0 ∧ parent it1 = parent it0 ∧ child it1 = child it0 ∧
         callback it1 = callback it0 ∧ data it1 = data it0 ∧ flags it1 = flags it0.
Proof.
  intros Hok Hb Hadd Hlt Hit0. pose proof (built_inv cfg m Hok Hb) as Hinv.
  destruct (s_menu_add_item_spec cfg env t p cb fl m Hok Hinv)
    as [[_ Hr] | (blank & m2 & Hr & _ & _ & _ & _ & _ & _ & Hold & _)];
    rewrite Hr in Hadd; simplify_eq.
  specialize (Hold b Hlt). rewrite Hit0 in Hold.
  destruct (s_menu_items m' !! b) as [it1|]; [|done].
  exists it1. split; [done|]. simpl in Hold. by injection Hold.
Qed.

Lemma add_item_keeps_items_witness :
  ∃ m' it1,
    s_menu_add_item menu_h (Some stale_block) (c_string "Hi Arm") (Some 2%nat) None 0
                    (menu_after 6) = Some (Some 6%nat, m') ∧
    s_menu_items m' !! 3%nat = Some it1 ∧
    title it1 = strncpy (c_string "Back") 16 ∧ flags it1 = MENU_FLAG_GOTO_PARENT.
Proof.
  destruct (s_menu_add_item menu_h (Some stale_block) (c_string "Hi Arm") (Some 2%nat)
              None 0 (menu_after 6)) as [[a m']|] eqn:Hadd;
    [|vm_compute in Hadd; discriminate].
  assert (Ha : a = Some 6%nat) by (vm_compute in Hadd; by injection Hadd as <- _).
  subst a.
  destruct (s_menu_items (menu_after 6) !! 3%nat) as [it0|] eqn:Hit0;
    [|vm_compute in Hit0; discriminate].
  destruct (add_item_keeps_items menu_h (Some stale_block) (c_string "Hi Arm")
              (Some 2%nat) None 0 (menu_after 6) 6%nat m' 3%nat it0)
    as (it1 & Hit1 & Ht & _ & _ & _ & _ & Hf).
  - exact menu_h_ok.
  - apply menu_after_built. vm_compute. lia.
  - exact Hadd.
  - vm_compute. lia.
  - exact Hit0.
  - exists m', it1. split; [done|]. split; [done|].
    vm_compute in Hit0. injection Hit0 as <-. by split.
Defined.

(** [s_menu_add_item] never assigns [data]: in the dynamic build the
    field of a new item holds whatever [malloc] delivered, in the static
    build the zero of the array. *)
Theorem add_item_leaves_data cfg env t p cb fl m a m' :
  config_ok cfg → built cfg m →
  s_menu_add_item cfg env t p cb fl m = Some (Some a, m') →
  ∃ it, s_menu_items m' !! a = Some it ∧
        match MENU_USAGE_MEMORY cfg with
        | MENU_USAGE_STATIC_MEMORY => data it = 0
        | MENU_USAGE_DYNAMIC_MEMORY => ∃ junk, env = Some junk ∧ data it = data junk
        end.
Proof.
  intros Hok Hb Hadd. pose proof (built_inv cfg m Hok Hb) as Hinv.
  destruct (s_menu_add_item_spec cfg env t p cb fl m Hok Hinv)
    as [[_ Hr] | (blank & m2 & Hr & _ & _ & _ & _ & _ & Hnew & _ & Hmode)];
    rewrite Hr in Hadd; simplify_eq.
  destruct (s_menu_items m' !! allocated cfg m) as [it|]; [|done].
  exists it. split; [done|].
  assert (Hd : data it = data blank) by (simpl in Hnew; by injection Hnew).
  destruct (MENU_USAGE_MEMORY cfg).
  - by rewrite Hd, Hmode.
  - exists blank. by split.
Qed.

Lemma add_item_leaves_data_witness :
  ∃ m' it,
    s_menu_add_item menu_h (Some stale_block) (c_string "Start") None None 0
                    (power_on menu_h) = Some (Some 0%nat, m') ∧
    s_menu_items m' !! 0%nat = Some it ∧ data it = 0xDEADBEEF.
Proof.
  destruct (s_menu_add_item menu_h (Some stale_block) (c_string "Start") None None 0
              (power_on menu_h)) as [[a m']|] eqn:Hadd;
    [|vm_compute in Hadd; discriminate].
  assert (Ha : a = Some 0%nat) by (vm_compute in Hadd; by injection Hadd as <- _).
  subst a.
  destruct (add_item_leaves_data menu_h (Some stale_block) (c_string "Start") None None 0
              (power_on menu_h) 0%nat m') as (it & Hit & junk & Hj & Hd).
  - exact menu_h_ok.
  - by exists [].
  - exact Hadd.
  - injection Hj as <-. exists m', it. by split_and!.
Defined.

(** ** The static store *)

(** The static build accepts exactly [MENU_SIZE] items: while fewer have
    been handed out [s_menu_add_item] succeeds with the next slot of the
    array, and from then on it fails. *)
Theorem static_store_capacity cfg env t p cb fl m :
  MENU_USAGE_MEMORY cfg = MENU_USAGE_STATIC_MEMORY →
  config_ok cfg → built cfg m →
  (allocated cfg m ≤ MENU_SIZE cfg)%nat ∧
  ((allocated cfg m < MENU_SIZE cfg)%nat →
     ∃ m', s_menu_add_item cfg env t p cb fl m = Some (Some (allocated cfg m), m') ∧
           allocated cfg m' = S (allocated cfg m)) ∧
  (allocated cfg m = MENU_SIZE cfg →
     s_menu_add_item cfg env t p cb fl m = Some (None, m)).
Proof.
  intros Hmode Hok Hb. pose proof (built_inv cfg m Hok Hb) as Hinv.
  destruct (inv_static cfg m Hinv Hmode) as (Hpos & _ & _).
  assert (Hal : allocated cfg m = Z.to_nat (static_array_pos (s_menu_handle m))).
  { unfold allocated. by rewrite Hmode. }
  split; [lia|]. split.
  - intros Hlt.
    destruct (s_menu_add_item_spec cfg env t p cb fl m Hok Hinv)
      as [[Hc _] | (blank & m2 & Hr & _ & Hal2 & _)].
    + exfalso. unfold s_create_new_item in Hc. rewrite Hmode in Hc.
      destruct (Z.leb_spec (Z.of_nat (MENU_SIZE cfg))
                           (static_array_pos (s_menu_handle m))); [lia | done].
    + by exists m2.
  - intros Hfull. unfold s_menu_add_item, s_create_new_item. rewrite Hmode.
    destruct (Z.leb_spec (Z.of_nat (MENU_SIZE cfg))
                         (static_array_pos (s_menu_handle m))); [done | lia].
Qed.

(** With two slots: the first addition succeeds, the third fails. *)
Lemma static_store_capacity_witness :
  (∃ m', s_menu_add_item two_slots None (c_string "Start") None None 0
           (power_on two_slots) = Some (Some 0%nat, m')) ∧
  s_menu_add_item two_slots None (c_string "Test") None None 0 two_items
    = Some (None, two_items).
Proof.
  assert (Hok : config_ok two_slots) by (intros _; vm_compute; lia).
  split.
  - destruct (static_store_capacity two_slots None (c_string "Start") None None 0
                (power_on two_slots) eq_refl Hok) as (_ & Hsucc & _).
    + by exists [].
    + destruct Hsucc as (m' & Hrun & _); [vm_compute; lia|]. by exists m'.
  - destruct (static_store_capacity two_slots None (c_string "Test") None None 0
                two_items eq_refl Hok) as (_ & _ & Hfail).
    + exists [add_item None (c_string "Start") None None 0;
              add_item None (c_string "Options") None None 0].
      vm_compute. reflexivity.
    + apply Hfail. reflexivity.
Defined.

(** ** Teardown in general *)

(** [s_menu_free_items] on a constructed menu.  With no item it
    dereferences the null [start].  With [n ≥ 1] items it returns having
    released the items 0, ..., n - 2, each once and in build order, and
    not the last one. *)
Theorem teardown_all_but_last cfg m :
  config_ok cfg → built cfg m →
  (allocated cfg m = 0%nat → s_menu_free_items m = None) ∧
  ((1 ≤ allocated cfg m)%nat →
     ∃ m', s_menu_free_items m = Some m' ∧
           released m' = seq 0 (allocated cfg m - 1) ∧
           NoDup (released m') ∧
           (allocated cfg m - 1)%nat ∉ released m').
Proof.
  intros Hok Hb. split.
  - intros H0. destruct (built_inv cfg m Hok Hb) as [_ _ Hstart _ _ _ _].
    unfold s_menu_free_items. rewrite Hstart, H0. simpl.
    by destruct (length (s_menu_items m)).
  - by apply s_menu_free_items_spec.
Qed.

Lemma teardown_all_but_last_witness :
  s_menu_free_items (power_on menu_h) = None ∧
  ∃ m', s_menu_free_items (menu_after 3) = Some m' ∧ released m' = [0%nat; 1%nat].
Proof.
  split.
  - apply (teardown_all_but_last menu_h); [exact menu_h_ok | by exists [] | reflexivity].
  - destruct (teardown_all_but_last menu_h (menu_after 3)) as (_ & Hrun).
    + exact menu_h_ok.
    + apply menu_after_built. vm_compute. lia.
    + destruct Hrun as (m' & Hrun & Hrel & _); [vm_compute; lia|].
      exists m'. split; [exact Hrun | exact Hrel].
Defined.

(** ** Titles, for every input *)

Lemma read_string_nonzero buf : Forall (λ c, c ≠ x00) (read_string buf).
Proof.
  induction buf as [|c rest IH]; simpl; [constructor|].
  destruct (Byte.eqb c x00) eqn:E; [constructor|].
  constructor; [|done]. intros ->. vm_compute in E. discriminate.
Qed.

(** [strncpy] reads its source as a C string. *)
Lemma strncpy_read_string src n : strncpy src n = strncpy (read_string src) n.
Proof.
  revert src. induction n as [|n IH]; intros src; [done|].
  destruct src as [|c rest]; simpl; [done|].
  destruct (Byte.eqb c x00) eqn:E; simpl; [done|]. rewrite E. f_equal. apply IH.
Qed.

Lemma read_string_padded s k :
  Forall (λ c, c ≠ x00) s → (0 < k)%nat →
  read_string (s ++ replicate k x00) = s.
Proof.
  intros Hs Hk. induction s as [|c rest IH]; simpl.
  - by destruct k; [lia|].
  - apply Forall_cons_1 in Hs as [Hc Hrest].
    rewrite byte_eqb_ne by done. f_equal. by apply IH.
Qed.

(** A title whose C string is shorter than the field comes back from
    the stored field unchanged, and the field is terminated. *)
Theorem short_title_round_trip cfg env t p cb fl m a m' :
  config_ok cfg → built cfg m →
  s_menu_add_item cfg env t p cb fl m = Some (Some a, m') →
  (length (read_string t) < MENU_ITEM_TITLE_LEN cfg)%nat →
  ∃ it, s_menu_items m' !! a = Some it ∧
        read_string (title it) = read_string t ∧
        x00 ∈ title it.
Proof.
  intros Hok Hb Hadd Hlen.
  destruct (add_item_fields cfg env t p cb fl m a m' Hok Hb Hadd)
    as (it & Hit & Ht & _).
  exists it. split; [done|]. rewrite Ht, strncpy_read_string.
  rewrite strncpy_short by (done || apply read_string_nonzero).
  split.
  - apply read_string_padded; [apply read_string_nonzero | lia].
  - apply elem_of_app. right.
    destruct (MENU_ITEM_TITLE_LEN cfg - length (read_string t))%nat eqn:E; [lia|].
    simpl. apply list_elem_of_here.
Qed.

Lemma short_title_round_trip_witness :
  ∃ m' it,
    s_menu_add_item menu_h (Some stale_block) (c_string "Frequency") None None 0
                    (power_on menu_h) = Some (Some 0%nat, m') ∧
    s_menu_items m' !! 0%nat = Some it ∧
    read_string (title it) = c_string "Frequency".
Proof.
  destruct (s_menu_add_item menu_h (Some stale_block) (c_string "Frequency") None None 0
              (power_on menu_h)) as [[a m']|] eqn:Hadd;
    [|vm_compute in Hadd; discriminate].
  assert (Ha : a = Some 0%nat) by (vm_compute in Hadd; by injection Hadd as <- _).
  subst a.
  destruct (short_title_round_trip menu_h (Some stale_block) (c_string "Frequency")
              None None 0 (power_on menu_h) 0%nat m') as (it & Hit & Hrt & _).
  - exact menu_h_ok.
  - by exists [].
  - exact Hadd.
  - vm_compute. lia.
  - exists m', it. split; [done|]. split; [done|]. exact Hrt.
Defined.

(** A title whose C string has at least [MENU_ITEM_TITLE_LEN] characters
    is stored as its first [MENU_ITEM_TITLE_LEN] characters with no zero
    byte in the field. *)
Theorem long_title_truncated cfg env t p cb fl m a m' :
  config_ok cfg → built cfg m →
  s_menu_add_item cfg env t p cb fl m = Some (Some a, m') →
  (MENU_ITEM_TITLE_LEN cfg ≤ length (read_string t))%nat →
  ∃ it, s_menu_items m' !! a = Some it ∧
        title it = take (MENU_ITEM_TITLE_LEN cfg) (read_string t) ∧
        x00 ∉ title it.
Proof.
  intros Hok Hb Hadd Hlen.
  destruct (add_item_fields cfg env t p cb fl m a m' Hok Hb Hadd)
    as (it & Hit & Ht & _).
  exists it. split; [done|]. rewrite Ht, strncpy_read_string.
  apply strncpy_long; [|done].
  apply Forall_take, read_string_nonzero.
Qed.

Lemma long_title_truncated_witness :
  ∃ m' it,
    s_menu_add_item menu_h (Some stale_block) (c_string "Pulse width modulation")
                    None None 0 (power_on menu_h) = Some (Some 0%nat, m') ∧
    s_menu_items m' !! 0%nat = Some it ∧
    title it = c_string "Pulse width modu" ∧ x00 ∉ title it.
Proof.
  destruct (s_menu_add_item menu_h (Some stale_block)
              (c_string "Pulse width modulation") None None 0
              (power_on menu_h)) as [[a m']|] eqn:Hadd;
    [|vm_compute in Hadd; discriminate].
  assert (Ha : a = Some 0%nat) by (vm_compute in Hadd; by injection Hadd as <- _).
  subst a.
  destruct (long_title_truncated menu_h (Some stale_block)
              (c_string "Pulse width modulation")
              None None 0 (power_on menu_h) 0%nat m') as (it & Hit & Ht & Hno).
  - exact menu_h_ok.
  - by exists [].
  - exact Hadd.
  - vm_compute. lia.
  - exists m', it. split; [done|]. split; [done|]. split; [exact Ht | exact Hno].
Defined.

(** ** Wiring a submenu: [s_menu_set_child] and the short press *)

Lemma lor_has_bits f g : Z.land (Z.lor f g) g = g.
Proof.
  apply Z.bits_inj'. intros n _. rewrite Z.land_spec, Z.lor_spec.
  by destruct (Z.testbit f n), (Z.testbit g n).
Qed.

Lemma set_child_navigable cfg m a c :
  navigable cfg m → (a < allocated cfg m)%nat → (c < allocated cfg m)%nat →
  ∃ m' it,
    s_menu_set_child (Some a) (Some c) m = Some m' ∧ navigable cfg m' ∧
    s_menu_handle m' = s_menu_handle m ∧
    s_menu_items m !! a = Some it ∧
    s_menu_items m' =
      <[a := set_flags (Z.lor (flags it) MENU_FLAG_GOTO_CHILD) (set_child (Some c) it)]>
        (s_menu_items m).
Proof.
  intros Hnav Ha Hc. pose proof Hnav as (Hrel & Hlen & Hcur & Hst & Hall & Henc).
  destruct (lookup_lt_is_Some_2 (s_menu_items m) a) as [it Hit]; [lia|].
  set (it' := set_flags (Z.lor (flags it) MENU_FLAG_GOTO_CHILD) (set_child (Some c) it)).
  exists (with_items (<[a := it']> (s_menu_items m)) m), it.
  assert (Hrun : s_menu_set_child (Some a) (Some c) m
                 = Some (with_items (<[a := it']> (s_menu_items m)) m)).
  { unfold s_menu_set_child.
    rewrite assign_live by eauto. simpl.
    rewrite deref_live by done. simpl. rewrite list_lookup_alter_eq, Hit. simpl.
    rewrite assign_live; [|done|].
    2:{ simpl. rewrite list_lookup_alter_eq, Hit. eauto. }
    simpl. f_equal. rewrite with_items_twice. f_equal.
    rewrite list_alter_alter_eq. apply list_eq. intros b.
    rewrite list_lookup_alter, list_lookup_insert.
    destruct (decide (a = b)) as [->|Hne].
    - rewrite decide_True by (split; [done | lia]). by rewrite Hit.
    - by rewrite decide_False by tauto. }
  split; [done|]. split; [|done].
  assert (Hal : allocated cfg (with_items (<[a := it']> (s_menu_items m)) m)
                = allocated cfg m).
  { unfold allocated. simpl. by rewrite length_insert. }
  unfold navigable. rewrite Hal. simpl. rewrite length_insert.
  split_and!; try done.
  apply Forall_lookup. intros b itb Hb.
  apply lookup_take_Some in Hb as [Hb Hbn].
  rewrite Forall_lookup in Hall.
  rewrite list_lookup_insert in Hb.
  destruct (decide (a = b ∧ (a < length (s_menu_items m))%nat)) as [[-> _]|Hne].
  - injection Hb as <-.
    destruct (Hall b it) as (Hn & Hp & Hpa & _); [by rewrite lookup_take_lt|].
    by split_and!.
  - apply (Hall b). by rewrite lookup_take_lt.
  - lia.
  - lia.
Qed.

(** After [s_menu_set_child(item, child)] a short press with the focus on
    [item] moves the focus to [child], whatever flags [item] had; the
    other flags of [item] and all other items are as before. *)
Theorem set_child_then_press cfg m a c :
  navigable cfg m → (a < allocated cfg m)%nat → (c < allocated cfg m)%nat →
  ∃ m1 m2 it,
    s_menu_set_child (Some a) (Some c) m = Some m1 ∧
    s_menu_items m !! a = Some it ∧
    s_menu_items m1 =
      <[a := set_flags (Z.lor (flags it) MENU_FLAG_GOTO_CHILD) (set_child (Some c) it)]>
        (s_menu_items m) ∧
    s_push_button_callback (with_handle (set_current (Some a)) m1) = Some m2 ∧
    current (s_menu_handle m2) = Some c.
Proof.
  intros Hnav Ha Hc.
  destruct (set_child_navigable cfg m a c Hnav Ha Hc)
    as (m1 & it & Hrun & Hnav1 & Hh & Hit & Hits).
  assert (Hal : allocated cfg m1 = allocated cfg m).
  { unfold allocated. by rewrite Hh, Hits, length_insert. }
  assert (Hnav2 : navigable cfg (with_handle (set_current (Some a)) m1)).
  { apply navigable_set_current; [done|]. simpl. lia. }
  destruct (display_focus cfg (with_handle (set_current (Some a)) m1) (Some c) Hnav2)
    as (m2 & Hd & _ & Hfm & _).
  { assert (E : allocated cfg (with_handle (set_current (Some a)) m1) = allocated cfg m).
    { rewrite <- Hal. unfold allocated. simpl. by destruct (MENU_USAGE_MEMORY cfg). }
    rewrite E. done. }
  exists m1, m2, it. split_and!; try done.
  - unfold s_push_button_callback.
    change (current (s_menu_handle (with_handle (set_current (Some a)) m1)))
      with (Some a).
    destruct Hnav1 as (Hrel1 & Hlen1 & _).
    rewrite deref_live by done. simpl s_menu_items.
    rewrite Hits, list_lookup_insert_eq by (apply lookup_lt_Some in Hit; done).
    simpl. unfold has_flag. simpl. rewrite lor_has_bits, Z.eqb_refl. simpl.
    exact Hd.
  - by destruct Hfm as (? & _).
Qed.

(** In the menu of [Menu_Init] before the first [s_menu_set_child]:
    wiring "Options" (2) to "Back" (3) and pressing on "Options". *)
Lemma set_child_then_press_witness :
  ∃ m1 m2,
    s_menu_set_child (Some 2%nat) (Some 3%nat) (armed (menu_after 7)) = Some m1 ∧
    s_push_button_callback (with_handle (set_current (Some 2%nat)) m1) = Some m2 ∧
    current (s_menu_handle m2) = Some 3%nat.
Proof.
  destruct (set_child_then_press menu_h (armed (menu_after 7)) 2 3)
    as (m1 & m2 & it & H1 & _ & _ & H2 & H3).
  - by_evaluation.
  - vm_compute. lia.
  - vm_compute. lia.
  - exists m1, m2. split; [exact H1|]. split; [exact H2 | exact H3].
Defined.

(** ** Turning the encoder there and back *)

(** On a menu with closed rings, two accepted readings that move the
    encoder position in opposite directions, on items without callback,
    bring the focus back to the item it was on. *)
Theorem tick_there_and_back cfg raw1 raw2 m a cur :
  0 < ENCODER_INPUT_FILTER cfg →
  0 ≤ raw1 < 2 ^ 32 → 0 ≤ raw2 < 2 ^ 32 →
  raw1 mod ENCODER_INPUT_FILTER cfg = 0 → raw2 mod ENCODER_INPUT_FILTER cfg = 0 →
  navigable cfg m → ring_closed cfg m →
  current (s_menu_handle m) = Some a → s_menu_items m !! a = Some cur →
  Forall (λ it, callback it = None) (s_menu_items m) →
  (raw1 / 2 - rotenc_current (rotenc (s_menu_handle m))) * (raw2 / 2 - raw1 / 2) < 0 →
  ∃ m1 m2,
    s_rotary_encoder_callback cfg raw1 m = Some m1 ∧
    current (s_menu_handle m1) ≠ None ∧
    (current (s_menu_handle m1) = next cur ∨ current (s_menu_handle m1) = prev cur) ∧
    s_rotary_encoder_callback cfg raw2 m1 = Some m2 ∧
    current (s_menu_handle m2) = Some a.
Proof.
  intros Hf Hr1 Hr2 Hm1 Hm2 Hnav Hring Hcur Hit Hcb Hopp.
  pose proof Hnav as (Hrel & Hlen & Hvc & _).
  assert (Ha : (a < allocated cfg m)%nat) by (rewrite Hcur in Hvc; done).
  destruct (Hring a cur Ha Hit)
    as (y & z & ity & itz & Hn & Hp & Hy & Hz & _ & _ & Hpy & Hnz & _).
  destruct (tick_outcome cfg raw1 m Hf Hr1 Hm1 Hnav)
    as (cur' & m1 & Hd & Hrun1 & Hnav1 & Hro1 & _ & Hmove1).
  rewrite Hcur, deref_live, Hit in Hd by done. injection Hd as <-.
  destruct (Hmove1 (Forall_lookup_1 _ _ _ _ Hcb Hit)) as (Hfw1 & Hbw1 & _).
  rewrite Hro1 in Hfw1, Hbw1. simpl in Hfw1, Hbw1.
  destruct (tick_outcome cfg raw2 m1 Hf Hr2 Hm2 Hnav1)
    as (cur1 & m2 & Hd1 & Hrun2 & _ & Hro2 & _ & Hmove2).
  exists m1, m2.
  assert (Hpos1 : rotenc_current (rotenc (s_menu_handle m1)) = raw1 / 2).
  { by rewrite Hro1. }
  destruct (Z.lt_trichotomy 0 (raw1 / 2 - rotenc_current (rotenc (s_menu_handle m))))
    as [Hpos|[Hzero|Hneg]]; [| nia |].
  - destruct (Hfw1 Hpos) as (Hc1 & _ & Hits1 & Hrel1 & _).
    rewrite Hc1, Hn, deref_live, Hits1, Hy in Hd1 by congruence. injection Hd1 as <-.
    destruct (Hmove2 (Forall_lookup_1 _ _ _ _ Hcb Hy)) as (_ & Hbw2 & _).
    rewrite Hro2 in Hbw2. simpl in Hbw2. rewrite Hpos1 in Hbw2.
    destruct Hbw2 as (Hc2 & _); [nia|].
    split_and!; try done.
    + by rewrite Hc1, Hn.
    + by left.
    + by rewrite Hc2.
  - destruct (Hbw1 Hneg) as (Hc1 & _ & Hits1 & Hrel1 & _).
    rewrite Hc1, Hp, deref_live, Hits1, Hz in Hd1 by congruence. injection Hd1 as <-.
    destruct (Hmove2 (Forall_lookup_1 _ _ _ _ Hcb Hz)) as (Hfw2 & _ & _).
    rewrite Hro2 in Hfw2. simpl in Hfw2. rewrite Hpos1 in Hfw2.
    destruct Hfw2 as (Hc2 & _); [nia|].
    split_and!; try done.
    + by rewrite Hc1, Hp.
    + by right.
    + by rewrite Hc2.
Qed.

(** On "Back" of the "Options" ring (item 3): reading 2 moves to "PWM",
    reading 0 back. *)
Lemma tick_there_and_back_witness :
  ∃ m1 m2,
    s_rotary_encoder_callback menu_h 2 (menu_at 3) = Some m1 ∧
    s_rotary_encoder_callback menu_h 0 m1 = Some m2 ∧
    current (s_menu_handle m2) = Some 3%nat.
Proof.
  destruct (s_menu_items (menu_at 3) !! 3%nat) as [cur|] eqn:Hit;
    [|vm_compute in Hit; discriminate].
  destruct (tick_there_and_back menu_h 2 0 (menu_at 3) 3 cur)
    as (m1 & m2 & H1 & _ & _ & H2 & H3).
  - reflexivity.
  - lia.
  - lia.
  - reflexivity.
  - reflexivity.
  - by_evaluation.
  - apply (build_inv_ring_closed menu_h (menu_after 22)).
    apply built_inv; [exact menu_h_ok|]. apply menu_after_built. vm_compute. lia.
  - reflexivity.
  - exact Hit.
  - by_evaluation.
  - vm_compute. reflexivity.
  - exists m1, m2. split; [exact H1|]. split; [exact H2 | exact H3].
Defined.

(** ** Walking a ring *)

Lemma mod_wrap a k : (k ≤ a < 2 * k)%nat → (a mod k = a - k)%nat.
Proof. intros H. symmetry. apply (Nat.mod_unique a k 1); lia. Qed.

Lemma ring_from_lookup (M : list nat) j i :
  (j < length M)%nat → (i < length M)%nat →
  ring_from j M !! i = M !! ((j + i) mod length M)%nat.
Proof.
  intros Hj Hi. unfold ring_from.
  destruct (decide (j + i < length M)%nat).
  - rewrite lookup_app_l by (rewrite length_drop; lia).
    by rewrite lookup_drop, Nat.mod_small.
  - rewrite lookup_app_r by (rewrite length_drop; lia).
    rewrite length_drop, lookup_take_lt by lia.
    rewrite mod_wrap by lia. f_equal. lia.
Qed.

Lemma ring_from_length (M : list nat) j : length (ring_from j M) = length M.
Proof.
  unfold ring_from. rewrite length_app, length_drop, length_take. lia.
Qed.

Section ring_walk.
Variables (M : list nat) (m : machine).
Hypothesis Hnd : NoDup M.
Hypothesis Hring : ring_of M (s_menu_items m).
Hypothesis Hrel : released m = [].

Lemma ring_next_mod j x :
  M !! j = Some x →
  ∃ it, deref m (Some x) = Some it ∧ next it = M !! (S j mod length M)%nat.
Proof using Hnd Hring Hrel.
  intros Hj. destruct (Hring j x Hj) as (it & Hit & Hn & _).
  pose proof (lookup_lt_Some _ _ _ Hj) as Hlt.
  exists it. split; [by rewrite deref_live|]. rewrite Hn.
  destruct (decide (S j < length M)%nat).
  - by rewrite lookup_app_l, Nat.mod_small.
  - replace (S j) with (length M) by lia.
    rewrite lookup_app_r, Nat.sub_diag, Nat.Div0.mod_same by lia.
    by destruct M.
Qed.

Lemma follow_next_ring i : ∀ j,
  (j < length M)%nat →
  follow_next i (M !! j) m = Some (M !! ((j + i) mod length M)%nat).
Proof using Hnd Hring Hrel.
  induction i as [|i IH]; intros j Hj.
  - simpl. by rewrite Nat.add_0_r, Nat.mod_small.
  - destruct (lookup_lt_is_Some_2 M j Hj) as [x Hx].
    destruct (ring_next_mod j x Hx) as (it & Hd & Hn).
    rewrite Hx. simpl. rewrite Hd. simpl. rewrite Hn, IH.
    + rewrite Nat.Div0.add_mod_idemp_l. do 3 f_equal. lia.
    + apply Nat.mod_upper_bound. lia.
Qed.

Lemma print_chain_ring j r : ∀ s fuel,
  (j < length M)%nat → (s + r = length M - 1)%nat → (r ≤ fuel)%nat →
  print_chain_loop fuel (M !! j) (ring_from j M !! s) m
    = Some (title_at m <$> take r (drop s (ring_from j M))).
Proof using Hnd Hring Hrel.
  induction r as [|r IH]; intros s fuel Hj Hs Hfuel.
  - rewrite ring_from_lookup by lia.
    destruct (lookup_lt_is_Some_2 M ((j + s) mod length M)) as [x Hx].
    { apply Nat.mod_upper_bound. lia. }
    destruct (ring_next_mod _ x Hx) as (it & Hd & Hn).
    assert (Hback : next it = M !! j).
    { rewrite Hn, <- Nat.add_1_r, Nat.Div0.add_mod_idemp_l.
      replace (j + s + 1)%nat with (j + 1 * length M)%nat by lia.
      by rewrite Nat.Div0.mod_add, Nat.mod_small. }
    rewrite Hx. destruct fuel; simpl; rewrite Hd; simpl;
      by rewrite bool_decide_eq_true_2.
  - destruct fuel as [|fuel]; [lia|].
    assert (Hsr : ring_from j M !! s = M !! ((j + s) mod length M)%nat)
      by (apply ring_from_lookup; lia).
    destruct (lookup_lt_is_Some_2 M ((j + s) mod length M)) as [x Hx].
    { apply Nat.mod_upper_bound. lia. }
    destruct (ring_next_mod _ x Hx) as (it & Hd & Hn).
    assert (Hnext : next it = ring_from j M !! S s).
    { rewrite Hn, ring_from_lookup by lia.
      rewrite <- Nat.add_1_r, Nat.Div0.add_mod_idemp_l. f_equal. f_equal. lia. }
    assert (Hne : next it ≠ M !! j).
    { rewrite Hn, <- Nat.add_1_r, Nat.Div0.add_mod_idemp_l.
      destruct (lookup_lt_is_Some_2 M j Hj) as [y Hy]. rewrite Hy.
      intros Heq.
      assert (Hidx : ((j + s + 1) mod length M)%nat = j) by by eapply NoDup_lookup.
      destruct (decide (j + s + 1 < length M)%nat).
      - rewrite Nat.mod_small in Hidx by done. lia.
      - rewrite mod_wrap in Hidx by lia. lia. }
    rewrite Hsr, Hx. simpl. rewrite Hd. simpl.
    rewrite bool_decide_eq_false_2 by done.
    rewrite Hnext, (IH (S s) fuel) by lia. simpl.
    rewrite (drop_S (ring_from j M) x s) by (by rewrite Hsr). simpl.
    unfold title_at at 2. unfold deref in Hd. simpl in Hd.
    rewrite Hrel in Hd. rewrite bool_decide_eq_false_2 in Hd by apply not_elem_of_nil.
    by rewrite Hd.
Qed.
End ring_walk.

Lemma built_ring_index cfg m x it :
  config_ok cfg → built cfg m →
  (x < allocated cfg m)%nat → s_menu_items m !! x = Some it →
  released m = [] ∧ NoDup (members cfg (parent it) m) ∧
  ring_of (members cfg (parent it) m) (s_menu_items m) ∧
  ∃ j, members cfg (parent it) m !! j = Some x.
Proof.
  intros Hok Hb Hx Hit. destruct (built_inv cfg m Hok Hb) as [Hrel _ _ _ _ Hrings _].
  split; [done|]. split; [apply NoDup_kids|]. split; [done|].
  apply list_elem_of_lookup, elem_of_kids. split; [done|]. by rewrite Hit.
Qed.

(** In a constructed menu, as many forward steps as the ring of an item
    has members lead back to the item, and fewer (but at least one) do
    not. *)
Theorem ring_period cfg m x it :
  config_ok cfg → built cfg m →
  (x < allocated cfg m)%nat → s_menu_items m !! x = Some it →
  follow_next (length (members cfg (parent it) m)) (Some x) m = Some (Some x) ∧
  ∀ i, (0 < i < length (members cfg (parent it) m))%nat →
       follow_next i (Some x) m ≠ Some (Some x).
Proof.
  intros Hok Hb Hx Hit.
  destruct (built_ring_index cfg m x it Hok Hb Hx Hit) as (Hrel & Hnd & Hring & j & Hj).
  pose proof (lookup_lt_Some _ _ _ Hj) as Hlt.
  set (M := members cfg (parent it) m) in *.
  rewrite <- Hj. split.
  - rewrite (follow_next_ring M m Hnd Hring Hrel) by done.
    replace (j + length M)%nat with (j + 1 * length M)%nat by lia.
    by rewrite Nat.Div0.mod_add, Nat.mod_small.
  - intros i Hi. rewrite (follow_next_ring M m Hnd Hring Hrel) by done.
    intros [= Heq]. rewrite Hj in Heq.
    assert (Hidx : ((j + i) mod length M)%nat = j) by by eapply NoDup_lookup.
    destruct (decide (j + i < length M)%nat).
    + rewrite Nat.mod_small in Hidx by done. lia.
    + rewrite mod_wrap in Hidx by lia. lia.
Qed.

(** The ring under "Options" has four items: four steps from "PWM"
    (item 4) come back, two do not. *)
Lemma ring_period_witness :
  follow_next 4 (Some 4%nat) (menu_after 22) = Some (Some 4%nat) ∧
  follow_next 2 (Some 4%nat) (menu_after 22) ≠ Some (Some 4%nat).
Proof.
  destruct (s_menu_items (menu_after 22) !! 4%nat) as [it|] eqn:Hit;
    [|vm_compute in Hit; discriminate].
  destruct (ring_period menu_h (menu_after 22) 4 it) as (Hk & Hless).
  - exact menu_h_ok.
  - apply menu_after_built. vm_compute. lia.
  - vm_compute. lia.
  - exact Hit.
  - vm_compute in Hit. injection Hit as <-. split.
    + exact Hk.
    + apply Hless. vm_compute. lia.
Defined.

(** [s_print_chain] on an item of a constructed menu returns, and prints
    the titles of the item's ring from the item onward, all but the
    last: the item before the one it started from is never printed, and
    for an only child nothing is. *)
Theorem print_chain_omits_last cfg m x it :
  config_ok cfg → built cfg m →
  (x < allocated cfg m)%nat → s_menu_items m !! x = Some it →
  ∃ j, members cfg (parent it) m !! j = Some x ∧
       s_print_chain (Some x) m =
         Some (title_at m <$> take (length (members cfg (parent it) m) - 1)
                                   (ring_from j (members cfg (parent it) m))).
Proof.
  intros Hok Hb Hx Hit.
  destruct (built_ring_index cfg m x it Hok Hb Hx Hit) as (Hrel & Hnd & Hring & j & Hj).
  pose proof (lookup_lt_Some _ _ _ Hj) as Hlt.
  destruct (built_inv cfg m Hok Hb) as [_ Hlen _ _ _ _ _].
  set (M := members cfg (parent it) m) in *.
  exists j. split; [done|]. unfold s_print_chain.
  pose proof (print_chain_ring M m Hnd Hring Hrel j (length M - 1) 0
                (length (s_menu_items m))) as Hp.
  rewrite ring_from_lookup, Nat.add_0_r, Nat.mod_small, Hj in Hp by lia.
  apply Hp; [done | lia |].
  assert (length M ≤ allocated cfg m)%nat; [|lia].
  unfold M, members, kids.
  etransitivity; [apply length_filter|]. by rewrite length_seq.
Qed.

(** From "PWM" in the ring "Back", "PWM", "Lo Arm", "Hi Arm": the titles
    of "PWM", "Lo Arm", "Hi Arm" are printed, "Back" is not. *)
Lemma print_chain_omits_last_witness :
  s_print_chain (Some 4%nat) (menu_after 22) =
    Some [strncpy (c_string "PWM") 16; strncpy (c_string "Lo Arm") 16;
          strncpy (c_string "Hi Arm") 16].
Proof.
  destruct (s_menu_items (menu_after 22) !! 4%nat) as [it|] eqn:Hit;
    [|vm_compute in Hit; discriminate].
  destruct (print_chain_omits_last menu_h (menu_after 22) 4 it) as (j & Hj & Hrun).
  - exact menu_h_ok.
  - apply menu_after_built. vm_compute. lia.
  - vm_compute. lia.
  - exact Hit.
  - rewrite Hrun. clear Hrun. vm_compute in Hit. injection Hit as <-.
    destruct j as [|[|[|[|j]]]]; vm_compute in Hj; try discriminate.
    vm_compute. reflexivity.
Defined.

(** ** console.c: the key loop *)

Lemma after_read_event cfg n c m :
  after_read (s_rotary_encoder_callback cfg) s_push_button_callback
             s_long_push_button_callback n c m =
  match snd (key_event n c) with
  | None => Some (fst (key_event n c), m)
  | Some i => m' ← dispatch cfg i m; Some (fst (key_event n c), m')
  end.
Proof.
  unfold after_read, key_event. destruct (buf c) as [[b0 b1] b2].
  destruct (n =? 1)%nat.
  - destruct (Byte.eqb b0 "d" || Byte.eqb b0 "D"); [done|].
    by destruct (Byte.eqb b0 x0a || Byte.eqb b0 x0d).
  - destruct ((1 <? n)%nat && Byte.eqb b0 x1b && Byte.eqb b1 "["); [|done].
    destruct (Byte.eqb b2 "A"); [done|]. by destruct (Byte.eqb b2 "B").
Qed.

(** The loop calls the handlers of menu.c on exactly the decoded events,
    in order. *)
Lemma key_loop_events cfg raw_flags reads : ∀ c m,
  key_loop raw_flags (s_rotary_encoder_callback cfg) s_push_button_callback
           s_long_push_button_callback reads c m =
  m' ← taskReadKey cfg (snd (key_events raw_flags reads c)) m;
  Some (fst (key_events raw_flags reads c), m').
Proof.
  induction reads as [|r reads IH]; intros c m; [done|].
  destruct r as [|data]; [done|]. simpl.
  set (c1 := store_read (take 3 data) (enableRawMode raw_flags c)).
  destruct ((length (take 3 data) =? 1)%nat && Byte.eqb (buf c1).1.1 x1b); [done|].
  rewrite after_read_event.
  destruct (key_event (length (take 3 data)) c1) as [c2 ev] eqn:Hev. simpl.
  destruct (key_events raw_flags reads (disableRawMode c2)) as [[e c'] inputs] eqn:Hrest.
  simpl. destruct ev as [i|]; simpl.
  - destruct (dispatch cfg i m) as [m1|]; [|done]. simpl.
    rewrite IH, Hrest. done.
  - rewrite IH, Hrest. done.
Qed.

Lemma uint32_range z : 0 ≤ uint32 z < 2 ^ 32.
Proof. unfold uint32. apply Z.mod_pos_bound. lia. Qed.

Lemma uint32_even z : z mod 2 = 0 → uint32 z mod 2 = 0.
Proof.
  intros Hz. unfold uint32.
  rewrite Z.mod_mod_divide; [done|]. exists (2 ^ 31). lia.
Qed.

Lemma key_event_spec n c c' ev :
  key_event n c = (c', ev) → key_counter c mod 2 = 0 →
  c_lflag c' = c_lflag c ∧ orig_termios c' = orig_termios c ∧
  key_counter c' mod 2 = 0 ∧
  match ev with
  | Some (tick raw) => raw = key_counter c' ∧ 0 ≤ raw < 2 ^ 32
  | _ => key_counter c' = key_counter c
  end.
Proof.
  unfold key_event. destruct (buf c) as [[b0 b1] b2]. intros Hev Heven.
  assert (Hm : (key_counter c - 2) mod 2 = 0 ∧ (key_counter c + 2) mod 2 = 0).
  { split.
    - replace (key_counter c - 2) with (key_counter c + (-1) * 2) by lia.
      by rewrite Z.mod_add.
    - replace (key_counter c + 2) with (key_counter c + 1 * 2) by lia.
      by rewrite Z.mod_add. }
  destruct Hm as [Hm1 Hm2].
  repeat match type of Hev with
         | (if ?b then _ else _) = _ => destruct b
         end; simplify_eq; simpl; split_and!;
    auto using uint32_even; apply uint32_range.
Qed.

Lemma store_read_fields data c :
  c_lflag (store_read data c) = c_lflag c ∧
  orig_termios (store_read data c) = orig_termios c ∧
  key_counter (store_read data c) = key_counter c.
Proof. unfold store_read. by destruct (buf c) as [[? ?] ?]. Qed.

(** What a run does to the console, whatever the machine. *)
Lemma key_events_spec raw_flags reads : ∀ c e c' inputs,
  key_events raw_flags reads c = (e, c', inputs) →
  0 ≤ key_counter c < 2 ^ 32 → key_counter c mod 2 = 0 →
  Forall even_reading inputs ∧
  0 ≤ key_counter c' < 2 ^ 32 ∧ key_counter c' mod 2 = 0 ∧
  key_counter c' = default (key_counter c) (last_tick inputs) ∧
  (e = input_exhausted → c_lflag c' = c_lflag c) ∧
  (e ≠ input_exhausted →
     c_lflag c' = Z.land (c_lflag c) (Z.lnot raw_flags) ∧
     orig_termios c' = c_lflag c).
Proof.
  induction reads as [|r reads IH]; intros c e c' inputs Hrun Hrange Heven.
  { simpl in Hrun. simplify_eq. split_and!; try done; lia. }
  destruct r as [|data]; simpl in Hrun.
  { simplify_eq. split_and!; try done; simpl; lia. }
  set (c1 := store_read (take 3 data) (enableRawMode raw_flags c)) in *.
  destruct (store_read_fields (take 3 data) (enableRawMode raw_flags c))
    as (Hl1 & Ho1 & Hk1). fold c1 in Hl1, Ho1, Hk1. simpl in Hl1, Ho1, Hk1.
  destruct ((length (take 3 data) =? 1)%nat && Byte.eqb (buf c1).1.1 x1b).
  { simplify_eq. rewrite Hk1. split_and!; try done; simpl; lia. }
  destruct (key_event (length (take 3 data)) c1) as [c2 ev] eqn:Hev.
  destruct (key_events raw_flags reads (disableRawMode c2)) as [[e0 c0] inputs0] eqn:Hrest.
  simplify_eq.
  destruct (key_event_spec _ _ _ _ Hev) as (Hl2 & Ho2 & He2 & Hev2); [by rewrite Hk1|].
  assert (Hr2 : 0 ≤ key_counter c2 < 2 ^ 32).
  { destruct ev as [[raw| |]|]; [by destruct Hev2 as [<- ?] | | |]; by rewrite Hev2, Hk1. }
  destruct (IH (disableRawMode c2) e c' inputs0 Hrest Hr2 He2)
    as (Hin & Hr' & He' & Hlast & Hex & Hnex).
  simpl in Hlast, Hex, Hnex.
  split_and!; try done; try lia.
  - apply Forall_app. split; [|done].
    destruct ev as [[raw| |]|]; simpl; [|by repeat constructor..].
    apply Forall_singleton. destruct Hev2 as [-> ?]. by split.
  - rewrite Hlast. unfold last_tick. rewrite omap_app, last_app.
    destruct (list.last (omap _ inputs0)) as [r|] eqn:Hl; [done|]. simpl.
    destruct ev as [[raw| |]|]; simpl.
    + by destruct Hev2 as [-> _].
    + by rewrite Hev2, Hk1.
    + by rewrite Hev2, Hk1.
    + by rewrite Hev2, Hk1.
  - intros He. rewrite (Hex He), Ho2, Ho1. done.
  - intros He. destruct (Hnex He) as [-> ->]. by rewrite Ho2, Ho1.
Qed.

Lemma even_input_ok i : even_reading i → input_ok i.
Proof. destruct i; simpl; tauto. Qed.

(** ** The key loop with the handlers of menu.c *)

(** Whatever the terminal delivers, [taskReadKey] with the three handlers
    of menu.c on a well-formed menu runs without a fault until Esc, a
    failed read or the end of the input: the readings it passes to the
    encoder handler are even 32-bit values, the handlers' calls are those
    of the decoded keys in order, and the menu stays well-formed with its
    items, [start] and the released blocks unchanged. *)
Theorem key_loop_handled cfg raw_flags reads lflag stale m :
  0 < ENCODER_INPUT_FILTER cfg → navigable cfg m →
  ∃ e c' m' inputs,
    console_taskReadKey raw_flags (s_rotary_encoder_callback cfg)
      s_push_button_callback s_long_push_button_callback
      reads lflag stale m = Some (e, c', m') ∧
    Forall even_reading inputs ∧
    taskReadKey cfg inputs m = Some m' ∧
    navigable cfg m' ∧
    s_menu_items m' = s_menu_items m ∧
    start (s_menu_handle m') = start (s_menu_handle m) ∧
    released m' = released m.
Proof.
  intros Hf Hnav. unfold console_taskReadKey.
  set (c := {| c_lflag := lflag; orig_termios := 0; key_counter := 0; buf := stale |}).
  rewrite key_loop_events.
  destruct (key_events raw_flags reads c) as [[e c'] inputs] eqn:Hev. simpl.
  destruct (key_events_spec raw_flags reads c e c' inputs Hev)
    as (Hin & _); [simpl; lia | done |].
  destruct (taskReadKey_steps cfg inputs m Hf)
    as (m' & Hrun & Hnav' & Hits & Hst & Hrel & _); [|done|].
  { apply (list.Forall_impl _ _ _ Hin), even_input_ok. }
  exists e, c', m', inputs. rewrite Hrun. simpl. by split_and!.
Qed.

Lemma key_loop_handled_witness :
  ∃ e c' m' inputs,
    console_taskReadKey sample_raw_flags (s_rotary_encoder_callback menu_h)
      s_push_button_callback s_long_push_button_callback
      sample_session 0x8A3B (x00, x00, x00) (armed (menu_after 22))
      = Some (e, c', m') ∧
    taskReadKey menu_h inputs (armed (menu_after 22)) = Some m' ∧
    s_menu_items m' = s_menu_items (armed (menu_after 22)).
Proof.
  destruct (key_loop_handled menu_h sample_raw_flags sample_session 0x8A3B
              (x00, x00, x00) (armed (menu_after 22)))
    as (e & c' & m' & inputs & Hrun & _ & Hin & _ & Hits & _).
  - reflexivity.
  - by_evaluation.
  - exists e, c', m', inputs. split; [exact Hrun|]. split; [exact Hin | exact Hits].
Defined.

(** *** The encoder position and the key counter *)

Lemma display_handle m m' :
  s_display_menu m = Some m' → s_menu_handle m' = s_menu_handle m.
Proof.
  unfold s_display_menu. intros H.
  destruct (deref m (current (s_menu_handle m))) as [cur|]; [|done]. simpl in H.
  destruct (deref m (next cur)); [|done]. simpl in H. by simplify_eq.
Qed.

Lemma press_keeps_rotenc m m' :
  s_push_button_callback m = Some m' ∨ s_long_push_button_callback m = Some m' →
  rotenc (s_menu_handle m') = rotenc (s_menu_handle m).
Proof.
  unfold s_push_button_callback, s_long_push_button_callback.
  destruct (deref m (current (s_menu_handle m))) as [cur|]; simpl; [|by intros [|]].
  intros [H|H];
    repeat match type of H with
           | (if ?b then _ else _) = _ => destruct b
           end;
    apply display_handle in H; by rewrite H.
Qed.

Lemma dispatch_position cfg i m m' :
  ENCODER_INPUT_FILTER cfg = 2 → even_reading i → navigable cfg m →
  dispatch cfg i m = Some m' →
  rotenc_current (rotenc (s_menu_handle m')) =
    match i with
    | tick raw => raw / 2
    | _ => rotenc_current (rotenc (s_menu_handle m))
    end.
Proof.
  intros Hf Hi Hnav Hrun. destruct i as [raw| |]; simpl in *.
  - destruct Hi as [Hraw Heven].
    destruct (tick_outcome cfg raw m) as (cur & m1 & _ & Hrun1 & _ & Hrot & _);
      try done; [lia | by rewrite Hf |].
    rewrite Hrun1 in Hrun. injection Hrun as <-. by rewrite Hrot.
  - f_equal. apply press_keeps_rotenc. by left.
  - f_equal. apply press_keeps_rotenc. by right.
Qed.

Lemma last_tick_cons i inputs :
  last_tick (i :: inputs) =
    match last_tick inputs with
    | Some r => Some r
    | None => if i is tick raw then Some raw else None
    end.
Proof.
  unfold last_tick. destruct i as [raw| |]; simpl;
    try by destruct (list.last _).
  by rewrite last_cons.
Qed.

Lemma taskReadKey_position cfg inputs : ∀ m m',
  ENCODER_INPUT_FILTER cfg = 2 → Forall even_reading inputs → navigable cfg m →
  taskReadKey cfg inputs m = Some m' →
  rotenc_current (rotenc (s_menu_handle m')) =
    default (rotenc_current (rotenc (s_menu_handle m)))
            ((λ raw, raw / 2) <$> last_tick inputs).
Proof.
  induction inputs as [|i inputs IH]; intros m m' Hf Hin Hnav Hrun; simpl in Hrun.
  { by simplify_eq. }
  apply Forall_cons_1 in Hin as [Hi Hin].
  destruct (dispatch_step cfg i m) as (m1 & Hrun1 & Hnav1 & _);
    [lia | by apply even_input_ok | done |].
  rewrite Hrun1 in Hrun. simpl in Hrun.
  rewrite (IH m1 m' Hf Hin Hnav1 Hrun), last_tick_cons.
  destruct (last_tick inputs) as [r|]; [done|]. simpl.
  rewrite (dispatch_position cfg i m m1 Hf Hi Hnav Hrun1).
  by destruct i.
Qed.

(** With the filter factor 2 of menu.h no arrow key is lost to the
    filter: when the encoder position is half the key counter before the
    loop, it is half the key counter whenever the loop is left, also
    after the counter has wrapped around. *)
Theorem position_follows_key_counter cfg raw_flags reads c m e c' m' :
  ENCODER_INPUT_FILTER cfg = 2 → navigable cfg m →
  0 ≤ key_counter c < 2 ^ 32 → key_counter c mod 2 = 0 →
  rotenc_current (rotenc (s_menu_handle m)) = key_counter c / 2 →
  key_loop raw_flags (s_rotary_encoder_callback cfg) s_push_button_callback
           s_long_push_button_callback reads c m = Some (e, c', m') →
  rotenc_current (rotenc (s_menu_handle m')) = key_counter c' / 2.
Proof.
  intros Hf Hnav Hrange Heven Hpos Hrun. rewrite key_loop_events in Hrun.
  destruct (key_events raw_flags reads c) as [[e0 c0] inputs] eqn:Hev.
  simpl in Hrun.
  destruct (taskReadKey cfg inputs m) as [m0|] eqn:Hkeys; [|done].
  simpl in Hrun. simplify_eq.
  destruct (key_events_spec raw_flags reads c e c' inputs Hev Hrange Heven)
    as (Hin & _ & _ & Hlast & _).
  rewrite (taskReadKey_position cfg inputs m m' Hf Hin Hnav Hkeys), Hlast, Hpos.
  by destruct (last_tick inputs).
Qed.

Lemma position_follows_key_counter_witness :
  ∃ e c' m',
    key_loop sample_raw_flags (s_rotary_encoder_callback menu_h)
             s_push_button_callback s_long_push_button_callback
             sample_session fresh_console (armed (menu_after 22))
      = Some (e, c', m') ∧
    rotenc_current (rotenc (s_menu_handle m')) = key_counter c' / 2.
Proof.
  destruct (key_loop sample_raw_flags (s_rotary_encoder_callback menu_h)
              s_push_button_callback s_long_push_button_callback
              sample_session fresh_console (armed (menu_after 22)))
    as [[[e c'] m']|] eqn:E; [|vm_compute in E; discriminate].
  exists e, c', m'. split; [reflexivity|].
  apply (position_follows_key_counter menu_h sample_raw_flags sample_session
           fresh_console (armed (menu_after 22)) e c' m').
  - reflexivity.
  - by_evaluation.
  - simpl. lia.
  - reflexivity.
  - reflexivity.
  - exact E.
Defined.

(** *** The terminal *)

Lemma after_read_termios (rotary : Z → machine → option machine) push long
    n c m c' m' :
  after_read rotary push long n c m = Some (c', m') →
  c_lflag c' = c_lflag c ∧ orig_termios c' = orig_termios c.
Proof.
  unfold after_read. destruct (buf c) as [[b0 b1] b2]. intros H.
  repeat match type of H with
         | (if ?b then _ else _) = _ => destruct b
         | (?x ≫= _) = _ => destruct x; simpl in H
         end; by simplify_eq.
Qed.

Lemma key_loop_termios (rotary : Z → machine → option machine) push long
    raw_flags reads : ∀ c m e c' m',
  key_loop raw_flags rotary push long reads c m = Some (e, c', m') →
  (e = input_exhausted → c_lflag c' = c_lflag c) ∧
  (e ≠ input_exhausted →
     c_lflag c' = Z.land (c_lflag c) (Z.lnot raw_flags) ∧
     orig_termios c' = c_lflag c).
Proof.
  induction reads as [|r reads IH]; intros c m e c' m' Hrun; simpl in Hrun.
  { by simplify_eq. }
  destruct r as [|data]; [by simplify_eq|].
  set (c1 := store_read (take 3 data) (enableRawMode raw_flags c)) in *.
  destruct (store_read_fields (take 3 data) (enableRawMode raw_flags c))
    as (Hl1 & Ho1 & _). fold c1 in Hl1, Ho1. simpl in Hl1, Ho1.
  destruct ((length (take 3 data) =? 1)%nat && Byte.eqb (buf c1).1.1 x1b).
  { by simplify_eq. }
  destruct (after_read rotary push long (length (take 3 data)) c1 m)
    as [[c2 m2]|] eqn:Hbody; [|done]. simpl in Hrun.
  apply after_read_termios in Hbody as [Hl2 Ho2].
  destruct (IH _ _ _ _ _ Hrun) as [Hex Hnex]. simpl in Hex, Hnex.
  split.
  - intros He. rewrite (Hex He), Ho2, Ho1. done.
  - intros He. destruct (Hnex He) as [-> ->]. by rewrite Ho2, Ho1.
Qed.

(** Whatever the three handlers do, when [taskReadKey] is left by Esc
    or by a failed read the terminal is still in raw mode: its line
    flags are those at the call with [ECHO | ICANON | ISIG] cleared, and
    the flags to restore are only in [orig_termios]. *)
Theorem exit_leaves_raw_mode (rotary : Z → machine → option machine) push long
    raw_flags reads c m e c' m' :
  key_loop raw_flags rotary push long reads c m = Some (e, c', m') →
  e ≠ input_exhausted →
  c_lflag c' = Z.land (c_lflag c) (Z.lnot raw_flags) ∧
  Z.land (c_lflag c') raw_flags = 0 ∧
  orig_termios c' = c_lflag c.
Proof.
  intros Hrun He.
  destruct (key_loop_termios _ _ _ _ _ _ _ _ _ _ Hrun) as [_ Hnex].
  destruct (Hnex He) as [Hl Ho]. split_and!; try done.
  rewrite Hl, <- Z.land_assoc, (Z.land_comm (Z.lnot _)), Z.land_lnot_diag.
  apply Z.land_0_r.
Qed.

Lemma exit_leaves_raw_mode_witness :
  ∃ c' m',
    key_loop sample_raw_flags (s_rotary_encoder_callback menu_h)
             s_push_button_callback s_long_push_button_callback
             sample_session fresh_console (armed (menu_after 22))
      = Some (esc_key, c', m') ∧
    c_lflag c' = 0x8A30 ∧ orig_termios c' = 0x8A3B.
Proof.
  destruct (key_loop sample_raw_flags (s_rotary_encoder_callback menu_h)
              s_push_button_callback s_long_push_button_callback
              sample_session fresh_console (armed (menu_after 22)))
    as [[[e c'] m']|] eqn:E; [|vm_compute in E; discriminate].
  assert (He : e = esc_key).
  { pose proof E as E'. vm_compute in E'. by injection E' as <- _ _. }
  subst e. exists c', m'. split; [reflexivity|].
  destruct (exit_leaves_raw_mode (s_rotary_encoder_callback menu_h)
              s_push_button_callback s_long_push_button_callback
              sample_raw_flags sample_session fresh_console
              (armed (menu_after 22)) esc_key c' m' E)
    as (Hl & _ & Ho); [discriminate|].
  split; [exact Hl | exact Ho].
Defined.

(** The terminal is back in its mode at the call between two reads only:
    a loop that has served every read has restored the line flags. *)
Lemma key_loop_restores (rotary : Z → machine → option machine) push long
    raw_flags reads c m c' m' :
  key_loop raw_flags rotary push long reads c m = Some (input_exhausted, c', m') →
  c_lflag c' = c_lflag c.
Proof.
  intros Hrun.
  by destruct (key_loop_termios _ _ _ _ _ _ _ _ _ _ Hrun) as [-> _].
Qed.

(** *** The arrow keys and the wrap of the key counter *)

Lemma arrow_read cfg raw_flags c m (up : bool) :
  key_loop raw_flags (s_rotary_encoder_callback cfg) s_push_button_callback
           s_long_push_button_callback
           [read_bytes (if up then arrow_up else arrow_down)] c m =
  let raw := uint32 (key_counter c + (if up then -2 else 2)) in
  m' ← s_rotary_encoder_callback cfg raw m;
  Some (input_exhausted,
        disableRawMode
          (set_key_counter raw
             (store_read (if up then arrow_up else arrow_down)
                         (enableRawMode raw_flags c))), m').
Proof.
  destruct c as [l o k [[b0 b1] b2]], up; unfold key_loop, after_read; simpl;
    by destruct (s_rotary_encoder_callback _ _ _).
Qed.

Lemma even_half k : k mod 2 = 0 → k = 2 * (k / 2).
Proof. intros H. pose proof (Z.div_mod k 2). lia. Qed.

(** One arrow key on an item without a routine, when the encoder
    position is half the key counter.  Arrow up moves the focus to
    [prev] and arrow down to [next], except at the two ends of the
    counter: arrow up at counter 0 (the first key after the start)
    wraps the counter to 2^32 - 2 and moves the focus to [next], and
    arrow down at 2^32 - 2 wraps it to 0 and moves the focus to [prev]. *)
Theorem arrow_key_direction cfg raw_flags c m cur (up : bool) :
  ENCODER_INPUT_FILTER cfg = 2 → navigable cfg m →
  0 ≤ key_counter c < 2 ^ 32 → key_counter c mod 2 = 0 →
  rotenc_current (rotenc (s_menu_handle m)) = key_counter c / 2 →
  deref m (current (s_menu_handle m)) = Some cur → callback cur = None →
  ∃ c' m',
    key_loop raw_flags (s_rotary_encoder_callback cfg) s_push_button_callback
             s_long_push_button_callback
             [read_bytes (if up then arrow_up else arrow_down)] c m
      = Some (input_exhausted, c', m') ∧
    key_counter c' = uint32 (key_counter c + (if up then -2 else 2)) ∧
    focus_moves m m'
      (if up then
         if decide (key_counter c = 0) then next cur else prev cur
       else
         if decide (key_counter c = 2 ^ 32 - 2) then prev cur else next cur).
Proof.
  intros Hf Hnav Hrange Heven Hpos Hcur Hcb. rewrite arrow_read. cbv zeta.
  set (raw := uint32 (key_counter c + (if up then -2 else 2))).
  pose proof (even_half _ Heven) as Hk.
  assert (Hraw : 0 ≤ raw < 2 ^ 32) by apply uint32_range.
  assert (Hmod : raw mod 2 = 0).
  { apply uint32_even.
    replace (key_counter c + (if up then -2 else 2))
      with (key_counter c + (if up then -1 else 1) * 2) by (destruct up; lia).
    by rewrite Z.mod_add. }
  destruct (tick_outcome cfg raw m) as (cur0 & m' & Hcur0 & Hrun & _ & Hrot & _ & Hmove);
    try done; [lia | by rewrite Hf |].
  rewrite Hcur in Hcur0. injection Hcur0 as <-.
  destruct (Hmove Hcb) as (Hfw & Hbw & _). rewrite Hrot in Hfw, Hbw.
  simpl in Hfw, Hbw. rewrite Hpos in Hfw, Hbw.
  rewrite Hrun. simpl. eexists _, m'. split; [reflexivity|]. split; [done|].
  pose proof (even_half _ Hmod) as Hr.
  assert (Hwrap : raw = key_counter c + (if up then -2 else 2) ∨
                  (up = true ∧ key_counter c = 0 ∧ raw = 2 ^ 32 - 2) ∨
                  (up = false ∧ key_counter c = 2 ^ 32 - 2 ∧ raw = 0)).
  { unfold raw, uint32. destruct up.
    - destruct (decide (key_counter c = 0)) as [->|].
      + right. left. done.
      + left. apply Z.mod_small. lia.
    - destruct (decide (key_counter c = 2 ^ 32 - 2)) as [->|].
      + right. right. done.
      + left. apply Z.mod_small. lia. }
  destruct up.
  - destruct (decide (key_counter c = 0)) as [H0|H0].
    + apply Hfw. lia.
    + apply Hbw. lia.
  - destruct (decide (key_counter c = 2 ^ 32 - 2)) as [H0|H0].
    + apply Hbw. lia.
    + apply Hfw. lia.
Qed.

Lemma arrow_key_direction_witness :
  ∃ c' m',
    key_loop sample_raw_flags (s_rotary_encoder_callback menu_h)
             s_push_button_callback s_long_push_button_callback
             [read_bytes arrow_up] fresh_console (armed (menu_after 22))
      = Some (input_exhausted, c', m') ∧
    key_counter c' = 2 ^ 32 - 2 ∧
    current (s_menu_handle m') = Some 1%nat.
Proof.
  destruct (s_menu_items (menu_after 22) !! 0%nat) as [cur|] eqn:Hit;
    [|vm_compute in Hit; discriminate].
  destruct (arrow_key_direction menu_h sample_raw_flags fresh_console
              (armed (menu_after 22)) cur true)
    as (c' & m' & Hrun & Hk & Hmove).
  - reflexivity.
  - by_evaluation.
  - simpl. lia.
  - reflexivity.
  - reflexivity.
  - exact Hit.
  - pose proof Hit as E. vm_compute in E. by injection E as <-.
  - exists c', m'. split; [exact Hrun|]. split; [exact Hk|].
    destruct Hmove as [-> _].
    pose proof Hit as E. vm_compute in E. by injection E as <-.
Defined.

(** ** The whole of [s_menu_init] *)

Lemma key_events_exit raw_flags reads : ∀ c,
  (key_events raw_flags reads c).1.1 = loop_exit reads.
Proof.
  induction reads as [|r reads IH]; intros c; [done|].
  destruct r as [|data]; [done|]. simpl.
  set (c1 := store_read (take 3 data) (enableRawMode raw_flags c)).
  assert (Hesc : (length (take 3 data) =? 1)%nat && Byte.eqb (buf c1).1.1 x1b =
                 match take 3 data with [b] => Byte.eqb b x1b | _ => false end).
  { subst c1. unfold store_read. simpl. destruct (buf c) as [[b0 b1] b2].
    by destruct (take 3 data) as [|a [|b [|d l]]]. }
  rewrite Hesc.
  assert (Hrest : (let '(c2, ev) := key_event (length (take 3 data)) c1 in
                   let '(e, c', inputs) :=
                     key_events raw_flags reads (disableRawMode c2) in
                   (e, c', option_list ev ++ inputs)).1.1 = loop_exit reads).
  { destruct (key_event (length (take 3 data)) c1) as [c2 ev].
    specialize (IH (disableRawMode c2)).
    by destruct (key_events raw_flags reads (disableRawMode c2)) as [[e c'] inputs]. }
  clearbody c1.
  destruct (take 3 data) as [|a [|b l]]; try exact Hrest.
  by destruct (Byte.eqb a x1b).
Qed.

Lemma key_loop_steps cfg raw_flags reads c m :
  0 < ENCODER_INPUT_FILTER cfg → navigable cfg m →
  0 ≤ key_counter c < 2 ^ 32 → key_counter c mod 2 = 0 →
  ∃ c' m',
    key_loop raw_flags (s_rotary_encoder_callback cfg) s_push_button_callback
             s_long_push_button_callback reads c m
      = Some (loop_exit reads, c', m') ∧
    navigable cfg m' ∧
    s_menu_items m' = s_menu_items m ∧
    start (s_menu_handle m') = start (s_menu_handle m) ∧
    released m' = released m ∧
    ∃ events, trace m' = trace m ++ events.
Proof.
  intros Hf Hnav Hr He. rewrite key_loop_events.
  pose proof (key_events_exit raw_flags reads c) as Hexit.
  destruct (key_events raw_flags reads c) as [[e c'] inputs] eqn:Hev.
  simpl in Hexit. subst e. simpl.
  destruct (key_events_spec raw_flags reads c _ c' inputs Hev Hr He) as (Hin & _).
  destruct (taskReadKey_steps cfg inputs m Hf)
    as (m' & Hrun & Hnav' & Hits & Hst & Hrel & Htr); [|done|].
  { apply (list.Forall_impl _ _ _ Hin), even_input_ok. }
  exists c', m'. rewrite Hrun. simpl. by split_and!.
Qed.

Lemma s_menu_init_steps cfg raw_flags reads lflag stale m :
  0 < ENCODER_INPUT_FILTER cfg → build_inv cfg m →
  (1 ≤ allocated cfg m)%nat → navigable cfg (armed m) → trace m = [] →
  ∃ c' m' first second s rest,
    s_menu_init cfg raw_flags reads lflag stale m
      = Some (loop_exit reads, c', m') ∧
    s_menu_items m' = s_menu_items m ∧
    start (s_menu_handle m) = Some 0%nat ∧
    s_menu_items m !! 0%nat = Some first ∧
    next first = Some s ∧ s_menu_items m !! s = Some second ∧
    trace m' = printMenu (title first) (title second) :: rest ∧
    released m' = match loop_exit reads, MENU_USAGE_MEMORY cfg with
                  | esc_key, MENU_USAGE_DYNAMIC_MEMORY => seq 0 (allocated cfg m - 1)
                  | _, _ => []
                  end.
Proof.
  intros Hf [Hrel Hlen Hstart _ Hchain _ _] Hn Hnav Htr.
  assert (Hs0 : start (s_menu_handle m) = Some 0%nat).
  { rewrite Hstart. destruct (allocated cfg m); [lia | done]. }
  destruct (display_same cfg (armed m) Hnav) as (m1 & Hd & Hnav1 & Hfm & _).
  destruct Hfm as (_ & Hst1 & Hits1 & Hrel1 & first & second & Hfi & Hse & Htr1).
  destruct (key_loop_steps cfg raw_flags reads
              {| c_lflag := lflag; orig_termios := 0; key_counter := 0; buf := stale |}
              m1 Hf Hnav1)
    as (c' & m2 & Hrun & _ & Hits2 & Hst2 & Hrel2 & events & Htr2);
    [simpl; lia | done |].
  simpl in Hfi, Hst1, Hits1, Hrel1, Htr1.
  rewrite Hs0 in Hfi. rewrite deref_live in Hfi by congruence.
  destruct (next first) as [s|] eqn:Hnx; [|done].
  rewrite deref_live in Hse by congruence.
  rewrite Hits1 in Hfi, Hse.
  assert (Hinit : s_menu_init cfg raw_flags reads lflag stale m =
            match loop_exit reads with
            | esc_key =>
                m3 ← match MENU_USAGE_MEMORY cfg with
                     | MENU_USAGE_DYNAMIC_MEMORY => s_menu_free_items m2
                     | MENU_USAGE_STATIC_MEMORY => Some m2
                     end;
                Some (esc_key, c', m3)
            | e => Some (e, c', m2)
            end).
  { unfold s_menu_init, console_taskReadKey. fold (armed m). rewrite Hd. simpl.
    rewrite Hrun. simpl. by destruct (loop_exit reads). }
  assert (Hkeep : s_menu_items m2 = s_menu_items m ∧ released m2 = [] ∧
                  trace m2 = printMenu (title first) (title second) :: events).
  { split_and!; try congruence. rewrite Htr2, Htr1. simpl. by rewrite Htr. }
  destruct Hkeep as (Hi2 & Hr2 & Ht2).
  rewrite Hinit.
  destruct (loop_exit reads);
    [|by exists c', m2, first, second, s, events
     |by exists c', m2, first, second, s, events].
  destruct (MENU_USAGE_MEMORY cfg) eqn:Hmode.
  { by exists c', m2, first, second, s, events. }
  destruct (free_loop_spec (allocated cfg m) (allocated cfg m - 1) 0
              (length (s_menu_items m2)) m2) as (m3 & Hfr & Hr3 & Hi3 & _ & Ht3);
    try lia.
  - rewrite Hi2. lia.
  - rewrite Hi2. lia.
  - rewrite Hi2. exact Hchain.
  - simpl. congruence.
  - exists c', m3, first, second, s, events.
    unfold s_menu_free_items. rewrite Hst2, Hst1. simpl. rewrite Hs0, Hfr. simpl.
    split_and!; congruence.
Qed.

(** [s_menu_init] on a constructed menu with at least one item whose
    [parent] arguments were all [NULL] or items, whatever [read]
    delivers.  It renders [start] (item 0) with its ring successor
    first, writes no item, and never faults.  The teardown is reached
    only when the key loop is left by Esc: then the dynamic build has
    released all items but the last.  When a [read] fails the process
    exits inside [taskReadKey] with nothing released. *)
Theorem s_menu_init_run cfg raw_flags reads lflag stale m :
  config_ok cfg → 0 < ENCODER_INPUT_FILTER cfg →
  built cfg m → (1 ≤ allocated cfg m)%nat → parents_valid cfg m →
  ∃ c' m' first second s rest,
    s_menu_init cfg raw_flags reads lflag stale m
      = Some (loop_exit reads, c', m') ∧
    s_menu_items m' = s_menu_items m ∧
    start (s_menu_handle m) = Some 0%nat ∧
    s_menu_items m !! 0%nat = Some first ∧
    next first = Some s ∧ s_menu_items m !! s = Some second ∧
    trace m' = printMenu (title first) (title second) :: rest ∧
    released m' = match loop_exit reads, MENU_USAGE_MEMORY cfg with
                  | esc_key, MENU_USAGE_DYNAMIC_MEMORY => seq 0 (allocated cfg m - 1)
                  | _, _ => []
                  end.
Proof.
  intros Hok Hf Hb Hn Hpar.
  apply s_menu_init_steps; try done.
  - by apply built_inv.
  - by apply armed_navigable.
  - by destruct (built_quiet cfg m Hok Hb) as (_ & ? & _).
Qed.

(** The menu of [Menu_Init] with a session that ends with Esc, and with
    one whose second read fails. *)
Lemma s_menu_init_run_witness :
  (∃ c' m' rest,
     s_menu_init menu_h sample_raw_flags sample_session 0x8A3B (x00, x00, x00)
                 (menu_after 22) = Some (esc_key, c', m') ∧
     trace m' = printMenu (strncpy (c_string "Start") 16)
                          (strncpy (c_string "Test") 16) :: rest ∧
     released m' = seq 0 17) ∧
  (∃ c' m',
     s_menu_init menu_h sample_raw_flags failing_session 0x8A3B (x00, x00, x00)
                 (menu_after 22) = Some (read_error, c', m') ∧
     released m' = []).
Proof.
  split.
  - destruct (s_menu_init_run menu_h sample_raw_flags sample_session 0x8A3B
                (x00, x00, x00) (menu_after 22))
      as (c' & m' & first & second & s & rest & Hrun & _ & _ & H1 & Hn & H2 & Ht & Hr).
    + exact menu_h_ok.
    + reflexivity.
    + apply menu_after_built. vm_compute. lia.
    + vm_compute. lia.
    + by_evaluation.
    + vm_compute in H1. injection H1 as <-.
      vm_compute in Hn. injection Hn as <-.
      vm_compute in H2. injection H2 as <-.
      exists c', m', rest. split; [exact Hrun|]. split; [exact Ht | exact Hr].
  - destruct (s_menu_init_run menu_h sample_raw_flags failing_session 0x8A3B
                (x00, x00, x00) (menu_after 22))
      as (c' & m' & first & second & s & rest & Hrun & _ & _ & _ & _ & _ & _ & Hr).
    + exact menu_h_ok.
    + reflexivity.
    + apply menu_after_built. vm_compute. lia.
    + vm_compute. lia.
    + by_evaluation.
    + exists c', m'. split; [exact Hrun | exact Hr].
Defined.

(** ** The draft engine of menu03.c *)

(** In the draft the first [s_menu_add_item] of a program never returns
    normally when the store hands out an object, whatever the build and
    the arguments: the new item is [start] and has no successor, so the
    loop of the draft's [s_menu_rechain] is skipped with [first] still
    [NULL], and [first->prev = prev] dereferences it. *)
Theorem draft_first_add_faults cfg env t p cb fl :
  ¬ allocation_fails cfg env (power_on cfg) →
  menu03.s_menu_add_item cfg env t p cb fl (power_on cfg) = None.
Proof.
  unfold allocation_fails, menu03.s_menu_add_item, s_create_new_item, power_on.
  destruct (MENU_USAGE_MEMORY cfg); simpl; intros Hroom.
  - destruct (Z.leb_spec (Z.of_nat (MENU_SIZE cfg)) 0) as [?|Hpos]; [lia|].
    destruct (MENU_SIZE cfg) as [|n]; [lia|].
    unfold menu03.s_menu_rechain, assign, deref. simpl. done.
  - destruct env as [junk|]; [|done].
    unfold menu03.s_menu_rechain, assign, deref. simpl. done.
Qed.

Lemma draft_first_add_faults_witness :
  menu03.s_menu_add_item menu_h (Some stale_block) (c_string "Start") None None 0
                         (power_on menu_h) = None.
Proof.
  apply (draft_first_add_faults menu_h (Some stale_block) (c_string "Start")
           None None 0).
  simpl. discriminate.
Defined.

(** ** [Menu_Init] when allocations fail *)

Lemma allocated_power_on cfg : allocated cfg (power_on cfg) = 0%nat.
Proof. unfold allocated, power_on. simpl. by destruct (MENU_USAGE_MEMORY cfg). Qed.

Lemma init_inv_power_on cfg : init_inv cfg (power_on cfg).
Proof.
  unfold init_inv, parents_valid. rewrite allocated_power_on, take_0.
  split_and!; try done. apply build_inv_power_on.
Qed.

Lemma init_add cfg env t p cb fl m :
  config_ok cfg → init_inv cfg m → null_or_valid (allocated cfg m) p →
  ∃ q m', s_menu_add_item cfg env t p cb fl m = Some (q, m') ∧
          init_inv cfg m' ∧ null_or_valid (allocated cfg m') q ∧
          (allocated cfg m ≤ allocated cfg m' ≤ S (allocated cfg m))%nat.
Proof.
  intros Hok (Hinv & Hpar & Hch & Hro & Htr) Hp.
  destruct (s_menu_add_item_spec cfg env t p cb fl m Hok Hinv)
    as [[_ Hr] | (blank & m' & Hr & Hinv' & Hal & Htr' & Hro' & _ & Hnew & Hold & _)].
  { exists None, m. split_and!; try done. lia. }
  exists (Some (allocated cfg m)), m'. rewrite Hal.
  assert (Hfield : ∀ a it, (a < S (allocated cfg m))%nat →
            s_menu_items m' !! a = Some it →
            null_or_valid (S (allocated cfg m)) (parent it) ∧
            null_or_valid (S (allocated cfg m)) (child it)).
  { intros a it Ha Hit. destruct (decide (a = allocated cfg m)) as [->|Hne].
    - rewrite Hit in Hnew. simpl in Hnew.
      assert (Hpa : parent it = p) by (by injection Hnew).
      assert (Hc : child it = None) by (by injection Hnew).
      rewrite Hpa, Hc. split; [|done].
      apply (null_or_valid_mono (allocated cfg m)); [lia | done].
    - assert (Ha' : (a < allocated cfg m)%nat) by lia.
      specialize (Hold a Ha'). rewrite Hit in Hold.
      destruct (s_menu_items m !! a) as [it0|] eqn:Hit0; [|done]. simpl in Hold.
      assert (Hpa : parent it = parent it0) by (by injection Hold).
      assert (Hc : child it = child it0) by (by injection Hold).
      rewrite Hpa, Hc.
      unfold parents_valid in Hpar. rewrite Forall_lookup in Hpar, Hch.
      split; apply (null_or_valid_mono (allocated cfg m)); try lia.
      + apply (Hpar a it0). by rewrite lookup_take_lt.
      + apply (Hch a it0). by rewrite lookup_take_lt. }
  split_and!; try done; try (simpl; lia); try congruence.
  unfold init_inv, parents_valid. rewrite Hal.
  split_and!; try done; try congruence;
    apply Forall_lookup; intros a it Hlk;
    apply lookup_take_Some in Hlk as [Hit Ha]; by apply (Hfield a it).
Qed.

Lemma init_set_child cfg m a c :
  init_inv cfg m → null_or_valid (allocated cfg m) a →
  null_or_valid (allocated cfg m) c →
  ∃ m', s_menu_set_child a c m = Some m' ∧ init_inv cfg m' ∧
        allocated cfg m' = allocated cfg m.
Proof.
  intros (Hinv & Hpar & Hch & Hro & Htr) Ha Hc.
  destruct a as [a|]; [|by exists m].
  destruct (s_menu_set_child_spec cfg m a c Ha Hinv)
    as (m' & Hr & Hinv' & Hal & _ & Hh & Htr' & Hits).
  exists m'. split; [done|]. split; [|done].
  unfold init_inv, parents_valid in *. rewrite Hal, Hh, Hits.
  rewrite Forall_lookup in Hpar, Hch.
  split_and!; try done; try congruence;
    apply Forall_lookup; intros b it Hlk;
    apply lookup_take_Some in Hlk as [Hit Hb];
    rewrite list_lookup_alter in Hit;
    destruct (decide (a = b)) as [->|Hne];
    destruct (s_menu_items m !! b) as [it0|] eqn:Hit0;
    simpl in Hit; simplify_eq; simpl;
    try done;
    try (eapply (Hpar b); by rewrite lookup_take_lt);
    try (eapply (Hch b); by rewrite lookup_take_lt).
Qed.

Lemma init_inv_navigable cfg m :
  init_inv cfg m → (1 ≤ allocated cfg m)%nat → navigable cfg (armed m).
Proof.
  intros (Hinv & Hpar & Hch & Hro & Htr) Hn.
  pose proof (build_inv_ring_closed cfg m Hinv) as Hring.
  destruct Hinv as [Hrel Hlen Hstart _ _ _ _].
  unfold navigable. rewrite allocated_armed. simpl.
  assert (Hs : valid (allocated cfg m) (start (s_menu_handle m))).
  { rewrite Hstart. destruct (allocated cfg m); simpl; lia. }
  split_and!; try done.
  - apply Forall_lookup. intros a it Hlk.
    pose proof Hlk as Hlk'.
    apply lookup_take_Some in Hlk as [Hit Ha].
    destruct (Hring a it Ha Hit) as (y & z & ity & itz & Hy & Hz & _ & _ & Hym & Hzm & _).
    apply elem_of_kids in Hym as [? _]. apply elem_of_kids in Hzm as [? _].
    unfold item_wf. rewrite Hy, Hz. simpl.
    unfold parents_valid in Hpar. rewrite Forall_lookup in Hpar, Hch.
    split_and!; try done; [by apply (Hpar a) | by apply (Hch a)].
  - by rewrite Hro.
  - by rewrite Hro.
Qed.

Ltac init_pointer :=
  first [ exact I
        | (eapply null_or_valid_mono; [|eassumption]); lia ].

Ltac init_step Hok :=
  lazymatch goal with
  | Hinv : init_inv ?cfg ?m |- context [s_menu_add_item ?cfg ?e ?t ?p ?cb ?fl ?m] =>
      let q := fresh "q" in
      let m' := fresh "m" in
      let Hr := fresh "Hr" in
      let Hinv' := fresh "Hinv" in
      let Hq := fresh "Hq" in
      let Hle := fresh "Hle" in
      destruct (init_add cfg e t p cb fl m Hok Hinv)
        as (q & m' & Hr & Hinv' & Hq & Hle);
      [ init_pointer | rewrite Hr; clear Hr Hinv; simpl ]
  | Hinv : init_inv ?cfg ?m |- context [s_menu_set_child ?a ?c ?m] =>
      let m' := fresh "m" in
      let Hr := fresh "Hr" in
      let Hinv' := fresh "Hinv" in
      let Hal := fresh "Hal" in
      destruct (init_set_child cfg m a c Hinv) as (m' & Hr & Hinv' & Hal);
      [ init_pointer | init_pointer | rewrite Hr; clear Hr Hinv; simpl ]
  end.

Lemma Menu_Init_items_inv cfg env :
  config_ok cfg →
  ∃ m, Menu_Init_items cfg env (power_on cfg) = Some m ∧
       init_inv cfg m ∧ (allocated cfg m ≤ 18)%nat.
Proof.
  intros Hok. pose proof (init_inv_power_on cfg) as Hinv.
  pose proof (allocated_power_on cfg) as H0.
  unfold Menu_Init_items. cbv zeta.
  do 7 init_step Hok. init_step Hok.
  do 3 init_step Hok. init_step Hok.
  do 4 init_step Hok. init_step Hok.
  do 4 init_step Hok.
  lazymatch goal with
  | Hinv : init_inv _ ?m |- context [s_menu_set_child ?a ?c ?m] =>
      destruct (init_set_child cfg m a c Hinv) as (m' & Hr & Hinv' & Hal');
      [init_pointer | init_pointer |]
  end.
  exists m'. split_and!; [done | done | lia].
Qed.

(** [Menu_Init] never tests what [s_menu_add_item] returns.  Whatever
    allocations fail, its construction part completes with every ring
    closed and at most eighteen items.  When no item at all was obtained
    ([start] is [NULL]) the run that follows faults in [s_display_menu].
    Otherwise it never faults, whatever [read] delivers, and writes no
    item; the teardown is reached only when the key loop is left by Esc
    (the dynamic build then has released all items but the last), and a
    failed [read] ends the process with nothing released. *)
Theorem Menu_Init_any_store cfg env raw_flags reads lflag stale :
  config_ok cfg → 0 < ENCODER_INPUT_FILTER cfg →
  ∃ m, Menu_Init_items cfg env (power_on cfg) = Some m ∧
       ring_closed cfg m ∧ (allocated cfg m ≤ 18)%nat ∧
       (allocated cfg m = 0%nat →
          Menu_Init cfg env raw_flags reads lflag stale (power_on cfg) = None) ∧
       ((1 ≤ allocated cfg m)%nat →
          ∃ c' m',
            Menu_Init cfg env raw_flags reads lflag stale (power_on cfg)
              = Some (loop_exit reads, c', m') ∧
            s_menu_items m' = s_menu_items m ∧
            released m' =
              match loop_exit reads, MENU_USAGE_MEMORY cfg with
              | esc_key, MENU_USAGE_DYNAMIC_MEMORY => seq 0 (allocated cfg m - 1)
              | _, _ => []
              end).
Proof.
  intros Hok Hf.
  destruct (Menu_Init_items_inv cfg env Hok) as (m & Hitems & Hinit & Hle).
  pose proof Hinit as (Hinv & _ & _ & _ & Htr).
  exists m. unfold Menu_Init. rewrite Hitems.
  split_and!; try done.
  - by apply build_inv_ring_closed.
  - intros H0. destruct Hinv as [_ _ Hstart _ _ _ _]. rewrite H0 in Hstart.
    change (s_menu_init cfg raw_flags reads lflag stale m = None).
    unfold s_menu_init, s_display_menu. rewrite Hstart. done.
  - intros Hn.
    destruct (s_menu_init_steps cfg raw_flags reads lflag stale m Hf Hinv Hn) as
      (c' & m' & first & second & s & rest & Hrun & Hits & _ & _ & _ & _ & _ & Hrel);
      try done.
    { by apply init_inv_navigable. }
    exists c', m'. by split_and!.
Qed.

(** The allocation of "Options" fails: seventeen items are built, and
    the run ends with sixteen released after Esc, none after a failed
    read. *)
Lemma Menu_Init_any_store_witness :
  ∃ m, Menu_Init_items menu_h options_fails (power_on menu_h) = Some m ∧
       allocated menu_h m = 17%nat ∧
       (∃ c' m', Menu_Init menu_h options_fails sample_raw_flags sample_session
                           0x8A3B (x00, x00, x00) (power_on menu_h)
                   = Some (esc_key, c', m') ∧
                 released m' = seq 0 16) ∧
       (∃ c' m', Menu_Init menu_h options_fails sample_raw_flags failing_session
                           0x8A3B (x00, x00, x00) (power_on menu_h)
                   = Some (read_error, c', m') ∧
                 released m' = []).
Proof.
  assert (Hal : allocated menu_h <$>
                  Menu_Init_items menu_h options_fails (power_on menu_h)
                = Some 17%nat) by (vm_compute; reflexivity).
  destruct (Menu_Init_any_store menu_h options_fails sample_raw_flags sample_session
              0x8A3B (x00, x00, x00))
    as (m & Hitems & _ & _ & _ & Hrun); [exact menu_h_ok | reflexivity |].
  destruct (Menu_Init_any_store menu_h options_fails sample_raw_flags failing_session
              0x8A3B (x00, x00, x00))
    as (m0 & Hitems0 & _ & _ & _ & Hrun0); [exact menu_h_ok | reflexivity |].
  rewrite Hitems in Hitems0. injection Hitems0 as <-.
  rewrite Hitems in Hal.
  change (Some (allocated menu_h m) = Some 17%nat) in Hal.
  injection Hal as Hal.
  destruct Hrun as (c1 & m1 & Hrun1 & _ & Hrel1); [lia|].
  destruct Hrun0 as (c2 & m2 & Hrun2 & _ & Hrel2); [lia|].
  exists m. split; [exact Hitems|]. split; [exact Hal|]. split.
  - exists c1, m1. split; [exact Hrun1|]. rewrite Hrel1, Hal. reflexivity.
  - exists c2, m2. split; [exact Hrun2 | exact Hrel2].
Defined.
